(** * FileUploadServer (bin/fus.py): access control, path resolution and
      range streaming

    A shallow embedding of the request-handling core of [bin/fus.py]:
    [normalize_path], [has_access], [get_user], [upload_file],
    [streamfile] with its chunk generator, and the dispatcher [handle].

    Conventions of the embedding.
    - Python [str] is [string] (8-bit characters); Python [int] is [Z];
      [None] is [None] of an [option].
    - A raised exception is the [Raise] outcome of the [result] type.
    - A [while] loop that the source does not bound is a fixpoint on a
      fuel argument; running out of fuel is the [OutOfFuel] outcome.
    - Calls to [logging] write to the log sink only and are left out.
    - [os.path] is [posixpath]; its functions are transcribed from the
      CPython library module. *)

From Stdlib Require Import ZArith String Ascii List Bool Lia DecimalString.
From stdpp Require Import gmap strings list sorting.

Local Open Scope Z_scope.

(** ** Python string methods *)

Module PyStr.

Definition chr_eqb (a b : ascii) : bool := Ascii.eqb a b.

(** [s.startswith(p)] *)
Fixpoint startswith (s p : string) {struct p} : bool :=
  match p with
  | EmptyString => true
  | String a p' =>
      match s with
      | EmptyString => false
      | String b s' => chr_eqb a b && startswith s' p'
      end
  end.

(** last character of [s], if any *)
Fixpoint last_chr (s : string) : option ascii :=
  match s with
  | EmptyString => None
  | String a EmptyString => Some a
  | String _ s' => last_chr s'
  end.

(** [s.endswith(c)] for a one-character [c] *)
Definition endswith_chr (s : string) (c : ascii) : bool :=
  match last_chr s with
  | Some a => chr_eqb a c
  | None => false
  end.

(** [s[n:]] *)
Fixpoint slice_from (n : nat) (s : string) : string :=
  match n, s with
  | O, _ => s
  | S n', String _ s' => slice_from n' s'
  | S _, EmptyString => EmptyString
  end.

(** [s[:n]] *)
Fixpoint slice_to (n : nat) (s : string) : string :=
  match n, s with
  | O, _ => EmptyString
  | S n', String a s' => String a (slice_to n' s')
  | S _, EmptyString => EmptyString
  end.

(** [s.lstrip(c)] *)
Fixpoint lstrip (c : ascii) (s : string) : string :=
  match s with
  | EmptyString => EmptyString
  | String a s' => if chr_eqb a c then lstrip c s' else s
  end.

(** [s.rstrip(c)] *)
Fixpoint rstrip (c : ascii) (s : string) : string :=
  match s with
  | EmptyString => EmptyString
  | String a s' =>
      match rstrip c s' with
      | EmptyString => if chr_eqb a c then EmptyString else String a EmptyString
      | r => String a r
      end
  end.

(** [s.strip(c)] *)
Definition strip (c : ascii) (s : string) : string := rstrip c (lstrip c s).

(** [s.rfind(c)]: index of the last occurrence of [c], [-1] if none.
    [i] is the index of the first character of [s]; [found] is the
    answer for the part already scanned. *)
Fixpoint rfind_from (c : ascii) (i found : Z) (s : string) : Z :=
  match s with
  | EmptyString => found
  | String a s' => rfind_from c (i + 1) (if chr_eqb a c then i else found) s'
  end.

Definition rfind (c : ascii) (s : string) : Z := rfind_from c 0 (-1) s.

(** [c * n] *)
Fixpoint repeat_chr (c : ascii) (n : nat) : string :=
  match n with
  | O => EmptyString
  | S n' => String c (repeat_chr c n')
  end.

(** [s.split(c)] *)
Fixpoint split_chr (c : ascii) (s : string) : list string :=
  match s with
  | EmptyString => [EmptyString]
  | String a s' =>
      if chr_eqb a c then EmptyString :: split_chr c s'
      else match split_chr c s' with
           | h :: t => String a h :: t
           | [] => [String a EmptyString]
           end
  end.

(** [sep.join(l)] is [String.concat sep l]. *)

(** [str(n)] and ["%d" % n] for an [int] *)
Definition str_of_int (n : Z) : string := NilZero.string_of_int (Z.to_int n).

Definition is_digit (a : ascii) : bool :=
  let n := nat_of_ascii a in (48 <=? n)%nat && (n <=? 57)%nat.

(** [int(s)] for a string of decimal digits *)
Definition digit_val (a : ascii) : Z := Z.of_nat (nat_of_ascii a) - 48.

Fixpoint int_of_digits_from (acc : Z) (s : string) : Z :=
  match s with
  | EmptyString => acc
  | String a s' => int_of_digits_from (10 * acc + digit_val a) s'
  end.

Definition int_of_digits (s : string) : Z := int_of_digits_from 0 s.

(** Python truthiness of a string: non-empty *)
Definition truthy (s : string) : bool :=
  match s with EmptyString => false | _ => true end.

End PyStr.

(** ** posixpath *)

Module posixpath.
Import PyStr.

Definition sep_chr : ascii := "/"%char.
Definition sep : string := "/".

Definition isabs (s : string) : bool := startswith s sep.

(** [os.path.join(a, b)] *)
Definition join (a b : string) : string :=
  if startswith b sep then b
  else if negb (truthy a) || endswith_chr a sep_chr then a +:+ b
  else a +:+ sep +:+ b.

(** One iteration of the component loop of [normpath]. *)
Definition normpath_step (initial_slashes : nat) (new_comps : list string)
    (comp : string) : list string :=
  if String.eqb comp "" || String.eqb comp "." then new_comps
  else if negb (String.eqb comp "..")
          || ((initial_slashes =? 0)%nat && bool_decide (new_comps = []))
          || (negb (bool_decide (new_comps = []))
              && bool_decide (List.last new_comps "" = ".."))
       then new_comps ++ [comp]
       else if negb (bool_decide (new_comps = [])) then removelast new_comps
       else new_comps.

(** [os.path.normpath(path)] *)
Definition normpath (path : string) : string :=
  if String.eqb path "" then "."
  else
    let initial_slashes :=
      if startswith path sep then
        if startswith path "//" && negb (startswith path "///") then 2%nat
        else 1%nat
      else 0%nat in
    let comps := split_chr sep_chr path in
    let new_comps := fold_left (normpath_step initial_slashes) comps [] in
    let path := String.concat sep new_comps in
    let path := repeat_chr sep_chr initial_slashes +:+ path in
    if truthy path then path else ".".

(** [os.path.abspath(path)], with [cwd] the value of [os.getcwd()] *)
Definition abspath (cwd path : string) : string :=
  normpath (if isabs path then path else join cwd path).

(** [os.path.split(p)] *)
Definition split (p : string) : string * string :=
  let i := Z.to_nat (rfind sep_chr p + 1) in
  let head := slice_to i p in
  let tail := slice_from i p in
  if truthy head && negb (String.eqb head (repeat_chr sep_chr (String.length head)))
  then (rstrip sep_chr head, tail)
  else (head, tail).

End posixpath.

(** ** Exceptions and outcomes *)

(** [AccessError(code, message)] is the server's own exception; the other
    constructors are the built-in exceptions the modelled code can raise. *)
Inductive exn : Type :=
| AccessError (code : Z) (message : string)
| AttributeError
| ValueError
| UnicodeEncodeError
| UnboundLocalError
| KeyError
| OSError
| AuthenticationFailed.

Inductive result (A : Type) : Type :=
| Return (a : A)
| Raise (e : exn)
| OutOfFuel.
Arguments Return {A} a.
Arguments Raise {A} e.
Arguments OutOfFuel {A}.

Global Instance result_ret : MRet result := fun A a => Return a.

Global Instance result_bind : MBind result := fun A B k m =>
  match m with
  | Return a => k a
  | Raise e => Raise e
  | OutOfFuel => OutOfFuel
  end.

(** [raise AccessError(403, "forbidden")] *)
Definition forbidden {A : Type} : result A := Raise (AccessError 403 "forbidden").

(** ** The policy snapshot *)

(** [class Access(Enum)] *)
Inductive Access : Type := LIST | FETCH | DELETE | UPLOAD | MKDIR.

Definition Access_value (a : Access) : string :=
  match a with
  | LIST => "list" | FETCH => "read" | DELETE => "delete"
  | UPLOAD => "write" | MKDIR => "mkdir"
  end.

Global Instance Access_eq_dec : EqDecision Access.
Proof. solve_decision. Defined.

Definition Access_to_nat (a : Access) : nat :=
  match a with LIST => 0 | FETCH => 1 | DELETE => 2 | UPLOAD => 3 | MKDIR => 4 end%nat.

Definition Access_of_nat (n : nat) : option Access :=
  match n with
  | 0 => Some LIST | 1 => Some FETCH | 2 => Some DELETE
  | 3 => Some UPLOAD | 4 => Some MKDIR | _ => None
  end%nat.

Global Instance Access_countable : Countable Access.
Proof.
  apply (inj_countable Access_to_nat Access_of_nat).
  intros []; reflexivity.
Defined.

Definition all_Access : list Access := [LIST; FETCH; DELETE; UPLOAD; MKDIR].

(** [UNAUTH = "anonymous"] *)
Definition UNAUTH : string := "anonymous".

(** One value of [config.user_perms]: the dict of a user, with its
    ["creds"] entry and one list of directory names per [Access] key. *)
Record user_perm : Type := {
  creds : option string;
  action_dirs : gmap Access (list string)
}.

(** The part of [config] the handlers read. *)
Record config : Type := {
  basedir : string;
  chunksize : Z;
  user_perms : gmap string user_perm;
  all_dirs : list string
}.

(** [init_actions(perms, user)] *)
Definition init_actions : gmap Access (list string) :=
  fold_right (fun i u => <[i := []]> u) ∅ all_Access.

(** The initial value of [user_perms] in [compute_permissions]. *)
Definition initial_user_perms : gmap string user_perm :=
  {[ UNAUTH := {| creds := None; action_dirs := init_actions |} ]}.

(** ** The operating system as seen by [normalize_path] *)

Record stat_result : Type := {
  st_mode : Z;
  st_uid : Z
}.

Inductive stat_outcome : Type :=
| StatOk (sr : stat_result)
| StatFileNotFoundError
| StatException.

(** [stat.S_ISDIR], [stat.S_ISREG]: the file-type bits of [st_mode]
    (octal 0170000) are compared with [S_IFDIR] (octal 040000) and
    [S_IFREG] (octal 0100000). *)
Definition S_IFMT (mode : Z) : Z := Z.land mode 0xF000.
Definition S_IFDIR : Z := 0x4000.
Definition S_IFREG : Z := 0x8000.
Definition S_ISDIR (mode : Z) : bool := S_IFMT mode =? S_IFDIR.
Definition S_ISREG (mode : Z) : bool := S_IFMT mode =? S_IFREG.

(** ** Path resolution *)

Section normalize_path.
Import PyStr.

(** [os.getcwd()], [os.stat] and the configuration in force. *)
Variable os_getcwd : string.
Variable os_stat : string → stat_outcome.
Variable cfg : config.

(** The absolute path [name] computed on the second line of
    [normalize_path]. *)
Definition resolved_name (path : string) : string :=
  posixpath.abspath os_getcwd (posixpath.join (basedir cfg) path).

(** [normalize_path(path)]: the triple [(name, dirname, fname)]. *)
Definition normalize_path (path : string)
    : result (string * string * option string) :=
  let basedir := basedir cfg in
  let name := posixpath.abspath os_getcwd (posixpath.join basedir path) in
  let path := strip posixpath.sep_chr (slice_from (String.length basedir) name) in
  if negb (String.eqb name basedir)
     && negb (startswith name (basedir +:+ posixpath.sep))
  then forbidden
  else
    match os_stat name with
    | StatFileNotFoundError => forbidden
    | StatException => forbidden
    | StatOk sr =>
        (* a foreign [st_uid] is logged and changes nothing *)
        if S_ISDIR (st_mode sr) then Return (name, path, None)
        else if S_ISREG (st_mode sr) then
          let '(dirname, fname) := posixpath.split path in
          Return (name, dirname, Some fname)
        else forbidden
    end.

End normalize_path.

(** ** Access decisions *)

Section has_access.
Variable cfg : config.

(** The [while True] loop of [has_access]. *)
Fixpoint has_access_loop (fuel : nat) (dirs : list string) (dirname : string)
    : result bool :=
  match fuel with
  | O => OutOfFuel
  | S fuel' =>
      if bool_decide (dirname ∈ all_dirs cfg) then
        Return (bool_decide (dirname ∈ dirs))
      else if (String.length dirname =? 0)%nat || String.eqb dirname posixpath.sep then
        Return false
      else
        let '(dirname, _) := posixpath.split dirname in
        has_access_loop fuel' dirs dirname
  end.

(** [has_access(user, dirname, action)] *)
Definition has_access (fuel : nat) (user dirname : string) (action : Access)
    : result bool :=
  match user_perms cfg !! user with
  | None => forbidden
  | Some perms =>
      match action_dirs perms !! action with
      | None => forbidden
      | Some dirs => has_access_loop fuel dirs dirname
      end
  end.

(** [MyFilesystem.has_access(path, access_list)], the FTP adapter's
    wrapper, after [strip_path] and for the session's [user]. *)
Fixpoint ftp_has_access (fuel : nat) (user path : string)
    (access_list : list Access) : result bool :=
  match access_list with
  | [] => Return false
  | access :: rest =>
      match has_access fuel user path access with
      | Return true => Return true
      | Return false => ftp_has_access fuel user path rest
      | Raise (AccessError _ _) => ftp_has_access fuel user path rest
      | Raise e => Raise e
      | OutOfFuel => OutOfFuel
      end
  end.

(** ** Credentials *)

(** [config.user_perms.get(user, dict()).get("creds", None)] *)
Definition stored_creds (user : string) : option string :=
  match user_perms cfg !! user with
  | Some perms => creds perms
  | None => None
  end.

(** [MyAuthorizer.validate_authentication(username, password, handler)] *)
Definition validate_authentication (username : string)
    (password : option string) : result unit :=
  let creds := stored_creds username in
  if negb (bool_decide (creds = password)) then Raise AuthenticationFailed
  else Return tt.

End has_access.

(** ** Requests *)

(** What the handlers read from flask's [request]. *)
Record request : Type := {
  form_user : option string;             (* request.values.get("user") *)
  form_password : option string;         (* request.values.get("password") *)
  authorization : option (string * string); (* request.authorization *)
  cookie_cred : option string;           (* request.cookies.get("cred") *)
  form_action : option string;           (* request.values.get("action") *)
  form_status : option string;           (* request.values.get("status") *)
  form_dirname : option string;          (* request.values["dirname"] *)
  upload : option (string * list Byte.byte); (* request.files['file'] *)
  range_header : option string;          (* request.headers.get('Range') *)
  is_secure : bool;
  host : string
}.

(** What [get_user_from_request] hands back: a pair, or the list that
    [split(":", 1)] made of the cookie, which has one or two items. *)
Inductive user_password : Type :=
| UserPassword (user : string) (password : option string)
| OneItem (item : string).

(** [s.split(":", 1)] *)
Fixpoint split_colon_once (s : string) : user_password :=
  match s with
  | EmptyString => OneItem EmptyString
  | String a s' =>
      if PyStr.chr_eqb a ":"%char then UserPassword EmptyString (Some s')
      else match split_colon_once s' with
           | UserPassword u p => UserPassword (String a u) p
           | OneItem u => OneItem (String a u)
           end
  end.

(** ["%s" % password] *)
Definition str_of_password (password : option string) : string :=
  match password with
  | Some p => p
  | None => "None"
  end.

Definition is_ascii (s : string) : bool :=
  forallb (fun a => (nat_of_ascii a <? 128)%nat) (list_ascii_of_string s).

Section get_user.
(** [base64.b64encode(b).decode("ascii")] on ASCII text, and
    [base64.b64decode(s).decode("utf8")], which raises on malformed
    input ([None] here). *)
Variable b64encode : string → string.
Variable b64decode : string → option string.
Variable cfg : config.
Variable req : request.

(** [get_user_from_request(path)]; every exception inside it is caught
    and gives [(UNAUTH, None)]. *)
Definition get_user_from_request : user_password :=
  match form_user req, form_password req with
  | Some user, Some password => UserPassword user (Some password)
  | _, _ =>
      match authorization req with
      | Some (username, password) => UserPassword username (Some password)
      | None =>
          match cookie_cred req with
          | Some cred =>
              if PyStr.truthy cred then
                match b64decode cred with
                | Some text => split_colon_once text
                | None => UserPassword UNAUTH None
                end
              else UserPassword UNAUTH None
          | None => UserPassword UNAUTH None
          end
      end
  end.

(** [get_user(path)]: [(user, password, cred)] *)
Definition get_user : result (string * option string * string) :=
  match get_user_from_request with
  | OneItem _ => Raise ValueError
  | UserPassword user password =>
      if bool_decide (stored_creds cfg user = password) then
        let cred := user +:+ ":" +:+ str_of_password password in
        if is_ascii cred then Return (user, password, b64encode cred)
        else Raise UnicodeEncodeError
      else Return (UNAUTH, None, "")
  end.

End get_user.

(** ** Responses *)

(** The context given to [render_template_string(TEMPLATE, ...)]. *)
Record listing : Type := {
  l_dirname : string;
  l_parentdir : option string;
  l_prefix : string;
  l_files : list (string * string);      (* name, path *)
  l_subdirs : list (string * string);
  l_status : option string;
  allow_upload : bool;
  allow_delete : bool;
  allow_fetch : bool;
  allow_mkdir : bool;
  l_user : string
}.

(** The generator object made by [send_chunks_iter(filename, start,
    length)]: its arguments, before the first [next]. *)
Record chunk_iter : Type := {
  it_filename : string;
  it_start : Z;
  it_length : Z
}.

(** Where a redirect points. *)
Inductive location : Type :=
| UrlForHandle (path status : string)    (* url_for("handle", path=.., status=..) *)
| Url (url : string).

Inductive body : Type :=
| Text (s : string)
| Template (ctx : listing)
| WholeFile (fullname : string)          (* send_file(fullname, ...) *)
| Chunks (it : chunk_iter)               (* a generator, not yet run *)
| RedirectTo (target : location).         (* redirect(target, code=302) *)

Record response : Type := {
  r_status : Z;
  r_headers : list (string * string);
  r_mimetype : option string;
  r_body : body
}.

(** The one-character string made of a double quote. *)
Definition dquote : string := String (ascii_of_nat 34) EmptyString.

(** [Response(text, code)] *)
Definition Response (text : string) (code : Z) : response :=
  {| r_status := code; r_headers := []; r_mimetype := None; r_body := Text text |}.

(** [redirect(url_for("handle", path=path, status=status), code=302)] *)
Definition redirect_handle (path status : string) : response :=
  {| r_status := 302; r_headers := []; r_mimetype := None;
     r_body := RedirectTo (UrlForHandle path status) |}.

(** [resp.headers.add(k, v)] *)
Definition add_header (k v : string) (r : response) : response :=
  {| r_status := r_status r; r_headers := r_headers r ++ [(k, v)];
     r_mimetype := r_mimetype r; r_body := r_body r |}.

(** ** Files *)

(** A node of the file system: its bytes, whose number is its [st_size],
    and what the server process may do to it. The outcome of an
    operation depends on the node at its path only; the directories
    above it are not modelled. *)
Record fs_node : Type := {
  n_isdir : bool;
  n_data : list Byte.byte;
  n_readable : bool;
  n_writable : bool
}.

Abbreviation filesystem := (gmap string fs_node).

(** [os.access(path, os.R_OK)] *)
Definition os_access_R_OK (fs : filesystem) (path : string) : bool :=
  match fs !! path with
  | Some n => n_readable n
  | None => false
  end.

(** [file.save(fullname)]: [open(fullname, "wb")] and a copy of the
    uploaded bytes into it. *)
Definition file_save (fs : filesystem) (fullname : string)
    (data : list Byte.byte) : result filesystem :=
  match fs !! fullname with
  | Some n =>
      if n_isdir n || negb (n_writable n) then Raise OSError
      else Return (<[fullname := {| n_isdir := false; n_data := data;
                                    n_readable := n_readable n;
                                    n_writable := true |}]> fs)
  | None =>
      Return (<[fullname := {| n_isdir := false; n_data := data;
                               n_readable := true; n_writable := true |}]> fs)
  end.

(** [os.path.getsize(path)], [os.lstat(path).st_size] *)
Definition os_getsize (fs : filesystem) (path : string) : result Z :=
  match fs !! path with
  | Some n => Return (Z.of_nat (length (n_data n)))
  | None => Raise OSError
  end.

(** [os.remove(path)] *)
Definition os_remove (fs : filesystem) (path : string) : result filesystem :=
  match fs !! path with
  | Some n => if n_isdir n then Raise OSError else Return (delete path fs)
  | None => Raise OSError
  end.

(** [os.makedirs(path)] *)
Definition os_makedirs (fs : filesystem) (path : string) : result filesystem :=
  match fs !! path with
  | Some _ => Raise OSError
  | None =>
      Return (<[path := {| n_isdir := true; n_data := [];
                           n_readable := true; n_writable := true |}]> fs)
  end.

(** [os.path.basename(p)] *)
Definition basename (p : string) : string :=
  PyStr.slice_from (Z.to_nat (PyStr.rfind posixpath.sep_chr p + 1)) p.

Section mutations.
(** [django.utils.text.get_valid_filename] *)
Variable get_valid_filename : string → string.
Variable cfg : config.
Variable req : request.

(** [upload_file(user, directory)]: the response and the file system
    after the call. *)
Definition upload_file (fs : filesystem) (user directory : string)
    : result (response * filesystem) :=
  match upload req with
  | None => Raise KeyError
  | Some (filename, data) =>
      let fname := get_valid_filename (basename filename) in
      let name := posixpath.join directory fname in
      let fullname := posixpath.join (basedir cfg) name in
      if negb (PyStr.truthy fname) then
        Return (redirect_handle directory "invalid filename", fs)
      else if os_access_R_OK fs fullname then
        Return (Response "duplicate" 403, fs)
      else
        fs' ← file_save fs fullname data;
        size ← os_getsize fs' fullname;
        Return (redirect_handle directory
                  (PyStr.str_of_int size +:+ " bytes saved as " +:+ fname),
                fs')
  end.

(** [delete_file(user, dirname, filename)] *)
Definition delete_file (fs : filesystem) (user dirname filename : string)
    : result (response * filesystem) :=
  let name := posixpath.join dirname filename in
  let fullname := posixpath.join (basedir cfg) name in
  match os_remove fs fullname with
  | Return fs' =>
      Return (redirect_handle dirname ("File " +:+ name +:+ " deleted"), fs')
  | _ => Return (Response "permission denied" 403, fs)
  end.

(** [make_dir(user, dirname)] *)
Definition make_dir (fs : filesystem) (user dirname : string)
    : result (response * filesystem) :=
  match form_dirname req with
  | None => Raise KeyError
  | Some candidate =>
      let filename := get_valid_filename candidate in
      let name := posixpath.join dirname filename in
      let fullname := posixpath.join (basedir cfg) name in
      match os_makedirs fs fullname with
      | Return fs' =>
          Return (redirect_handle dirname ("Directory " +:+ name +:+ " created"), fs')
      | _ => Return (Response "permission denied" 403, fs)
      end
  end.

End mutations.

(** ** Range streaming *)

(** The file object [f] of [open(filename, 'rb')]: [f.seek(pos)] followed
    by [f.read(n)]. *)
Definition seek_read (data : list Byte.byte) (pos n : Z)
    : result (list Byte.byte) :=
  if pos <? 0 then Raise OSError
  else if n <? -1 then Raise ValueError
  else if n =? -1 then Return (drop (Z.to_nat pos) data)
  else Return (take (Z.to_nat n) (drop (Z.to_nat pos) data)).

(** One [yield]: the position sought, the size asked of [f.read] and the
    bytes read. *)
Record yielded : Type := {
  y_pos : Z;
  y_size : Z;
  y_bytes : list Byte.byte
}.

(** One resumption of the generator [send_chunks_iter], from the loop
    test to the next [yield]: what is yielded and the new [offset], or
    [None] when the loop ends ([StopIteration]). *)
Definition send_chunks_next (chunksize : Z) (data : list Byte.byte)
    (start length offset : Z) : result (option (yielded * Z)) :=
  if offset <? length then
    let pos := start + offset in
    let chunk := chunksize in
    let chunk := if offset + chunk >? length then length - offset else chunk in
    let offset := offset + chunk in
    bytes ← seek_read data pos chunk;
    Return (Some ({| y_pos := pos; y_size := chunk; y_bytes := bytes |}, offset))
  else Return None.

(** The generator run to its end: what it yields, and how it ends
    ([Return tt] for [StopIteration]). *)
Fixpoint send_chunks_run (fuel : nat) (chunksize : Z) (data : list Byte.byte)
    (start length offset : Z) : list yielded * result unit :=
  match fuel with
  | O => ([], OutOfFuel)
  | S fuel' =>
      match send_chunks_next chunksize data start length offset with
      | Return None => ([], Return tt)
      | Return (Some (y, offset')) =>
          let '(ys, fin) := send_chunks_run fuel' chunksize data start length offset' in
          (y :: ys, fin)
      | Raise e => ([], Raise e)
      | OutOfFuel => ([], OutOfFuel)
      end
  end.

(** [send_chunks_iter(filename, start, length)] consumed to its end. *)
Definition send_chunks_iter (fuel : nat) (cfg : config) (fs : filesystem)
    (it : chunk_iter) : list yielded * result unit :=
  match fs !! it_filename it with
  | Some n =>
      if n_isdir n || negb (n_readable n) then ([], Raise OSError)
      else send_chunks_run fuel (chunksize cfg) (n_data n)
             (it_start it) (it_length it) 0
  | None => ([], Raise OSError)
  end.

(** The bytes a consumer receives from a response body made of chunks. *)
Definition body_bytes (ys : list yielded) : list Byte.byte :=
  concat (map y_bytes ys).

(** [re.search] for the pattern of [streamfile]: a group of one or more
    digits, a hyphen, a group of zero or more digits. A digit is one of
    the ten ASCII digits, the only decimal digits among 8-bit characters. *)

(** The longest run of digits at the head of [s], and what follows it. *)
Fixpoint span_digits (s : string) : string * string :=
  match s with
  | EmptyString => (EmptyString, EmptyString)
  | String a s' =>
      if PyStr.is_digit a then
        let '(d, rest) := span_digits s' in (String a d, rest)
      else (EmptyString, s)
  end.

(** A match of the pattern that starts at the head of [s]. *)
Definition match_range_here (s : string) : option (string * string) :=
  let '(g0, rest) := span_digits s in
  if PyStr.truthy g0 then
    match rest with
    | String "-"%char rest' => Some (g0, fst (span_digits rest'))
    | _ => None
    end
  else None.

(** The leftmost match: [m.groups()] if there is one, [None] if [m] is
    [None]. *)
Fixpoint re_search_range (s : string) : option (string * string) :=
  match match_range_here s with
  | Some g => Some g
  | None =>
      match s with
      | EmptyString => None
      | String _ s' => re_search_range s'
      end
  end.

Section streamfile.
(** [mimetypes.guess_type(f, strict=False)[0]] *)
Variable guess_type : string → option string.
Variable req : request.

(** [get_mime_type(f)] *)
Definition get_mime_type (f : string) : string :=
  match guess_type f with
  | Some type => type
  | None => "application/octet-stream"
  end.

(** [streamfile(fullname)]. Without a [Range] header the answer is left
    to [send_file], and to [make_conditional] after it. *)
Definition streamfile (fs : filesystem) (fullname : string) : result response :=
  let whole :=
    Return {| r_status := 200; r_headers := [];
              r_mimetype := Some (get_mime_type fullname);
              r_body := WholeFile fullname |} in
  match range_header req with
  | None => whole
  | Some range_header =>
      if negb (PyStr.truthy range_header) then whole
      else
        size ← os_getsize fs fullname;
        let byte1 := 0 in
        let byte2 : option Z := None in
        match re_search_range range_header with
        | None => Raise AttributeError
        | Some (g0, g1) =>
            let byte1 := if PyStr.truthy g0 then PyStr.int_of_digits g0 else byte1 in
            let byte2 := if PyStr.truthy g1 then Some (PyStr.int_of_digits g1) else byte2 in
            let length := size - byte1 in
            let length :=
              match byte2 with
              | Some byte2 => Z.min (byte2 - byte1 + 1) length
              | None => length
              end in
            let resp :=
              {| r_status := 206; r_headers := [];
                 r_mimetype := Some (get_mime_type fullname);
                 r_body := Chunks {| it_filename := fullname;
                                     it_start := byte1;
                                     it_length := length |} |} in
            Return (add_header "Content-Range"
                      ("bytes " +:+ PyStr.str_of_int byte1 +:+ "-"
                       +:+ PyStr.str_of_int (byte1 + length - 1) +:+ "/"
                       +:+ PyStr.str_of_int size)
                      resp)
        end
  end.

End streamfile.

(** ** The HTTP handler *)

(** The operating system as seen by one request. *)
Record os_env : Type := {
  os_getcwd : string;
  os_geteuid : Z;
  os_stat : string → stat_outcome;
  os_listdir : string → result (list string)
}.

(** The decorator [redirect_on_exception], applied to the outcome of the
    decorated function; [fs] is the file system the function found,
    which a function that raises has left as it was. *)
Definition redirect_on_exception (fs : filesystem)
    (outcome : result (response * filesystem)) : result (response * filesystem) :=
  match outcome with
  | Return r => Return r
  | Raise (AccessError code message) =>
      if code =? 401 then
        Return (add_header "WWW-Authenticate"
                  ("Basic realm=" +:+ dquote +:+ "fus login" +:+ dquote)
                  (Response "Unauthorized" code), fs)
      else
        Return ({| r_status := code; r_headers := [];
                   r_mimetype := Some "text/plain";
                   r_body := Text message |}, fs)
  | Raise _ =>
      Return ({| r_status := 302; r_headers := []; r_mimetype := None;
                 r_body := RedirectTo (Url "/") |}, fs)
  | OutOfFuel => OutOfFuel
  end.

Section handle.
Variable b64encode : string → string.
Variable b64decode : string → option string.
Variable get_valid_filename : string → string.
Variable guess_type : string → option string.
Variable os : os_env.
Variable cfg : config.
Variable req : request.

(** [list_dir(dirname)]: [(dirs, files)] *)
Definition list_dir (dirname : string) : result (list string * list string) :=
  names ← os_listdir os dirname;
  Return
    (fold_left
       (fun '(dirs, files) n =>
          if PyStr.startswith n "." then (dirs, files)
          else
            match os_stat os (posixpath.join dirname n) with
            | StatOk sr =>
                if negb (st_uid sr =? os_geteuid os) then (dirs, files)
                else
                  let dirs := if S_ISDIR (st_mode sr) then dirs ++ [n] else dirs in
                  let files := if S_ISREG (st_mode sr) then files ++ [n] else files in
                  (dirs, files)
            | _ => (dirs, files)
            end)
       names ([], [])).

(** [l.remove(x)] for an [x] that is in [l] *)
Fixpoint list_remove (x : string) (l : list string) : list string :=
  match l with
  | [] => []
  | y :: l' => if String.eqb x y then l' else y :: list_remove x l'
  end.

(** The three-way [or] of access checks used for directories. *)
Definition may_enter (fuel : nat) (user dirname : string) : result bool :=
  a ← has_access cfg fuel user dirname LIST;
  if a : bool then Return true
  else
    b ← has_access cfg fuel user dirname UPLOAD;
    if b : bool then Return true
    else has_access cfg fuel user dirname MKDIR.

(** The loop of [filter_file_list] over the copy [subdirs[:]]. *)
Fixpoint filter_subdirs (fuel : nat) (user dirname : string)
    (copy subdirs : list string) : result (list string) :=
  match copy with
  | [] => Return subdirs
  | d :: copy' =>
      let path := posixpath.join dirname d in
      ok ← may_enter fuel user path;
      filter_subdirs fuel user dirname copy'
        (if ok : bool then subdirs else list_remove d subdirs)
  end.

(** [filter_file_list(user, dirname, subdirs, files)]: the two lists
    as the call leaves them. *)
Definition filter_file_list (fuel : nat) (user dirname : string)
    (subdirs files : list string) : result (list string * list string) :=
  let files := merge_sort String.le files in
  let subdirs := merge_sort String.le subdirs in
  l ← has_access cfg fuel user dirname LIST;
  let files := if l : bool then files else [] in
  subdirs ← filter_subdirs fuel user dirname subdirs subdirs;
  Return (subdirs, files).

(** [mk_prefix()] *)
Definition mk_prefix : string :=
  "http" +:+ (if is_secure req then "s" else "") +:+ "://" +:+ host req +:+ "/".

(** Python truthiness of [fname] *)
Definition fname_truthy (fname : option string) : bool :=
  match fname with
  | Some f => PyStr.truthy f
  | None => false
  end.

(** [resp.set_cookie("cred", cred)] *)
Definition set_cookie (cred : string) (r : response) : response :=
  add_header "Set-Cookie" ("cred=" +:+ cred) r.

(** [handle(path)], before the decorator: the response and the file
    system after the request. *)
Definition handle (fuel : nat) (fs : filesystem) (path : string)
    : result (response * filesystem) :=
  '(user, password, cred) ← get_user b64encode b64decode cfg req;
  '(fullname, dirname, fname) ← normalize_path (os_getcwd os) (os_stat os) cfg path;
  let action := form_action req in
  '(resp, fs) ←
    (if bool_decide (fname = None)
        && (bool_decide (action = None) || bool_decide (action = Some "list")) then
       ok ← may_enter fuel user dirname;
       if negb ok then Raise (AccessError 401 "forbidden")
       else
         '(subdirs, files) ← list_dir fullname;
         '(subdirs, files) ← filter_file_list fuel user dirname subdirs files;
         let status := form_status req in
         allow_upload ← has_access cfg fuel user dirname UPLOAD;
         allow_delete ← has_access cfg fuel user dirname DELETE;
         allow_fetch ← has_access cfg fuel user dirname FETCH;
         allow_mkdir ← has_access cfg fuel user dirname MKDIR;
         Return
           ({| r_status := 200; r_headers := []; r_mimetype := None;
               r_body := Template
                 {| l_dirname := dirname;
                    l_parentdir :=
                      if negb (PyStr.truthy dirname) then None
                      else Some (fst (posixpath.split dirname));
                    l_prefix := mk_prefix;
                    l_files := map (fun f => (f, posixpath.join dirname f)) files;
                    l_subdirs := map (fun s => (s, posixpath.join dirname s)) subdirs;
                    l_status := status;
                    allow_upload := allow_upload;
                    allow_delete := allow_delete;
                    allow_fetch := allow_fetch;
                    allow_mkdir := allow_mkdir;
                    l_user := user |} |}, fs)
     else if bool_decide (fname = None) && bool_decide (action = Some "upload") then
       ok ← has_access cfg fuel user dirname UPLOAD;
       if ok : bool then upload_file get_valid_filename cfg req fs user dirname
       else forbidden
     else if fname_truthy fname && bool_decide (action = Some "delete") then
       ok ← has_access cfg fuel user dirname DELETE;
       if ok : bool then delete_file cfg fs user dirname (default "" fname)
       else forbidden
     else if bool_decide (fname = None) && bool_decide (action = Some "mkdir") then
       ok ← has_access cfg fuel user dirname MKDIR;
       if ok : bool then make_dir get_valid_filename cfg req fs user dirname
       else forbidden
     else if fname_truthy fname && bool_decide (action = None) then
       ok ← has_access cfg fuel user dirname FETCH;
       if ok : bool then
         resp ← streamfile guess_type req fs fullname;
         Return (resp, fs)
       else forbidden
     else Raise UnboundLocalError);
  Return (set_cookie cred resp, fs).

(** [handle] under [@redirect_on_exception]. *)
Definition handle_decorated (fuel : nat) (fs : filesystem) (path : string)
    : result (response * filesystem) :=
  redirect_on_exception fs (handle fuel fs path).

End handle.

(** ** Directories and their ancestors *)

(** The segments of a directory name, none for the root [""]. *)
Definition segments (d : string) : list string :=
  if PyStr.truthy d then PyStr.split_chr posixpath.sep_chr d else [].

(** A directory name is normalized when it is the root [""] or is made
    of non-empty segments with one separator between two of them: it
    has no separator at either end and none doubled. *)
Definition normalized (d : string) : bool := forallb PyStr.truthy (segments d).

(** [c in s] *)
Fixpoint contains_chr (c : ascii) (s : string) : bool :=
  match s with
  | EmptyString => false
  | String a s' => PyStr.chr_eqb a c || contains_chr c s'
  end.

(** A path segment: not empty, and without a separator. *)
Definition is_segment (s : string) : bool :=
  PyStr.truthy s && negb (contains_chr posixpath.sep_chr s).

(** The prefixes of a list, shortest first. *)
Fixpoint inits (l : list string) : list (list string) :=
  match l with
  | [] => [[]]
  | x :: l' => [] :: map (cons x) (inits l')
  end.

(** A directory and the directories above it, nearest first, up to the
    root [""]. *)
Definition ancestors (d : string) : list string :=
  rev (map (String.concat posixpath.sep) (inits (segments d))).

(** The nearest ancestor of [d], [d] included, that is registered. *)
Definition nearest_registered_ancestor (cfg : config) (d : string) : option string :=
  List.find (fun a => bool_decide (a ∈ all_dirs cfg)) (ancestors d).

(** [P] is in the grant set of directory [D] for action [A]:
    [compute_permissions] records the grant by appending [D] to
    [user_perms[P][A]]. *)
Definition granted (cfg : config) (P D : string) (A : Access) : bool :=
  match user_perms cfg !! P with
  | Some perms =>
      match action_dirs perms !! A with
      | Some dirs => bool_decide (D ∈ dirs)
      | None => false
      end
  | None => false
  end.

(** ** Counting chunks *)

(** The least number of chunks of [c] bytes that hold [n] bytes. *)
Definition ceil_div (n c : Z) : Z := (n + c - 1) / c.

(** The number of bytes asked of [f.read] over a run of the generator. *)
Definition total_requested (ys : list yielded) : Z :=
  fold_right Z.add 0 (map y_size ys).

(** A string of decimal digits. *)
Fixpoint all_digits (s : string) : bool :=
  match s with
  | EmptyString => true
  | String a s' => PyStr.is_digit a && all_digits s'
  end.

(** ** Instances for the examples *)

(** A root [/data/a] next to a directory [/data/ab] that exists. *)
Definition cfg_data_a : config :=
  {| basedir := "/data/a"; chunksize := 4096;
     user_perms := initial_user_perms; all_dirs := [] |}.

Definition a_directory : stat_result := {| st_mode := 0x41ED; st_uid := 1000 |}.

Definition stat_sibling (name : string) : stat_outcome :=
  if String.eqb name "/data/a" || String.eqb name "/data/ab" then StatOk a_directory
  else StatFileNotFoundError.


(** A policy with two users besides the anonymous one. [alice] may
    list, fetch and upload under [pub]; [bob] is known and has no grant;
    [pub] and [pub/private] are registered. *)
Definition alice_perm : user_perm :=
  {| creds := Some "secret";
     action_dirs :=
       <[LIST := ["pub"]]> (<[FETCH := ["pub"]]> (<[UPLOAD := ["pub"]]> init_actions)) |}.

Definition bob_perm : user_perm :=
  {| creds := Some "pw"; action_dirs := init_actions |}.

Definition cfg_demo : config :=
  {| basedir := "/data/a"; chunksize := 64;
     user_perms := <["alice" := alice_perm]> (<["bob" := bob_perm]> initial_user_perms);
     all_dirs := ["pub"; "pub/private"] |}.

(** A request that carries no credentials and asks for nothing special. *)
Definition no_credentials : request :=
  {| form_user := None; form_password := None; authorization := None;
     cookie_cred := None; form_action := None; form_status := None;
     form_dirname := None; upload := None; range_header := None;
     is_secure := false; host := "files.example" |}.

(** The same request with the form keys of [bob], whose password is
    right. *)
Definition bob_credentials : request :=
  {| form_user := Some "bob"; form_password := Some "pw"; authorization := None;
     cookie_cred := None; form_action := None; form_status := None;
     form_dirname := None; upload := None; range_header := None;
     is_secure := false; host := "files.example" |}.

(** Stand-ins for the base64 codec in the examples: the text itself. *)
Definition plain_encode (s : string) : string := s.
Definition plain_decode (s : string) : option string := Some s.

(** A file of a thousand bytes under the root of [cfg_demo], and a
    second file that the server may write and may not read. *)
Definition fs_demo : filesystem :=
  <["/data/a/pub/x.bin" := {| n_isdir := false; n_data := repeat Byte.x2a 1000;
                              n_readable := true; n_writable := true |}]>
  (<["/data/a/pub/notes.txt" := {| n_isdir := false; n_data := [Byte.x31; Byte.x32; Byte.x33];
                                   n_readable := false; n_writable := true |}]> ∅).

(** A request for a file with a [Range] header. *)
Definition range_request (header : string) : request :=
  {| form_user := None; form_password := None; authorization := None;
     cookie_cred := None; form_action := None; form_status := None;
     form_dirname := None; upload := None; range_header := Some header;
     is_secure := false; host := "files.example" |}.

(** A stand-in for [mimetypes.guess_type] that knows no type. *)
Definition no_guess (f : string) : option string := None.

(** A stand-in for [get_valid_filename] in the examples, whose file
    names are valid as they are and so are returned unchanged. *)
Definition keep_name (s : string) : string := s.

(** An upload by [alice] of one byte under the name [notes.txt]. *)
Definition upload_notes : request :=
  {| form_user := Some "alice"; form_password := Some "secret"; authorization := None;
     cookie_cred := None; form_action := Some "upload"; form_status := None;
     form_dirname := None; upload := Some ("notes.txt", [Byte.x39]);
     range_header := None; is_secure := false; host := "files.example" |}.

(** The directories and files of the examples, all owned by the server. *)
Definition a_regular_file : stat_result := {| st_mode := 0x81A4; st_uid := 1000 |}.

Definition stat_demo (name : string) : stat_outcome :=
  if String.eqb name "/data/a" || String.eqb name "/data/a/pub" then StatOk a_directory
  else if String.eqb name "/data/a/pub/x.bin" || String.eqb name "/data/a/pub/notes.txt"
       then StatOk a_regular_file
       else StatFileNotFoundError.

Definition os_demo : os_env :=
  {| os_getcwd := "/"; os_geteuid := 1000; os_stat := stat_demo;
     os_listdir := fun _ => Return [] |}.

(** [alice] asks for a file with a [Range] header. *)
Definition alice_range_request (header : string) : request :=
  {| form_user := Some "alice"; form_password := Some "secret"; authorization := None;
     cookie_cred := None; form_action := None; form_status := None;
     form_dirname := None; upload := None; range_header := Some header;
     is_secure := false; host := "files.example" |}.

(** * The rest of the server *)

(** ** The FTP adapter's path and access checks *)

(** [MyFilesystem.strip_path(path)] *)
Definition strip_path (cfg : config) (path : string) : string :=
  let path :=
    if PyStr.startswith path (basedir cfg)
    then PyStr.slice_from (String.length (basedir cfg)) path
    else path in
  PyStr.lstrip posixpath.sep_chr path.

(** [MyFilesystem.has_access(path, access_list)] for the session's
    [user]; a single [Access] is the list of that one access. *)
Definition MyFilesystem_has_access (cfg : config) (fuel : nat) (user path : string)
    (access_list : list Access) : result bool :=
  let path := strip_path cfg path in
  ftp_has_access cfg fuel user path access_list.

(** Whether an outcome is the value [True]. *)
Definition returns_true (r : result bool) : bool :=
  match r with
  | Return true => true
  | _ => false
  end.

(** ** Notions used to state the further properties *)

(** What follows the first segment in a join of segments. *)
Definition joined_tail (rest : list string) : string :=
  match rest with
  | [] => ""
  | _ => posixpath.sep +:+ String.concat posixpath.sep rest
  end.



(** The path that [upload_file] saves to: the sanitized base name of the
    uploaded file, under [directory], under the root. *)
Definition upload_target (gvf : string → string) (cfg : config)
    (directory filename : string) : string :=
  posixpath.join (basedir cfg) (posixpath.join directory (gvf (basename filename))).

(** The path that [delete_file] removes and that [make_dir] creates for
    the name [leaf] under [dirname]. *)
Definition target_under (cfg : config) (dirname leaf : string) : string :=
  posixpath.join (basedir cfg) (posixpath.join dirname leaf).

(** A request of [alice] to delete, and one to make the directory [new]. *)
Definition delete_request : request :=
  {| form_user := Some "alice"; form_password := Some "secret"; authorization := None;
     cookie_cred := None; form_action := Some "delete"; form_status := None;
     form_dirname := None; upload := None; range_header := None;
     is_secure := false; host := "files.example" |}.


(** An upload by [alice] of three bytes under a name that is free. *)
Definition upload_fresh : request :=
  {| form_user := Some "alice"; form_password := Some "secret"; authorization := None;
     cookie_cred := None; form_action := Some "upload"; form_status := None;
     form_dirname := None;
     upload := Some ("C:/docs/report.txt", [Byte.x61; Byte.x62; Byte.x63]);
     range_header := None; is_secure := false; host := "files.example" |}.

(** ** Directory listings *)

(** Whether [list_dir] keeps the name [n] found in [dirname], as a
    directory ([as_dir]) or as a regular file: the name is not hidden,
    [os.stat] succeeds on it, the server's effective user owns it, and
    it has the type asked for. *)
Definition listed (os : os_env) (dirname : string) (as_dir : bool) (n : string) : bool :=
  negb (PyStr.startswith n ".")
  && match os_stat os (posixpath.join dirname n) with
     | StatOk sr =>
         (st_uid sr =? os_geteuid os)
         && (if as_dir then S_ISDIR (st_mode sr) else S_ISREG (st_mode sr))
     | _ => false
     end.

(** A directory with a hidden file, a file of another user, a name
    whose [stat] fails, a directory and a file. *)
Definition os_listing : os_env :=
  {| os_getcwd := "/"; os_geteuid := 1000;
     os_stat := fun name =>
       if String.eqb name "/data/a/pub/sub" then StatOk a_directory
       else if String.eqb name "/data/a/pub/x.bin" then StatOk a_regular_file
       else if String.eqb name "/data/a/pub/.hidden" then StatOk a_regular_file
       else if String.eqb name "/data/a/pub/foreign"
            then StatOk {| st_mode := 0x81A4; st_uid := 0 |}
       else StatFileNotFoundError;
     os_listdir := fun _ => Return ["x.bin"; ".hidden"; "gone"; "sub"; "foreign"] |}.

(** ** The policy, as [compute_permissions] builds it *)

(** [c.isspace()] for an 8-bit character *)
Definition py_isspace (a : ascii) : bool :=
  let n := nat_of_ascii a in
  ((9 <=? n) && (n <=? 13) || (28 <=? n) && (n <=? 32) || (n =? 133) || (n =? 160))%nat.

(** [s.lstrip()], [s.rstrip()] and [s.strip()], which take white space
    off; written like their one-character versions. *)
Fixpoint lstrip_space (s : string) : string :=
  match s with
  | EmptyString => EmptyString
  | String a s' => if py_isspace a then lstrip_space s' else s
  end.

Fixpoint rstrip_space (s : string) : string :=
  match s with
  | EmptyString => EmptyString
  | String a s' =>
      match rstrip_space s' with
      | EmptyString => if py_isspace a then EmptyString else String a EmptyString
      | r => String a r
      end
  end.

Definition strip_space (s : string) : string := rstrip_space (lstrip_space s).

(** The configuration as [ConfigParser] presents it after [read]: the
    sections in the order of the file, each with the options that [get]
    finds in it and their values after interpolation. *)
Abbreviation ini := (list (string * list (string * string))).

(** [config.sections()] *)
Definition ini_sections (conf : ini) : list string := map fst conf.

(** The options of a section, if the section is there. *)
Fixpoint ini_section (conf : ini) (section : string) : option (list (string * string)) :=
  match conf with
  | [] => None
  | (name, options) :: rest =>
      if String.eqb name section then Some options else ini_section rest section
  end.

Fixpoint assoc (options : list (string * string)) (opt : string) : option string :=
  match options with
  | [] => None
  | (name, value) :: rest =>
      if String.eqb name opt then Some value else assoc rest opt
  end.

(** [config.has_section(section)] *)
Definition has_section (conf : ini) (section : string) : bool :=
  match ini_section conf section with Some _ => true | None => false end.

(** [config.get(section, option)]; [None] when it raises
    [NoSectionError] or [NoOptionError]. *)
Definition ini_get (conf : ini) (section opt : string) : option string :=
  options ← ini_section conf section;
  assoc options opt.

(** [config.has_option(section, option)] *)
Definition has_option (conf : ini) (section opt : string) : bool :=
  match ini_get conf section opt with Some _ => true | None => false end.

(** The body of [get_list], on the value that [conf.get] returned. *)
Definition get_list_value (value : string) : list string :=
  let value := strip_space value in
  if PyStr.truthy value then map strip_space (PyStr.split_chr ","%char value) else [].

(** [config.getlist(section, option)], that is [get_list] of
    [load_config] bound to the parser. *)
Definition getlist (conf : ini) (section opt : string) : option (list string) :=
  get_list_value <$> ini_get conf section opt.

(** The loop of [get_all_user] over the group sections. *)
Fixpoint group_users (conf : ini) (group_sections : list string) (result : gset string)
    : option (gset string) :=
  match group_sections with
  | [] => Some result
  | gs :: rest =>
      if negb (has_section conf gs) then group_users conf rest result
      else
        users ← getlist conf gs "user";
        group_users conf rest (result ∪ list_to_set users)
  end.

(** [get_all_user(config, section, access)]; [None] when [getlist]
    raises for a group section without a [user] option. *)
Definition get_all_user (conf : ini) (section : string) (access : Access)
    : option (gset string) :=
  let result : gset string := ∅ in
  let g_access := Access_value access +:+ "_groups" in
  let u_access := Access_value access +:+ "_user" in
  groups ← (if has_option conf section g_access then getlist conf section g_access
            else Some []);
  let group_sections := map (fun s => "group:" +:+ s) groups in
  result ← group_users conf group_sections result;
  if has_option conf section u_access then
    users ← getlist conf section u_access;
    Some (result ∪ list_to_set users)
  else Some result.

(** [mk_creds(config, section)]; [dec] is [base64.b64decode] followed by
    [decode("utf8")]. *)
Definition mk_creds (dec : string → option string) (conf : ini) (section : string)
    : option string :=
  if has_option conf section "password" then ini_get conf section "password"
  else
    b64 ← ini_get conf section "b64_password";
    dec b64.

(** The first loop of [compute_permissions], over the user sections. *)
Fixpoint add_users (dec : string → option string) (conf : ini) (sections : list string)
    (user_perms : gmap string user_perm) : option (gmap string user_perm) :=
  match sections with
  | [] => Some user_perms
  | section :: rest =>
      if PyStr.startswith section "user:" then
        let user := PyStr.slice_from 5 section in
        creds ← mk_creds dec conf section;
        add_users dec conf rest
          (<[user := {| creds := Some creds; action_dirs := init_actions |}]> user_perms)
      else add_users dec conf rest user_perms
  end.

(** [user_perms[user][access].append(dir_name)] on the dict of a user *)
Definition append_dir (access : Access) (dir_name : string) (perms : user_perm)
    : user_perm :=
  {| creds := creds perms;
     action_dirs := alter (fun dirs => dirs ++ [dir_name]) access (action_dirs perms) |}.

(** One round of the innermost loop of [compute_permissions]. *)
Definition grant (dir_name : string) (access : Access)
    (user_perms : gmap string user_perm) (user : string) : gmap string user_perm :=
  match user_perms !! user with
  | None => user_perms
  | Some perms => <[user := append_dir access dir_name perms]> user_perms
  end.

(** The loop over [Access] for one directory section. *)
Fixpoint grant_accesses (conf : ini) (section dir_name : string) (accesses : list Access)
    (user_perms : gmap string user_perm) : option (gmap string user_perm) :=
  match accesses with
  | [] => Some user_perms
  | access :: rest =>
      all_user ← get_all_user conf section access;
      grant_accesses conf section dir_name rest
        (foldl (grant dir_name access) user_perms (elements all_user))
  end.

(** The second loop of [compute_permissions], over the directory
    sections. *)
Fixpoint add_dirs (conf : ini) (sections : list string)
    (user_perms : gmap string user_perm) (all_dirs : gset string)
    : option (gmap string user_perm * gset string) :=
  match sections with
  | [] => Some (user_perms, all_dirs)
  | section :: rest =>
      if PyStr.startswith section "dir:" then
        let dir_name := PyStr.slice_from 4 section in
        let all_dirs := all_dirs ∪ {[dir_name]} in
        user_perms ← grant_accesses conf section dir_name all_Access user_perms;
        add_dirs conf rest user_perms all_dirs
      else add_dirs conf rest user_perms all_dirs
  end.

(** [compute_permissions(config)]: the values it stores in
    [config.user_perms] and [config.all_dirs]; [None] when it raises. *)
Definition compute_permissions (dec : string → option string) (conf : ini)
    : option (gmap string user_perm * list string) :=
  let user_perms := initial_user_perms in
  user_perms ← add_users dec conf (ini_sections conf) user_perms;
  '(user_perms, all_dirs) ← add_dirs conf (ini_sections conf) user_perms ∅;
  Some (user_perms, merge_sort String.le (elements all_dirs)).

(** A configuration file with two users, a group and two directories;
    it names a group and a user that have no section. *)
Definition conf_demo : ini :=
  [ ("global", [("basedir", "/data/a"); ("chunksize", "64")]);
    ("user:alice", [("password", "secret")]);
    ("user:bob", [("b64_password", "pw")]);
    ("group:staff", [("user", " alice ")]);
    ("dir:pub", [("list_user", "alice"); ("read_groups", "staff, nobody");
                 ("write_user", "alice, carol")]);
    ("dir:pub/private", [("list_user", "")]) ].

(** [perms] is [perms0] with the same credentials and, in the list of
    each action [A], the directories [D] with [G A D] added. *)
Definition perm_extends (G : Access → string → Prop) (perms0 perms : user_perm) : Prop :=
  creds perms = creds perms0
  ∧ ∀ A l0, action_dirs perms0 !! A = Some l0 →
      ∃ l, action_dirs perms !! A = Some l ∧ ∀ D, D ∈ l ↔ D ∈ l0 ∨ G A D.

(** [up] has the users of [up0], each extended by the grants [G]. *)
Definition perms_extend (G : string → Access → string → Prop)
    (up0 up : gmap string user_perm) : Prop :=
  ∀ u, match up0 !! u with
       | None => up !! u = None
       | Some perms0 => ∃ perms, up !! u = Some perms ∧ perm_extends (G u) perms0 perms
       end.

(** ** The certificate challenge store *)

(** [Response(text, code, mimetype="text/plain")] *)
Definition plain_response (text : string) (code : Z) : response :=
  {| r_status := code; r_headers := []; r_mimetype := Some "text/plain";
     r_body := Text text |}.

(** [serve_letsencrypt(token)]; [letsencrypt_data] is the module's dict. *)
Definition serve_letsencrypt (letsencrypt_data : gmap string string) (token : string)
    : response :=
  match letsencrypt_data !! token with
  | Some value => plain_response value 200
  | None => plain_response "permission denied" 403
  end.

(** [upload_letsencrypt(token, thumb)] *)
Definition upload_letsencrypt (letsencrypt_data : gmap string string)
    (token thumb : string) : response * gmap string string :=
  (plain_response "ok" 200, <[token := token +:+ "." +:+ thumb]> letsencrypt_data).

(** The store after a sequence of upload requests, each a token and a
    thumbprint. *)
Definition letsencrypt_uploads (letsencrypt_data : gmap string string)
    (requests : list (string * string)) : gmap string string :=
  fold_left (fun data '(token, thumb) => snd (upload_letsencrypt data token thumb))
    requests letsencrypt_data.

(** [cfg_demo] with a chunk size of zero. *)
Definition cfg_zero_chunk : config :=
  {| basedir := basedir cfg_demo; chunksize := 0;
     user_perms := user_perms cfg_demo; all_dirs := all_dirs cfg_demo |}.

(** * Properties *)

Example normpath_dotdot : posixpath.normpath "/data/a/../ab" = "/data/ab".
Proof. reflexivity. Qed.

Example normpath_slashes : posixpath.normpath "//x//./y/" = "//x/y".
Proof. reflexivity. Qed.

Example split_two : posixpath.split "a/b" = ("a", "b").
Proof. reflexivity. Qed.

Example split_one : posixpath.split "a" = ("", "a").
Proof. reflexivity. Qed.

Example split_slashes : posixpath.split "//" = ("//", "").
Proof. reflexivity. Qed.

Example str_of_int_neg : PyStr.str_of_int (-15) = "-15".
Proof. reflexivity. Qed.

Example str_of_int_zero : PyStr.str_of_int 0 = "0".
Proof. reflexivity. Qed.


(** ** Strings *)

Lemma append_cons (a : ascii) (s t : string) :
  String a s +:+ t = String a (s +:+ t).
Proof. reflexivity. Qed.

Lemma append_empty_l (t : string) : "" +:+ t = t.
Proof. reflexivity. Qed.

Lemma append_empty_r (s : string) : s +:+ "" = s.
Proof.
  induction s as [|a s IH]; [reflexivity|].
  rewrite append_cons, IH. reflexivity.
Qed.

Lemma append_assoc (s t u : string) : (s +:+ t) +:+ u = s +:+ t +:+ u.
Proof.
  induction s as [|a s IH]; [reflexivity|].
  rewrite !append_cons, IH. reflexivity.
Qed.

Lemma chr_eqb_true (a b : ascii) : PyStr.chr_eqb a b = true ↔ a = b.
Proof. apply Ascii.eqb_eq. Qed.

Lemma chr_eqb_false (a b : ascii) : PyStr.chr_eqb a b = false ↔ a ≠ b.
Proof. apply Ascii.eqb_neq. Qed.

(** [startswith] decides the prefix relation. *)
Lemma startswith_spec (s p : string) :
  PyStr.startswith s p = true ↔ ∃ rest, s = p +:+ rest.
Proof.
  revert s. induction p as [|a p IH]; intros s; simpl.
  - split; [intros _; exists s; reflexivity | reflexivity].
  - destruct s as [|b s].
    + split; [discriminate | intros [rest H]; discriminate].
    + rewrite andb_true_iff, chr_eqb_true, IH. split.
      * intros [-> [rest ->]]. exists rest. reflexivity.
      * intros [rest H]. rewrite append_cons in H. injection H as -> ->.
        split; [reflexivity | exists rest; reflexivity].
Qed.

(** ** Path resolution *)

Lemma normalize_path_raises_forbidden cwd stat cfg path e :
  normalize_path cwd stat cfg path = Raise e → e = AccessError 403 "forbidden".
Proof.
  unfold normalize_path, forbidden.
  repeat match goal with
         | |- context [if ?b then _ else _] => destruct b
         | |- context [match ?x with _ => _ end] => destruct x
         end; congruence.
Qed.



(** C4. When [os.stat] fails on the resolved path, for a missing target
    or for any other reason, [normalize_path] raises the one exception
    that each of its denials raises; the caller is told nothing else. *)
Theorem normalize_path_stat_failure cwd stat cfg path :
  stat (resolved_name cwd cfg path) = StatFileNotFoundError
  ∨ stat (resolved_name cwd cfg path) = StatException →
  normalize_path cwd stat cfg path = Raise (AccessError 403 "forbidden")
  ∧ ∀ cwd' stat' cfg' path' e,
      normalize_path cwd' stat' cfg' path' = Raise e →
      Raise e = normalize_path cwd stat cfg path.
Proof.
  intros Hstat.
  assert (Hfail : normalize_path cwd stat cfg path = Raise (AccessError 403 "forbidden")).
  { unfold normalize_path. fold (resolved_name cwd cfg path).
    destruct (_ && _); [reflexivity|].
    destruct Hstat as [-> | ->]; reflexivity. }
  split; [exact Hfail|].
  intros cwd' stat' cfg' path' e He.
  apply normalize_path_raises_forbidden in He. rewrite Hfail, He. reflexivity.
Qed.

Lemma normalize_path_missing_target :
  normalize_path "/" stat_sibling cfg_data_a "missing.txt"
  = Raise (AccessError 403 "forbidden").
Proof.
  apply (normalize_path_stat_failure "/" stat_sibling cfg_data_a "missing.txt").
  left. reflexivity.
Defined.

(** ** [posixpath.split] on joined segments *)

Section split_lemmas.
Import PyStr.

Lemma length_append (s t : string) :
  String.length (s +:+ t) = (String.length s + String.length t)%nat.
Proof.
  induction s as [|a s IH]; [reflexivity|].
  rewrite append_cons. simpl. rewrite IH. reflexivity.
Qed.

Lemma rfind_from_append c i found (s t : string) :
  rfind_from c i found (s +:+ t)
  = rfind_from c (i + Z.of_nat (String.length s)) (rfind_from c i found s) t.
Proof.
  revert i found. induction s as [|a s IH]; intros i found.
  - simpl. rewrite append_empty_l. f_equal. lia.
  - rewrite append_cons. simpl rfind_from. rewrite IH. f_equal.
    simpl String.length. lia.
Qed.

Lemma rfind_from_absent c i found (s : string) :
  contains_chr c s = false → rfind_from c i found s = found.
Proof.
  revert i found. induction s as [|a s IH]; intros i found H; [reflexivity|].
  simpl in H. apply orb_false_iff in H as [Ha Hs].
  simpl. rewrite Ha. apply IH, Hs.
Qed.

Lemma slice_to_append (s t : string) : slice_to (String.length s) (s +:+ t) = s.
Proof.
  induction s as [|a s IH]; [reflexivity|].
  rewrite append_cons. simpl. rewrite IH. reflexivity.
Qed.

Lemma slice_from_append (s t : string) : slice_from (String.length s) (s +:+ t) = t.
Proof.
  induction s as [|a s IH]; [reflexivity|].
  rewrite append_cons. simpl. exact IH.
Qed.

Lemma rstrip_repeat c n : rstrip c (repeat_chr c n) = "".
Proof.
  induction n as [|n IH]; [reflexivity|].
  simpl. rewrite IH. unfold chr_eqb. rewrite Ascii.eqb_refl. reflexivity.
Qed.

(** Appending to a string that [rstrip] leaves non-empty. *)
Lemma rstrip_append_kept c (s t : string) :
  rstrip c t ≠ "" → rstrip c (s +:+ t) = s +:+ rstrip c t.
Proof.
  intros Ht. induction s as [|a s IH]; [reflexivity|].
  rewrite !append_cons. simpl. rewrite IH.
  destruct (s +:+ rstrip c t) eqn:E; [|reflexivity].
  destruct s; [rewrite append_empty_l in E; contradiction | discriminate].
Qed.

Lemma rstrip_append_sep c (s : string) :
  rstrip c (s +:+ String c "") = rstrip c s.
Proof.
  induction s as [|a s IH].
  - simpl. unfold chr_eqb. rewrite Ascii.eqb_refl. reflexivity.
  - rewrite append_cons. simpl. rewrite IH. reflexivity.
Qed.

Lemma rstrip_absent c (s : string) : contains_chr c s = false → rstrip c s = s.
Proof.
  induction s as [|a s IH]; intros H; [reflexivity|].
  simpl in H. apply orb_false_iff in H as [Ha Hs].
  simpl. rewrite (IH Hs), Ha. destruct s; reflexivity.
Qed.

Lemma is_segment_inv (s : string) :
  is_segment s = true → s ≠ "" ∧ contains_chr posixpath.sep_chr s = false.
Proof.
  unfold is_segment. rewrite andb_true_iff, negb_true_iff.
  intros [Ht Hc]. split; [|exact Hc]. intros ->. discriminate.
Qed.

(** A non-empty join of segments is kept whole by [rstrip]. *)
Lemma rstrip_concat_segments (segs : list string) :
  Forall (fun s => is_segment s = true) segs → segs ≠ [] →
  rstrip posixpath.sep_chr (String.concat posixpath.sep segs)
  = String.concat posixpath.sep segs
  ∧ String.concat posixpath.sep segs ≠ "".
Proof.
  induction 1 as [|s segs Hs Hsegs IH]; [congruence|]. intros _.
  apply is_segment_inv in Hs as [Hne Hc].
  destruct segs as [|s' segs].
  - simpl. split; [apply rstrip_absent, Hc | exact Hne].
  - destruct IH as [IH1 IH2]; [congruence|].
    change (String.concat posixpath.sep (s :: s' :: segs))
      with (s +:+ posixpath.sep +:+ String.concat posixpath.sep (s' :: segs)).
    rewrite <- append_assoc. split.
    + rewrite rstrip_append_kept; rewrite IH1; [reflexivity | exact IH2].
    + destruct s; [congruence | discriminate].
Qed.

(** [split] cuts at the last separator. *)
Lemma split_last_sep (h s : string) :
  contains_chr posixpath.sep_chr s = false →
  posixpath.split (h +:+ posixpath.sep +:+ s)
  = (if truthy (h +:+ posixpath.sep)
        && negb (String.eqb (h +:+ posixpath.sep)
                   (repeat_chr posixpath.sep_chr (String.length (h +:+ posixpath.sep))))
     then rstrip posixpath.sep_chr (h +:+ posixpath.sep)
     else h +:+ posixpath.sep, s).
Proof.
  intros Hs. unfold posixpath.split, rfind.
  rewrite <- append_assoc.
  rewrite rfind_from_append, (rfind_from_absent _ _ _ s Hs).
  rewrite rfind_from_append. simpl rfind_from.
  replace (Z.to_nat (0 + Z.of_nat (String.length h) + 1))
    with (String.length (h +:+ posixpath.sep))
    by (rewrite length_append; simpl; lia).
  rewrite slice_to_append, slice_from_append.
  destruct (truthy (h +:+ posixpath.sep) && _); reflexivity.
Qed.

(** [split] takes the last segment off a join. *)
Lemma split_head_tail (h s : string) :
  h ≠ "" → rstrip posixpath.sep_chr h = h →
  contains_chr posixpath.sep_chr s = false →
  posixpath.split (h +:+ posixpath.sep +:+ s) = (h, s).
Proof.
  intros Hne Hh Hs. rewrite split_last_sep by exact Hs.
  assert (Hstrip : rstrip posixpath.sep_chr (h +:+ posixpath.sep) = h)
    by (unfold posixpath.sep; rewrite rstrip_append_sep; exact Hh).
  destruct (String.eqb_spec (h +:+ posixpath.sep)
              (repeat_chr posixpath.sep_chr (String.length (h +:+ posixpath.sep))))
    as [Heq|_].
  - rewrite Heq, rstrip_repeat in Hstrip. congruence.
  - rewrite Hstrip. destruct h; [congruence | reflexivity].
Qed.

Lemma split_single (s : string) :
  contains_chr posixpath.sep_chr s = false → posixpath.split s = ("", s).
Proof.
  intros Hs. unfold posixpath.split, rfind.
  rewrite (rfind_from_absent _ _ _ s Hs). reflexivity.
Qed.

Lemma concat_snoc (segs : list string) (s : string) :
  segs ≠ [] →
  String.concat posixpath.sep (segs ++ [s])
  = String.concat posixpath.sep segs +:+ posixpath.sep +:+ s.
Proof.
  induction segs as [|x segs IH]; [congruence|]. intros _.
  destruct segs as [|y segs]; [reflexivity|].
  change (String.concat posixpath.sep ((x :: y :: segs) ++ [s]))
    with (x +:+ posixpath.sep +:+ String.concat posixpath.sep ((y :: segs) ++ [s])).
  rewrite IH by congruence.
  change (String.concat posixpath.sep (x :: y :: segs))
    with (x +:+ posixpath.sep +:+ String.concat posixpath.sep (y :: segs)).
  rewrite !append_assoc. reflexivity.
Qed.

(** The parent of a normalized directory is the join of all its
    segments but the last. *)
Lemma split_concat_snoc (segs : list string) (s : string) :
  Forall (fun s => is_segment s = true) segs → is_segment s = true →
  posixpath.split (String.concat posixpath.sep (segs ++ [s]))
  = (String.concat posixpath.sep segs, s).
Proof.
  intros Hsegs Hs. apply is_segment_inv in Hs as [_ Hc].
  destruct segs as [|x segs].
  - simpl. apply split_single, Hc.
  - rewrite concat_snoc by congruence.
    destruct (rstrip_concat_segments (x :: segs) Hsegs) as [H1 H2]; [congruence|].
    apply split_head_tail; assumption.
Qed.

End split_lemmas.

(** ** Segments of a normalized directory *)

Lemma split_chr_cons c (s : string) : ∃ h t, PyStr.split_chr c s = h :: t.
Proof.
  induction s as [|a s [h [t IH]]]; simpl; [eauto|].
  destruct (PyStr.chr_eqb a c); [eauto|]. rewrite IH. eauto.
Qed.

Lemma concat_cons_cons (x y : string) (l : list string) :
  String.concat posixpath.sep (x :: y :: l)
  = x +:+ posixpath.sep +:+ String.concat posixpath.sep (y :: l).
Proof. reflexivity. Qed.

(** Joining what [split] gave restores the string. *)
Lemma concat_split_chr (s : string) :
  String.concat posixpath.sep (PyStr.split_chr posixpath.sep_chr s) = s.
Proof.
  induction s as [|a s IH]; [reflexivity|]. simpl PyStr.split_chr.
  destruct (split_chr_cons posixpath.sep_chr s) as [h [t E]].
  rewrite E in IH |- *.
  destruct (PyStr.chr_eqb a posixpath.sep_chr) eqn:Ha.
  - apply chr_eqb_true in Ha as ->. rewrite concat_cons_cons, IH. reflexivity.
  - destruct t as [|y t].
    + simpl in IH |- *. rewrite IH. reflexivity.
    + rewrite concat_cons_cons in IH |- *. rewrite append_cons, IH. reflexivity.
Qed.

Lemma split_chr_absent c (s : string) :
  Forall (fun x => contains_chr c x = false) (PyStr.split_chr c s).
Proof.
  induction s as [|a s IH]; simpl.
  - constructor; [reflexivity | constructor].
  - destruct (PyStr.chr_eqb a c) eqn:Ha.
    + constructor; [reflexivity | exact IH].
    + destruct (PyStr.split_chr c s) as [|h t].
      * constructor; [simpl; rewrite Ha; reflexivity | constructor].
      * inversion IH as [|? ? Hh Ht]; subst.
        constructor; [simpl; rewrite Ha; exact Hh | exact Ht].
Qed.

Lemma concat_segments (d : string) : String.concat posixpath.sep (segments d) = d.
Proof.
  unfold segments. destruct d as [|a d]; [reflexivity|].
  simpl PyStr.truthy. cbv iota. apply concat_split_chr.
Qed.

Lemma normalized_segments (d : string) :
  normalized d = true → Forall (fun s => is_segment s = true) (segments d).
Proof.
  unfold normalized. intros H.
  assert (Hc : Forall (fun x => contains_chr posixpath.sep_chr x = false) (segments d)).
  { unfold segments. destruct (PyStr.truthy d); [apply split_chr_absent | constructor]. }
  induction Hc as [|x l Hx Hl IH]; [constructor|].
  simpl in H. apply andb_true_iff in H as [Ht Hrest].
  constructor; [|apply IH, Hrest].
  unfold is_segment. rewrite Ht, Hx. reflexivity.
Qed.

Lemma inits_snoc (l : list string) (x : string) :
  inits (l ++ [x]) = inits l ++ [l ++ [x]].
Proof.
  induction l as [|y l IH]; [reflexivity|].
  simpl. rewrite IH, map_app. reflexivity.
Qed.

Lemma length_inits (l : list string) : length (inits l) = S (length l).
Proof.
  induction l as [|y l IH]; [reflexivity|].
  simpl. rewrite length_map, IH. reflexivity.
Qed.

(** ** Access decisions *)

(** The loop of [has_access] visits the joins of the prefixes of the
    segments, longest first, and answers at the first registered one. *)
Lemma has_access_loop_segments cfg dirs (segs : list string) :
  Forall (fun s => is_segment s = true) segs →
  ∀ fuel, (length segs < fuel)%nat →
  has_access_loop cfg fuel dirs (String.concat posixpath.sep segs)
  = Return
      match List.find (fun a => bool_decide (a ∈ all_dirs cfg))
              (rev (map (String.concat posixpath.sep) (inits segs))) with
      | Some D => bool_decide (D ∈ dirs)
      | None => false
      end.
Proof.
  induction segs as [|s segs IH] using rev_ind; intros Hsegs fuel Hfuel.
  - destruct fuel as [|fuel]; [simpl in Hfuel; lia|].
    simpl. destruct (bool_decide ("" ∈ all_dirs cfg)); reflexivity.
  - apply Forall_app in Hsegs as [Hsegs Hs].
    inversion Hs as [|? ? Hseg _]; subst.
    rewrite length_app in Hfuel. simpl in Hfuel.
    destruct fuel as [|fuel]; [lia|].
    rewrite inits_snoc, map_app, rev_app_distr. simpl rev. simpl List.find.
    simpl has_access_loop.
    destruct (bool_decide (String.concat posixpath.sep (segs ++ [s]) ∈ all_dirs cfg));
      [reflexivity|].
    destruct (rstrip_concat_segments (segs ++ [s])) as [Hstrip Hne].
    { apply Forall_app. split; [exact Hsegs | exact Hs]. }
    { destruct segs; discriminate. }
    assert (Hlen : (String.length (String.concat posixpath.sep (segs ++ [s])) =? 0)%nat = false).
    { apply Nat.eqb_neq. destruct (String.concat posixpath.sep (segs ++ [s]));
        [congruence | discriminate]. }
    assert (Hroot : String.eqb (String.concat posixpath.sep (segs ++ [s])) posixpath.sep = false).
    { apply String.eqb_neq. intros E. rewrite E in Hstrip. discriminate. }
    rewrite Hlen, Hroot. simpl orb. cbv iota.
    rewrite split_concat_snoc by assumption.
    apply IH; [exact Hsegs | lia].
Qed.

Lemma has_access_loop_normalized cfg dirs (d : string) fuel :
  normalized d = true → (length (ancestors d) ≤ fuel)%nat →
  has_access_loop cfg fuel dirs d
  = Return
      match nearest_registered_ancestor cfg d with
      | Some D => bool_decide (D ∈ dirs)
      | None => false
      end.
Proof.
  intros Hnorm Hfuel. unfold nearest_registered_ancestor, ancestors in *.
  rewrite length_rev, length_map, length_inits in Hfuel.
  rewrite <- (concat_segments d) at 1.
  apply has_access_loop_segments; [apply normalized_segments, Hnorm | lia].
Qed.

Lemma ancestors_head (d : string) : ∃ rest, ancestors d = d :: rest.
Proof.
  unfold ancestors. pose proof (concat_segments d) as Hc.
  destruct (segments d) as [|s segs _] using rev_ind.
  - exists []. simpl in *. rewrite Hc. reflexivity.
  - rewrite inits_snoc, map_app, rev_app_distr. simpl.
    rewrite Hc. eauto.
Qed.

(** The ancestors of a directory are the root, the directory itself and
    what stands before one of its separators. *)
Lemma split_chr_append_sep (a rest : string) :
  PyStr.split_chr posixpath.sep_chr (a +:+ String posixpath.sep_chr rest)
  = PyStr.split_chr posixpath.sep_chr a ++ PyStr.split_chr posixpath.sep_chr rest.
Proof.
  induction a as [|x a IH]; [reflexivity|].
  rewrite append_cons. simpl PyStr.split_chr. rewrite IH.
  destruct (PyStr.chr_eqb x posixpath.sep_chr); [reflexivity|].
  destruct (split_chr_cons posixpath.sep_chr a) as [h [t ->]]. reflexivity.
Qed.

Lemma inits_prefix (l pre : list string) : In pre (inits l) ↔ ∃ post, l = pre ++ post.
Proof.
  revert pre. induction l as [|x l IH]; intros pre; simpl.
  - split.
    + intros [<- | []]. exists []. reflexivity.
    + intros [post H]. left. symmetry in H. apply app_eq_nil in H as [-> _]. reflexivity.
  - rewrite in_map_iff. split.
    + intros [<- | [pre' [<- Hin]]]; [exists (x :: l); reflexivity|].
      apply IH in Hin as [post ->]. exists post. reflexivity.
    + intros [post H]. destruct pre as [|y pre]; [left; reflexivity|].
      right. injection H as -> ->. exists pre. split; [reflexivity|].
      apply IH. exists post. reflexivity.
Qed.

Lemma concat_app_sep (pre post : list string) :
  pre ≠ [] → post ≠ [] →
  String.concat posixpath.sep (pre ++ post)
  = String.concat posixpath.sep pre +:+ posixpath.sep +:+ String.concat posixpath.sep post.
Proof.
  intros Hpre Hpost. induction pre as [|x pre IH]; [congruence|].
  destruct pre as [|y pre].
  - destruct post as [|z post]; [congruence | reflexivity].
  - change (String.concat posixpath.sep ((x :: y :: pre) ++ post))
      with (x +:+ posixpath.sep +:+ String.concat posixpath.sep ((y :: pre) ++ post)).
    rewrite IH by congruence. rewrite concat_cons_cons, !append_assoc. reflexivity.
Qed.

Lemma ancestors_spec (d a : string) :
  a ∈ ancestors d ↔ a = "" ∨ a = d ∨ ∃ rest, d = a +:+ posixpath.sep +:+ rest.
Proof.
  unfold ancestors. rewrite list_elem_of_In, <- in_rev, in_map_iff. split.
  - intros [pre [<- Hin]]. apply inits_prefix in Hin as [post Hsegs].
    pose proof (concat_segments d) as Hd. rewrite Hsegs in Hd.
    destruct pre as [|x pre]; [left; reflexivity|]. right.
    destruct post as [|y post].
    + left. rewrite app_nil_r in Hd. exact Hd.
    + right. exists (String.concat posixpath.sep (y :: post)).
      rewrite <- Hd. apply concat_app_sep; congruence.
  - intros [-> | [-> | [rest ->]]].
    + exists []. split; [reflexivity|]. apply inits_prefix. eexists. reflexivity.
    + exists (segments d). split; [apply concat_segments|].
      apply inits_prefix. exists []. symmetry. apply app_nil_r.
    + exists (PyStr.split_chr posixpath.sep_chr a). split; [apply concat_split_chr|].
      apply inits_prefix. exists (PyStr.split_chr posixpath.sep_chr rest).
      unfold segments.
      assert (Ht : PyStr.truthy (a +:+ posixpath.sep +:+ rest) = true)
        by (destruct a; reflexivity).
      rewrite Ht. apply split_chr_append_sep.
Qed.

(** Outside the normalized names the loop need not end: the parent of
    [//] is [//]. *)
Lemma has_access_loop_double_sep cfg dirs fuel :
  "//" ∉ all_dirs cfg → has_access_loop cfg fuel dirs "//" = OutOfFuel.
Proof.
  intros Hnot. induction fuel as [|fuel IH]; [reflexivity|].
  simpl. rewrite bool_decide_eq_false_2 by exact Hnot. exact IH.
Qed.

(** ** Termination of the loop of [has_access] *)

Lemma last_sep_decompose c (d : string) :
  contains_chr c d = true →
  ∃ h t, d = h +:+ String c t ∧ contains_chr c t = false.
Proof.
  induction d as [|a d IH]; [discriminate|]. simpl. intros H.
  destruct (contains_chr c d) eqn:Hd.
  - destruct (IH eq_refl) as [h [t [-> Ht]]].
    exists (String a h), t. split; [reflexivity | exact Ht].
  - rewrite orb_false_r in H. apply chr_eqb_true in H as ->.
    exists "", d. split; [reflexivity | exact Hd].
Qed.

Lemma rstrip_length c (s : string) :
  (String.length (PyStr.rstrip c s) ≤ String.length s)%nat.
Proof.
  induction s as [|a s IH]; [reflexivity|]. simpl.
  destruct (PyStr.rstrip c s) as [|b r].
  - destruct (PyStr.chr_eqb a c); simpl; lia.
  - simpl in *. lia.
Qed.

Lemma rstrip_keeps_head c a (s : string) :
  PyStr.chr_eqb a c = false → ∃ r, PyStr.rstrip c (String a s) = String a r.
Proof.
  intros Ha. simpl. rewrite Ha. destruct (PyStr.rstrip c s); eauto.
Qed.

Lemma startswith_sep_cons a (s : string) :
  PyStr.startswith (String a s) posixpath.sep = PyStr.chr_eqb a posixpath.sep_chr.
Proof.
  unfold posixpath.sep. cbn [PyStr.startswith]. rewrite andb_true_r.
  unfold PyStr.chr_eqb. apply Ascii.eqb_sym.
Qed.

(** The parent of a name without a leading separator is shorter, and has
    no leading separator either. *)
Lemma split_parent_shorter (d : string) :
  d ≠ "" → PyStr.startswith d posixpath.sep = false →
  (String.length (fst (posixpath.split d)) < String.length d)%nat
  ∧ PyStr.startswith (fst (posixpath.split d)) posixpath.sep = false.
Proof.
  intros Hne Hlead.
  destruct (contains_chr posixpath.sep_chr d) eqn:Hc.
  - destruct (last_sep_decompose _ _ Hc) as [h [t [-> Ht]]].
    destruct h as [|a h]; [discriminate Hlead|].
    assert (Ha : PyStr.chr_eqb a posixpath.sep_chr = false).
    { rewrite append_cons, startswith_sep_cons in Hlead. exact Hlead. }
    change (String a h +:+ String posixpath.sep_chr t)
      with (String a h +:+ posixpath.sep +:+ t).
    rewrite split_last_sep by exact Ht.
    assert (Hhead : String.eqb (String a h +:+ posixpath.sep)
                      (PyStr.repeat_chr posixpath.sep_chr
                         (String.length (String a h +:+ posixpath.sep))) = false).
    { apply String.eqb_neq. rewrite append_cons. simpl. intros E.
      injection E as E _. rewrite E in Ha. discriminate Ha. }
    assert (Htruthy : PyStr.truthy (String a h +:+ posixpath.sep) = true) by reflexivity.
    rewrite Hhead, Htruthy. cbn [andb negb fst].
    change posixpath.sep with (String posixpath.sep_chr ""). rewrite rstrip_append_sep.
    split.
    + pose proof (rstrip_length posixpath.sep_chr (String a h)) as Hlen.
      rewrite !length_append. cbn [String.length] in *. lia.
    + destruct (rstrip_keeps_head posixpath.sep_chr a h Ha) as [r ->].
      change (String posixpath.sep_chr "") with posixpath.sep.
      rewrite startswith_sep_cons. exact Ha.
  - rewrite (split_single d Hc). simpl. split; [|reflexivity].
    destruct d; [congruence | simpl; lia].
Qed.

(** For a directory name without a leading separator the loop ends
    within as many rounds as the name has characters, plus one. *)
Lemma has_access_loop_terminates cfg dirs fuel :
  ∀ d : string, PyStr.startswith d posixpath.sep = false →
  (String.length d < fuel)%nat →
  ∃ b, has_access_loop cfg fuel dirs d = Return b.
Proof.
  induction fuel as [|fuel IH]; intros d Hlead Hfuel; [lia|].
  simpl. destruct (bool_decide (d ∈ all_dirs cfg)); [eauto|].
  destruct (String.length d =? 0)%nat eqn:Hlen; [simpl; eauto|].
  destruct (String.eqb_spec d posixpath.sep) as [->|Hsep]; [discriminate Hlead|].
  simpl. destruct (split_parent_shorter d) as [Hshort Hlead'].
  - intros ->. discriminate Hlen.
  - exact Hlead.
  - destruct (posixpath.split d) as [parent tail]. simpl in *.
    apply IH; [exact Hlead' | lia].
Qed.

Lemma lstrip_relative (s : string) :
  PyStr.startswith (PyStr.lstrip posixpath.sep_chr s) posixpath.sep = false.
Proof.
  induction s as [|a s IH]; [reflexivity|]. cbn [PyStr.lstrip].
  destruct (PyStr.chr_eqb a posixpath.sep_chr) eqn:Ha; [exact IH|].
  rewrite startswith_sep_cons. exact Ha.
Qed.

Lemma rstrip_relative (s : string) :
  PyStr.startswith s posixpath.sep = false →
  PyStr.startswith (PyStr.rstrip posixpath.sep_chr s) posixpath.sep = false.
Proof.
  destruct s as [|a s]; [reflexivity|].
  rewrite startswith_sep_cons. intros Ha.
  destruct (rstrip_keeps_head posixpath.sep_chr a s Ha) as [r ->].
  rewrite startswith_sep_cons. exact Ha.
Qed.

(** The directory that [normalize_path] hands over has no leading
    separator, so the loop of [has_access] ends on it. *)
Lemma normalize_path_dirname_relative cwd stat cfg path name dirname fname :
  normalize_path cwd stat cfg path = Return (name, dirname, fname) →
  PyStr.startswith dirname posixpath.sep = false.
Proof.
  unfold normalize_path.
  set (rel := PyStr.strip posixpath.sep_chr _).
  assert (Hrel : PyStr.startswith rel posixpath.sep = false)
    by apply rstrip_relative, lstrip_relative.
  destruct (_ && _); [discriminate|].
  destruct (stat _) as [sr| |]; try discriminate.
  destruct (S_ISDIR (st_mode sr)); [intros [= _ <- _]; exact Hrel|].
  destruct (S_ISREG (st_mode sr)); [|discriminate].
  destruct (posixpath.split rel) as [parent tail] eqn:Hsplit.
  intros [= _ <- _].
  destruct rel as [|a rel'] eqn:E; [injection Hsplit as <- _; reflexivity|].
  destruct (split_parent_shorter (String a rel')) as [_ H]; [discriminate | exact Hrel |].
  rewrite Hsplit in H. exact H.
Qed.

Lemma has_access_never_out_of_fuel cwd stat cfg path name dirname fname user action fuel :
  normalize_path cwd stat cfg path = Return (name, dirname, fname) →
  (String.length dirname < fuel)%nat →
  has_access cfg fuel user dirname action ≠ OutOfFuel.
Proof.
  intros Hpath Hfuel. unfold has_access, forbidden.
  destruct (user_perms cfg !! user) as [perms|]; [|discriminate].
  destruct (action_dirs perms !! action) as [dirs|]; [|discriminate].
  destruct (has_access_loop_terminates cfg dirs fuel dirname) as [b ->];
    [eapply normalize_path_dirname_relative; exact Hpath | exact Hfuel | discriminate].
Qed.

(** C2. For a known principal [P], a known action [A] and a normalized
    directory [d], [has_access] returns, and what it returns is whether
    [P] is in the grant set of the nearest registered ancestor of [d]
    ([d] included) for [A]: so it returns true exactly when that ancestor
    exists and grants [A] to [P]; when [d] is registered the answer is
    the membership of [P] in the grant set of [d]; when no ancestor up to
    the root is registered the answer is false. *)
Theorem has_access_nearest_registered_ancestor cfg P A (d : string) perms dirs fuel :
  user_perms cfg !! P = Some perms →
  action_dirs perms !! A = Some dirs →
  normalized d = true →
  (length (ancestors d) ≤ fuel)%nat →
  has_access cfg fuel P d A
  = Return
      match nearest_registered_ancestor cfg d with
      | Some D => granted cfg P D A
      | None => false
      end
  ∧ (has_access cfg fuel P d A = Return true
     ↔ ∃ D, nearest_registered_ancestor cfg d = Some D ∧ granted cfg P D A = true)
  ∧ (d ∈ all_dirs cfg → has_access cfg fuel P d A = Return (granted cfg P d A))
  ∧ ((∀ a, a ∈ ancestors d → a ∉ all_dirs cfg) →
     has_access cfg fuel P d A = Return false).
Proof.
  intros HP HA Hnorm Hfuel.
  assert (Hgr : ∀ D, granted cfg P D A = bool_decide (D ∈ dirs)).
  { intros D. unfold granted. rewrite HP, HA. reflexivity. }
  assert (Hmain : has_access cfg fuel P d A
                  = Return
                      match nearest_registered_ancestor cfg d with
                      | Some D => granted cfg P D A
                      | None => false
                      end).
  { unfold has_access. rewrite HP, HA.
    rewrite has_access_loop_normalized by assumption.
    destruct (nearest_registered_ancestor cfg d); [rewrite Hgr|]; reflexivity. }
  split; [exact Hmain|]. split; [|split].
  - rewrite Hmain. destruct (nearest_registered_ancestor cfg d) as [D|].
    + split.
      * intros H. exists D. split; [reflexivity | congruence].
      * intros [D' [HD' Hg]]. congruence.
    + split; [discriminate | intros [D' [HD' _]]; discriminate].
  - intros Hreg. rewrite Hmain. unfold nearest_registered_ancestor.
    destruct (ancestors_head d) as [rest ->]. simpl.
    rewrite bool_decide_eq_true_2 by exact Hreg. reflexivity.
  - intros Hnone. rewrite Hmain. unfold nearest_registered_ancestor.
    destruct (List.find _ (ancestors d)) as [D|] eqn:E; [|reflexivity].
    apply find_some in E as [Hin Hreg].
    apply bool_decide_eq_true_1 in Hreg.
    apply list_elem_of_In in Hin. exfalso. exact (Hnone D Hin Hreg).
Qed.

Lemma has_access_alice_inherits :
  has_access cfg_demo 4 "alice" "pub/docs/2020" LIST = Return true
  ∧ nearest_registered_ancestor cfg_demo "pub/docs/2020" = Some "pub".
Proof.
  split; [|reflexivity].
  refine (proj1 (has_access_nearest_registered_ancestor cfg_demo "alice" LIST
                   "pub/docs/2020" alice_perm ["pub"] 4 _ _ _ _));
    [reflexivity | reflexivity | reflexivity | vm_compute; lia].
Defined.

(** The claim C3 fails: for a principal that the policy does not know,
    [has_access] does not return false, it raises. *)
Lemma has_access_unknown_user_not_false :
  user_perms cfg_demo !! "mallory" = None
  ∧ has_access cfg_demo 4 "mallory" "pub" LIST = Raise (AccessError 403 "forbidden")
  ∧ has_access cfg_demo 4 "mallory" "pub" LIST ≠ Return false.
Proof.
  split; [reflexivity|]. split; [reflexivity|].
  vm_compute. discriminate.
Qed.

Lemma ftp_has_access_all_raise cfg fuel user path (access_list : list Access) :
  (∀ A, A ∈ access_list →
        has_access cfg fuel user path A = Raise (AccessError 403 "forbidden")) →
  ftp_has_access cfg fuel user path access_list = Return false.
Proof.
  induction access_list as [|A l IH]; intros H; [reflexivity|].
  simpl. rewrite (H A) by (left; reflexivity).
  apply IH. intros B HB. apply H. right. exact HB.
Qed.

(** C3, amended. For a principal that is not in the policy, and for an
    action that the dict of a known principal lacks, [has_access] raises
    [AccessError(403, "forbidden")] for every directory; it is the FTP
    wrapper [MyFilesystem.has_access] that catches the exception and
    returns false. *)
Theorem has_access_unknown_raises cfg fuel P (d : string) A :
  user_perms cfg !! P = None
  ∨ (∃ perms, user_perms cfg !! P = Some perms ∧ action_dirs perms !! A = None) →
  has_access cfg fuel P d A = Raise (AccessError 403 "forbidden")
  ∧ ftp_has_access cfg fuel P d [A] = Return false.
Proof.
  intros H.
  assert (Hraise : has_access cfg fuel P d A = Raise (AccessError 403 "forbidden")).
  { unfold has_access. destruct H as [-> | [perms [-> ->]]]; reflexivity. }
  split; [exact Hraise|].
  apply ftp_has_access_all_raise. intros B HB.
  apply list_elem_of_singleton in HB as ->. exact Hraise.
Qed.

Lemma has_access_unknown_raises_mallory :
  has_access cfg_demo 4 "mallory" "pub" LIST = Raise (AccessError 403 "forbidden")
  ∧ ftp_has_access cfg_demo 4 "mallory" "pub" [LIST] = Return false.
Proof.
  apply (has_access_unknown_raises cfg_demo 4 "mallory" "pub" LIST).
  left. reflexivity.
Defined.

(** ** Credentials *)

(** The claim C5 fails for the absent secret: the stored [None] of the
    anonymous principal equals a supplied [None]. *)
Lemma anonymous_authenticates_without_secret :
  stored_creds cfg_demo UNAUTH = None
  ∧ validate_authentication cfg_demo UNAUTH None = Return tt
  ∧ get_user plain_encode plain_decode cfg_demo no_credentials
    = Return (UNAUTH, None, "anonymous:None").
Proof. repeat split; reflexivity. Qed.

(** C5, amended. When the anonymous principal has no stored secret, no
    supplied secret that is present, that is no string, authenticates
    it: [validate_authentication] raises, and [get_user] falls back to
    the anonymous principal with an empty credential cookie. For the
    absent secret [None] the comparison succeeds. *)
Theorem anonymous_rejects_every_string cfg (secret : string) :
  stored_creds cfg UNAUTH = None →
  validate_authentication cfg UNAUTH (Some secret) = Raise AuthenticationFailed
  ∧ (∀ enc dec req,
       get_user_from_request dec req = UserPassword UNAUTH (Some secret) →
       get_user enc dec cfg req = Return (UNAUTH, None, ""))
  ∧ validate_authentication cfg UNAUTH None = Return tt.
Proof.
  intros Hnone. unfold validate_authentication, get_user. rewrite Hnone.
  split; [reflexivity|]. split; [|reflexivity].
  intros enc dec req ->. rewrite Hnone. reflexivity.
Qed.

Lemma anonymous_rejects_guess :
  validate_authentication cfg_demo UNAUTH (Some "guess") = Raise AuthenticationFailed
  ∧ (∀ enc dec req,
       get_user_from_request dec req = UserPassword UNAUTH (Some "guess") →
       get_user enc dec cfg_demo req = Return (UNAUTH, None, ""))
  ∧ validate_authentication cfg_demo UNAUTH None = Return tt.
Proof.
  apply (anonymous_rejects_every_string cfg_demo "guess"). reflexivity.
Defined.

(** ** The chunk generator *)

Lemma ceil_div_zero c : 1 ≤ c → ceil_div 0 c = 0.
Proof. intros Hc. unfold ceil_div. apply Z.div_small. lia. Qed.

Lemma ceil_div_full c n : 1 ≤ c → c ≤ n → ceil_div n c = 1 + ceil_div (n - c) c.
Proof.
  intros Hc Hn. unfold ceil_div.
  replace (n + c - 1) with ((n - c + c - 1) + 1 * c) by lia.
  rewrite Z.div_add by lia. lia.
Qed.

Lemma ceil_div_last c n : 1 ≤ c → 0 < n → n < c → ceil_div n c = 1.
Proof.
  intros Hc Hn Hlt. unfold ceil_div.
  symmetry. apply (Z.div_unique _ _ 1 (n - 1)); lia.
Qed.

Lemma ceil_div_nonneg c n : 1 ≤ c → 0 ≤ n → 0 ≤ ceil_div n c.
Proof. intros Hc Hn. unfold ceil_div. apply Z.div_pos; lia. Qed.

Lemma take_take_drop_bytes (l : list Byte.byte) (n m : nat) :
  take n l ++ take m (drop n l) = take (n + m) l.
Proof.
  revert l. induction n as [|n IH]; intros l; [reflexivity|].
  destruct l as [|x l]; simpl.
  - rewrite take_nil. reflexivity.
  - rewrite IH. reflexivity.
Qed.

(** The generator, resumed at an [offset] within the range, stops after
    the chunks that remain, having asked for the bytes that remain. *)
Lemma send_chunks_run_from c (data : list Byte.byte) s L :
  1 ≤ c → 0 ≤ s →
  ∀ fuel o, 0 ≤ o ≤ L → (Z.to_nat (ceil_div (L - o) c) < fuel)%nat →
  ∃ ys, send_chunks_run fuel c data s L o = (ys, Return tt)
        ∧ length ys = Z.to_nat (ceil_div (L - o) c)
        ∧ Forall (fun y => 1 ≤ y_size y ≤ c) ys
        ∧ total_requested ys = L - o
        ∧ body_bytes ys = take (Z.to_nat (L - o)) (drop (Z.to_nat (s + o)) data).
Proof.
  intros Hc Hs. induction fuel as [|fuel IH]; intros o Ho Hfuel; [lia|].
  simpl. unfold send_chunks_next.
  destruct (Z.ltb_spec o L) as [Hlt|Hge].
  - set (chunk := if o + c >? L then L - o else c).
    assert (Hchunk : 1 ≤ chunk ≤ c ∧ o + chunk ≤ L
                     ∧ ceil_div (L - o) c = 1 + ceil_div (L - (o + chunk)) c).
    { unfold chunk. destruct (Z.gtb_spec (o + c) L) as [Hbig|Hfit].
      - replace (L - (o + (L - o))) with 0 by lia.
        rewrite ceil_div_zero, ceil_div_last by lia. lia.
      - rewrite (ceil_div_full c (L - o)) by lia.
        replace (L - o - c) with (L - (o + c)) by lia. lia. }
    destruct Hchunk as [Hsize [Hle Hceil]].
    assert (Hnn : 0 ≤ ceil_div (L - (o + chunk)) c) by (apply ceil_div_nonneg; lia).
    unfold seek_read.
    destruct (Z.ltb_spec (s + o) 0) as [?|_]; [lia|].
    destruct (Z.ltb_spec chunk (-1)) as [?|_]; [lia|].
    destruct (Z.eqb_spec chunk (-1)) as [?|_]; [lia|].
    simpl.
    destruct (IH (o + chunk)) as [ys [Hrun [Hlen [Hall [Hsum Hbytes]]]]]; [lia | lia |].
    rewrite Hrun. eexists. split; [reflexivity|].
    split; [simpl; rewrite Hlen, Hceil; lia|].
    split; [constructor; [simpl; lia | exact Hall]|].
    split; [unfold total_requested in *; simpl; rewrite Hsum; lia|].
    unfold body_bytes in *. simpl. rewrite Hbytes.
    replace (Z.to_nat (s + (o + chunk))) with (Z.to_nat (s + o) + Z.to_nat chunk)%nat by lia.
    rewrite <- drop_drop, take_take_drop_bytes. f_equal. lia.
  - assert (o = L) as -> by lia.
    exists []. replace (L - L) with 0 by lia. rewrite ceil_div_zero by lia.
    repeat split; try reflexivity. constructor.
Qed.

(** With a chunk size of zero the generator yields empty chunks and
    never stops. *)
Lemma send_chunks_run_zero_chunk (data : list Byte.byte) s L fuel :
  0 ≤ s → 0 < L → snd (send_chunks_run fuel 0 data s L 0) = OutOfFuel.
Proof.
  intros Hs HL. induction fuel as [|fuel IH]; [reflexivity|].
  simpl. unfold send_chunks_next, seek_read.
  destruct (Z.ltb_spec 0 L) as [_|?]; [|lia].
  destruct (Z.gtb_spec (0 + 0) L) as [?|_]; [lia|].
  destruct (Z.ltb_spec (s + 0) 0) as [?|_]; [lia|]. simpl.
  change (0 + 0) with 0.
  destruct (send_chunks_run fuel 0 data s L 0) as [ys fin]. exact IH.
Qed.


(** C10. For a chunk size [c >= 1], a start [s >= 0] and a length
    [L >= 0], the generator [send_chunks_iter] over a readable file stops
    after [ceil(L / c)] yields; each yield asks [f.read] for at most [c]
    bytes, and the sizes asked for add up to [L]. *)
Theorem send_chunks_iter_terminates cfg (fs : filesystem) filename node c s L fuel :
  fs !! filename = Some node → n_isdir node = false → n_readable node = true →
  chunksize cfg = c → 1 ≤ c → 0 ≤ s → 0 ≤ L →
  (Z.to_nat (ceil_div L c) < fuel)%nat →
  ∃ ys, send_chunks_iter fuel cfg fs
          {| it_filename := filename; it_start := s; it_length := L |}
        = (ys, Return tt)
        ∧ Z.of_nat (length ys) = ceil_div L c
        ∧ Forall (fun y => y_size y ≤ c) ys
        ∧ total_requested ys = L.
Proof.
  intros Hnode Hdir Hread Hcfg Hc Hs HL Hfuel.
  unfold send_chunks_iter. simpl. rewrite Hnode, Hdir, Hread, Hcfg. simpl.
  destruct (send_chunks_run_from c (n_data node) s L Hc Hs fuel 0)
    as [ys [Hrun [Hlen [Hall [Hsum _]]]]].
  - lia.
  - replace (L - 0) with L by lia. exact Hfuel.
  - replace (L - 0) with L in * by lia.
    exists ys. split; [exact Hrun|].
    split; [rewrite Hlen; apply Z2Nat.id, ceil_div_nonneg; lia|].
    split; [|exact Hsum].
    eapply Forall_impl; [exact Hall|]. simpl. intros y Hy. lia.
Qed.

Lemma send_chunks_iter_two_chunks :
  ∃ ys, send_chunks_iter 3 cfg_demo fs_demo
          {| it_filename := "/data/a/pub/x.bin"; it_start := 900; it_length := 100 |}
        = (ys, Return tt)
        ∧ Z.of_nat (length ys) = ceil_div 100 64
        ∧ Forall (fun y => y_size y ≤ 64) ys
        ∧ total_requested ys = 100.
Proof.
  eapply (send_chunks_iter_terminates cfg_demo fs_demo "/data/a/pub/x.bin" _ 64 900 100 3);
    [reflexivity | reflexivity | reflexivity | reflexivity | lia | lia | lia
    | vm_compute; lia].
Defined.

Example send_chunks_sizes :
  map (fun y => (y_pos y, y_size y))
    (fst (send_chunks_iter 3 cfg_demo fs_demo
            {| it_filename := "/data/a/pub/x.bin"; it_start := 900; it_length := 100 |}))
  = [(900, 64); (964, 36)].
Proof. vm_compute. reflexivity. Qed.

(** ** The range pattern *)







(** The pattern finds the two numbers of a header [unit=first-last],
    whose unit [u] holds no digit. *)
Lemma span_digits_all (d rest : string) :
  all_digits d = true →
  (match rest with String a _ => PyStr.is_digit a | EmptyString => false end) = false →
  span_digits (d +:+ rest) = (d, rest).
Proof.
  intros Hd Hrest. induction d as [|a d IH].
  - rewrite append_empty_l. destruct rest as [|b rest]; [reflexivity|].
    simpl. rewrite Hrest. reflexivity.
  - simpl in Hd. apply andb_true_iff in Hd as [Ha Hd].
    rewrite append_cons. simpl. rewrite Ha, (IH Hd). reflexivity.
Qed.

Lemma re_search_range_skip (u s : string) :
  (∀ a, contains_chr a u = true → PyStr.is_digit a = false) →
  re_search_range (u +:+ s) = re_search_range s.
Proof.
  intros Hnd. induction u as [|a u IH]; [reflexivity|].
  rewrite append_cons.
  assert (Ha : PyStr.is_digit a = false).
  { apply Hnd. simpl. unfold PyStr.chr_eqb. rewrite Ascii.eqb_refl. reflexivity. }
  simpl. unfold match_range_here. simpl. rewrite Ha. simpl.
  apply IH. intros b Hb. apply Hnd. simpl. rewrite Hb. apply orb_true_r.
Qed.

Lemma re_search_range_well_formed (u first last : string) :
  (∀ a, contains_chr a u = true → PyStr.is_digit a = false) →
  PyStr.truthy first = true → all_digits first = true → all_digits last = true →
  re_search_range (u +:+ first +:+ "-" +:+ last) = Some (first, last).
Proof.
  intros Hu Hne Hfirst Hlast. rewrite re_search_range_skip by exact Hu.
  assert (Hhere : match_range_here (first +:+ "-" +:+ last) = Some (first, last)).
  { unfold match_range_here. rewrite (span_digits_all first) by (exact Hfirst || reflexivity).
    rewrite Hne. change ("-" +:+ last) with (String "-"%char last). cbv iota.
    rewrite <- (append_empty_r last) at 1.
    rewrite (span_digits_all last "") by (exact Hlast || reflexivity). reflexivity. }
  destruct (first +:+ "-" +:+ last) as [|a s']; [discriminate Hhere|].
  change (re_search_range (String a s'))
    with (match match_range_here (String a s') with
          | Some g => Some g
          | None => re_search_range s'
          end).
  rewrite Hhere. reflexivity.
Qed.

Example re_search_range_open_end :
  re_search_range "bytes=900-" = Some ("900", "").
Proof. reflexivity. Qed.

Example re_search_range_suffix : re_search_range "bytes=-500" = None.
Proof. reflexivity. Qed.

Example re_search_range_first_of_two :
  re_search_range "bytes=0-99,200-299" = Some ("0", "99").
Proof. reflexivity. Qed.

(** ** Range streaming *)




Lemma streamfile_no_match_raises guess req (fs : filesystem) fullname node header :
  range_header req = Some header → PyStr.truthy header = true →
  fs !! fullname = Some node →
  re_search_range header = None →
  streamfile guess req fs fullname = Raise AttributeError.
Proof.
  intros Hreq Hheader Hnode Hsearch. unfold streamfile.
  rewrite Hreq, Hheader. simpl. unfold os_getsize. rewrite Hnode. simpl.
  rewrite Hsearch. reflexivity.
Qed.

(** C7 fails on the code: a [Range] header in which the pattern finds
    nothing makes [m] be [None], and [m.groups()] raises; the decorator
    of [handle] turns that into a redirect to the root. *)
Theorem streamfile_malformed_range_raises :
  re_search_range "bytes=abc" = None
  ∧ streamfile no_guess (range_request "bytes=abc") fs_demo "/data/a/pub/x.bin"
    = Raise AttributeError
  ∧ handle_decorated plain_encode plain_decode keep_name no_guess os_demo cfg_demo
      (alice_range_request "bytes=abc") 4 fs_demo "pub/x.bin"
    = Return ({| r_status := 302; r_headers := []; r_mimetype := None;
                 r_body := RedirectTo (Url "/") |}, fs_demo).
Proof.
  split; [reflexivity|]. split; [reflexivity|]. vm_compute. reflexivity.
Qed.

Example handle_range_served :
  handle plain_encode plain_decode keep_name no_guess os_demo cfg_demo
    (alice_range_request "bytes=0-99") 4 fs_demo "pub/x.bin"
  = Return
     ({| r_status := 206;
         r_headers := [("Content-Range", "bytes 0-99/1000");
                       ("Set-Cookie", "cred=alice:secret")];
         r_mimetype := Some "application/octet-stream";
         r_body := Chunks {| it_filename := "/data/a/pub/x.bin";
                             it_start := 0; it_length := 100 |} |}, fs_demo).
Proof. vm_compute. reflexivity. Qed.

(** ** Uploads *)

(** A target that [os.access] finds readable is left alone. *)
Lemma upload_file_duplicate gvf cfg req (fs : filesystem) user directory filename data :
  upload req = Some (filename, data) →
  PyStr.truthy (gvf (basename filename)) = true →
  os_access_R_OK fs
    (posixpath.join (basedir cfg) (posixpath.join directory (gvf (basename filename))))
  = true →
  upload_file gvf cfg req fs user directory = Return (Response "duplicate" 403, fs).
Proof.
  intros Hup Hname Hacc. unfold upload_file. rewrite Hup, Hname, Hacc. reflexivity.
Qed.

(** A target that exists and that the server may write and may not read
    is written over. *)
Lemma upload_file_overwrites_unreadable gvf cfg req (fs : filesystem) user directory
    filename data node :
  upload req = Some (filename, data) →
  PyStr.truthy (gvf (basename filename)) = true →
  let fullname :=
    posixpath.join (basedir cfg) (posixpath.join directory (gvf (basename filename))) in
  fs !! fullname = Some node →
  n_isdir node = false → n_readable node = false → n_writable node = true →
  ∃ resp fs',
    upload_file gvf cfg req fs user directory = Return (resp, fs')
    ∧ r_status resp = 302
    ∧ n_data <$> fs' !! fullname = Some data.
Proof.
  intros Hup Hname fullname Hnode Hdir Hread Hwrite.
  unfold upload_file. rewrite Hup, Hname. fold fullname.
  unfold os_access_R_OK, file_save. rewrite Hnode, Hread, Hdir, Hwrite. simpl.
  unfold os_getsize. rewrite lookup_insert_eq. simpl.
  eexists. eexists. split; [reflexivity|]. split; [reflexivity|].
  rewrite lookup_insert_eq. reflexivity.
Qed.

(** C8 fails on the code: [notes.txt] exists under [pub] with the bytes
    [123], the server may write it and may not read it, and an upload
    under that name by a user who may upload there replaces its bytes
    and is answered by the redirect of a saved file, not by the
    duplicate rejection. *)
Theorem upload_file_existing_unreadable :
  n_data <$> fs_demo !! "/data/a/pub/notes.txt" = Some [Byte.x31; Byte.x32; Byte.x33]
  ∧ (∃ fs',
       upload_file keep_name cfg_demo upload_notes fs_demo "alice" "pub"
       = Return (redirect_handle "pub" "1 bytes saved as notes.txt", fs')
       ∧ n_data <$> fs' !! "/data/a/pub/notes.txt" = Some [Byte.x39])
  ∧ (∃ fs',
       handle plain_encode plain_decode keep_name no_guess os_demo cfg_demo
         upload_notes 4 fs_demo "pub"
       = Return (set_cookie "alice:secret"
                   (redirect_handle "pub" "1 bytes saved as notes.txt"), fs')
       ∧ n_data <$> fs' !! "/data/a/pub/notes.txt" = Some [Byte.x39]).
Proof.
  split; [vm_compute; reflexivity|]. split.
  - eexists. split; [vm_compute; reflexivity|]. vm_compute. reflexivity.
  - eexists. split; [vm_compute; reflexivity|]. vm_compute. reflexivity.
Qed.

(** ** The listing branch of [handle] *)

(** The claim C9 fails: at the root, the request without credentials and
    the request of [bob], whose credentials are right and grant nothing,
    are refused by the same exception and get the same response. *)
Lemma handle_root_listing_same_denial :
  get_user plain_encode plain_decode cfg_demo no_credentials
  = Return (UNAUTH, None, "anonymous:None")
  ∧ get_user plain_encode plain_decode cfg_demo bob_credentials
    = Return ("bob", Some "pw", "bob:pw")
  ∧ handle plain_encode plain_decode keep_name no_guess os_demo cfg_demo
      no_credentials 4 fs_demo ""
    = Raise (AccessError 401 "forbidden")
  ∧ handle plain_encode plain_decode keep_name no_guess os_demo cfg_demo
      bob_credentials 4 fs_demo ""
    = Raise (AccessError 401 "forbidden")
  ∧ handle_decorated plain_encode plain_decode keep_name no_guess os_demo cfg_demo
      bob_credentials 4 fs_demo ""
    = handle_decorated plain_encode plain_decode keep_name no_guess os_demo cfg_demo
        no_credentials 4 fs_demo "".
Proof. repeat split; vm_compute; reflexivity. Qed.

(** C9, amended. When a listing is denied, at the root or at any other
    directory, [handle] raises [AccessError(401, ...)], which the
    decorator answers with the challenge [WWW-Authenticate]; this
    depends on the principal that [get_user] settles on and on nothing
    else of the credentials, so a request without credentials and a
    request with credentials that grant nothing get the same outcome. *)
Theorem handle_listing_denied_unauthorized enc dec gvf guess os cfg req fuel
    (fs : filesystem) path user password cred fullname dirname :
  get_user enc dec cfg req = Return (user, password, cred) →
  normalize_path (os_getcwd os) (os_stat os) cfg path = Return (fullname, dirname, None) →
  form_action req = None ∨ form_action req = Some "list" →
  may_enter cfg fuel user dirname = Return false →
  handle enc dec gvf guess os cfg req fuel fs path = Raise (AccessError 401 "forbidden")
  ∧ handle_decorated enc dec gvf guess os cfg req fuel fs path
    = Return (add_header "WWW-Authenticate"
                ("Basic realm=" +:+ dquote +:+ "fus login" +:+ dquote)
                (Response "Unauthorized" 401), fs).
Proof.
  intros Huser Hpath Haction Hdenied.
  assert (H : handle enc dec gvf guess os cfg req fuel fs path
              = Raise (AccessError 401 "forbidden")).
  { unfold handle. rewrite Huser. simpl. rewrite Hpath. simpl.
    destruct Haction as [-> | ->]; simpl; rewrite Hdenied; reflexivity. }
  split; [exact H|]. unfold handle_decorated. rewrite H. reflexivity.
Qed.

Lemma handle_listing_denied_bob :
  handle plain_encode plain_decode keep_name no_guess os_demo cfg_demo
    bob_credentials 4 fs_demo ""
  = Raise (AccessError 401 "forbidden")
  ∧ handle_decorated plain_encode plain_decode keep_name no_guess os_demo cfg_demo
      bob_credentials 4 fs_demo ""
    = Return (add_header "WWW-Authenticate"
                ("Basic realm=" +:+ dquote +:+ "fus login" +:+ dquote)
                (Response "Unauthorized" 401), fs_demo).
Proof.
  apply (handle_listing_denied_unauthorized plain_encode plain_decode keep_name
           no_guess os_demo cfg_demo bob_credentials 4 fs_demo ""
           "bob" (Some "pw") "bob:pw" "/data/a" "");
    [reflexivity | reflexivity | left; reflexivity | reflexivity].
Defined.

(** * Further properties *)

(** ** [has_access] on names that are not normalized *)

Lemma has_access_loop_no_raise cfg fuel dirs (d : string) e :
  has_access_loop cfg fuel dirs d ≠ Raise e.
Proof.
  revert d. induction fuel as [|fuel IH]; intros d; [discriminate|].
  simpl. destruct (bool_decide (d ∈ all_dirs cfg)); [discriminate|].
  destruct (_ || _); [discriminate|].
  destruct (posixpath.split d) as [parent tail]. apply IH.
Qed.

(** X1. For a known user and action and a directory name that does not
    begin with the separator, [has_access] returns a boolean once the
    fuel exceeds the length of the name: the walk to the parents ends,
    whether or not the name is normalized. *)
Theorem has_access_returns_on_relative cfg fuel user (d : string) action perms dirs :
  user_perms cfg !! user = Some perms →
  action_dirs perms !! action = Some dirs →
  PyStr.startswith d posixpath.sep = false →
  (String.length d < fuel)%nat →
  ∃ b, has_access cfg fuel user d action = Return b.
Proof.
  intros Huser Haction Hrel Hfuel. unfold has_access. rewrite Huser, Haction.
  apply has_access_loop_terminates; assumption.
Qed.

Lemma has_access_returns_on_doubled_separator :
  ∃ b, has_access cfg_demo 11 "alice" "pub//docs/" LIST = Return b.
Proof.
  apply (has_access_returns_on_relative cfg_demo 11 "alice" "pub//docs/" LIST
           alice_perm ["pub"]);
    [reflexivity | reflexivity | reflexivity | vm_compute; lia].
Defined.

Section repeat_lemmas.
Import PyStr.

Lemma rfind_from_repeat c i found n :
  rfind_from c i found (repeat_chr c (S n)) = i + Z.of_nat n.
Proof.
  revert i found. induction n as [|n IH]; intros i found.
  - simpl. unfold chr_eqb. rewrite Ascii.eqb_refl. lia.
  - change (repeat_chr c (S (S n))) with (String c (repeat_chr c (S n))).
    cbn [rfind_from]. rewrite IH. lia.
Qed.

Lemma length_repeat_chr c n : String.length (repeat_chr c n) = n.
Proof. induction n as [|n IH]; [reflexivity|]. simpl. rewrite IH. reflexivity. Qed.

Lemma slice_to_all (s : string) : slice_to (String.length s) s = s.
Proof. rewrite <- (append_empty_r s) at 2. apply slice_to_append. Qed.

Lemma slice_from_all (s : string) : slice_from (String.length s) s = "".
Proof. rewrite <- (append_empty_r s) at 2. apply slice_from_append. Qed.

(** The parent of a name made of separators only is the name itself. *)
Lemma split_repeat_sep n :
  posixpath.split (repeat_chr posixpath.sep_chr (S n))
  = (repeat_chr posixpath.sep_chr (S n), "").
Proof.
  unfold posixpath.split, rfind. rewrite rfind_from_repeat.
  replace (Z.to_nat (0 + Z.of_nat n + 1))
    with (String.length (repeat_chr posixpath.sep_chr (S n)))
    by (rewrite length_repeat_chr; lia).
  rewrite slice_to_all, slice_from_all, length_repeat_chr, String.eqb_refl.
  rewrite andb_false_r. reflexivity.
Qed.

End repeat_lemmas.

(** X2. On a name made of two or more separators that is not registered,
    [has_access] never answers, for a known user and action: the parent
    that [os.path.split] gives for such a name is the name itself, so
    the loop runs on whatever the fuel. *)
Theorem has_access_diverges_on_separators cfg user action perms dirs n fuel :
  user_perms cfg !! user = Some perms →
  action_dirs perms !! action = Some dirs →
  PyStr.repeat_chr posixpath.sep_chr (S (S n)) ∉ all_dirs cfg →
  has_access cfg fuel user (PyStr.repeat_chr posixpath.sep_chr (S (S n))) action
  = OutOfFuel.
Proof.
  intros Huser Haction Hreg. unfold has_access. rewrite Huser, Haction.
  induction fuel as [|fuel IH]; [reflexivity|].
  cbn [has_access_loop]. rewrite bool_decide_eq_false_2 by exact Hreg.
  rewrite split_repeat_sep.
  assert (Hstop : (String.length (PyStr.repeat_chr posixpath.sep_chr (S (S n))) =? 0)%nat
                  || String.eqb (PyStr.repeat_chr posixpath.sep_chr (S (S n))) posixpath.sep
                  = false) by reflexivity.
  rewrite Hstop. exact IH.
Qed.

Lemma has_access_diverges_on_three_separators :
  has_access cfg_demo 50 "alice" "///" LIST = OutOfFuel.
Proof.
  apply (has_access_diverges_on_separators cfg_demo "alice" LIST alice_perm ["pub"] 1 50);
    [reflexivity | reflexivity |].
  apply (bool_decide_eq_false_1 _). reflexivity.
Defined.

(** ** What [normalize_path] returns *)

(** X3. When [normalize_path] returns, the name it returns is the
    absolute path it computed, that name is the root or lies under the
    root followed by the separator, [os.stat] succeeded on it, and it is
    a directory exactly when no file name comes with it; otherwise it
    is a regular file. Nothing else is ever resolved. *)
Theorem normalize_path_returns_inside_root cwd stat cfg path name dirname fname :
  normalize_path cwd stat cfg path = Return (name, dirname, fname) →
  name = resolved_name cwd cfg path
  ∧ (name = basedir cfg ∨ ∃ rest, name = basedir cfg +:+ posixpath.sep +:+ rest)
  ∧ ∃ sr, stat name = StatOk sr
          ∧ (fname = None ↔ S_ISDIR (st_mode sr) = true)
          ∧ (fname ≠ None → S_ISREG (st_mode sr) = true).
Proof.
  unfold normalize_path. fold (resolved_name cwd cfg path).
  destruct (String.eqb_spec (resolved_name cwd cfg path) (basedir cfg)) as [Heq|Hne];
    destruct (PyStr.startswith (resolved_name cwd cfg path)
                (basedir cfg +:+ posixpath.sep)) eqn:Hsw;
    simpl; try discriminate.
  all: destruct (stat (resolved_name cwd cfg path)) as [sr| |] eqn:Hstat; try discriminate.
  all: destruct (S_ISDIR (st_mode sr)) eqn:Hdir;
    [|destruct (S_ISREG (st_mode sr)) eqn:Hreg; [|discriminate];
      destruct (posixpath.split _) as [parent tail]];
    intros [= <- <- <-].
  all: split; [reflexivity|]; split;
    [first [left; exact Heq
           | right; apply startswith_spec in Hsw as [rest Hrest]; exists rest;
             rewrite Hrest; apply append_assoc]
    | exists sr; split; [exact Hstat|]; split;
      [split; congruence | congruence]].
Qed.

Lemma normalize_path_returns_demo_file :
  "/data/a/pub/x.bin" = resolved_name "/" cfg_demo "pub/../pub/x.bin"
  ∧ ("/data/a/pub/x.bin" = basedir cfg_demo
     ∨ ∃ rest, "/data/a/pub/x.bin" = basedir cfg_demo +:+ posixpath.sep +:+ rest)
  ∧ ∃ sr, stat_demo "/data/a/pub/x.bin" = StatOk sr
          ∧ (Some "x.bin" = None ↔ S_ISDIR (st_mode sr) = true)
          ∧ (Some "x.bin" ≠ None → S_ISREG (st_mode sr) = true).
Proof.
  apply (normalize_path_returns_inside_root "/" stat_demo cfg_demo "pub/../pub/x.bin"
           "/data/a/pub/x.bin" "pub" (Some "x.bin")).
  reflexivity.
Defined.

(** ** The shape of [normpath] and of what [normalize_path] cuts from it *)

Section normpath_shape.
Import PyStr.

Local Abbreviation is_seg := (fun s : string => is_segment s = true).

Lemma Forall_removelast_seg (l : list string) :
  Forall is_seg l → Forall is_seg (removelast l).
Proof.
  induction 1 as [|x l Hx Hl IH]; [constructor|].
  destruct l as [|y l]; [constructor|].
  change (removelast (x :: y :: l)) with (x :: removelast (y :: l)).
  constructor; assumption.
Qed.

Lemma normpath_step_segments k (acc : list string) (comp : string) :
  Forall is_seg acc → contains_chr posixpath.sep_chr comp = false →
  Forall is_seg (posixpath.normpath_step k acc comp).
Proof.
  intros Hacc Hcomp. unfold posixpath.normpath_step.
  destruct (String.eqb_spec comp "") as [->|Hne]; [exact Hacc|].
  simpl orb. destruct (String.eqb comp "."); [exact Hacc|].
  destruct (_ || _).
  - apply Forall_app. split; [exact Hacc|]. constructor; [|constructor].
    unfold is_segment. rewrite Hcomp. destruct comp; [congruence | reflexivity].
  - destruct (negb _); [apply Forall_removelast_seg, Hacc | exact Hacc].
Qed.

Lemma normpath_fold_segments k (comps acc : list string) :
  Forall (fun x => contains_chr posixpath.sep_chr x = false) comps →
  Forall is_seg acc →
  Forall is_seg (fold_left (posixpath.normpath_step k) comps acc).
Proof.
  intros Hcomps. revert acc. induction Hcomps as [|c comps Hc _ IH]; intros acc Hacc.
  - exact Hacc.
  - simpl. apply IH, normpath_step_segments; assumption.
Qed.

(** [normpath] gives at most two separators followed by segments joined
    by single separators. *)
Lemma normpath_shape (p : string) :
  ∃ k comps, posixpath.normpath p
             = repeat_chr posixpath.sep_chr k +:+ String.concat posixpath.sep comps
             ∧ Forall is_seg comps.
Proof.
  unfold posixpath.normpath.
  destruct (String.eqb p "").
  - exists 0%nat, ["."]. split; [reflexivity | repeat constructor].
  - set (k := if startswith p posixpath.sep then _ else _).
    set (comps := fold_left _ _ _).
    assert (Hcomps : Forall is_seg comps)
      by (apply normpath_fold_segments; [apply split_chr_absent | constructor]).
    destruct (truthy _) eqn:Ht.
    + exists k, comps. split; [reflexivity | exact Hcomps].
    + exists 0%nat, ["."]. split; [reflexivity | repeat constructor].
Qed.

Lemma slice_from_empty n : slice_from n "" = "".
Proof. destruct n; reflexivity. Qed.

Lemma slice_from_append_cases n (a t : string) :
  ((n < String.length a)%nat ∧ slice_from n (a +:+ t) = slice_from n a +:+ t)
  ∨ ((String.length a ≤ n)%nat
     ∧ slice_from n (a +:+ t) = slice_from (n - String.length a) t).
Proof.
  revert n. induction a as [|x a IH]; intros n.
  - right. rewrite append_empty_l. simpl. split; [lia|]. f_equal. lia.
  - destruct n as [|n].
    + left. simpl. split; [lia | reflexivity].
    + rewrite append_cons. simpl. destruct (IH n) as [[Hlt ->]|[Hge ->]].
      * left. split; [lia | reflexivity].
      * right. split; [lia | reflexivity].
Qed.

Lemma slice_from_segment n (c : string) :
  is_segment c = true → (n < String.length c)%nat → is_segment (slice_from n c) = true.
Proof.
  revert n. induction c as [|x c IH]; intros n Hc Hn; [simpl in Hn; lia|].
  destruct n as [|n]; [exact Hc|]. simpl in Hn |- *.
  unfold is_segment in Hc. simpl in Hc. apply negb_true_iff, orb_false_iff in Hc as [_ Hc].
  destruct c as [|y c]; [simpl in Hn; lia|].
  apply IH; [|lia]. unfold is_segment. rewrite Hc. reflexivity.
Qed.

Lemma slice_from_beyond n (c : string) :
  (String.length c ≤ n)%nat → slice_from n c = "".
Proof.
  revert n. induction c as [|x c IH]; intros n Hn; [apply slice_from_empty|].
  destruct n as [|n]; [simpl in Hn; lia|]. simpl in Hn |- *. apply IH. lia.
Qed.

Lemma lstrip_segment_head (c t : string) :
  is_segment c = true → lstrip posixpath.sep_chr (c +:+ t) = c +:+ t.
Proof.
  destruct c as [|x c]; [discriminate|]. unfold is_segment. simpl.
  intros H. apply negb_true_iff, orb_false_iff in H as [Hx _].
  rewrite append_cons. cbn [lstrip]. rewrite Hx. reflexivity.
Qed.

Lemma concat_joined_tail (c : string) (rest : list string) :
  String.concat posixpath.sep (c :: rest) = c +:+ joined_tail rest.
Proof.
  destruct rest as [|y rest]; [simpl; symmetry; apply append_empty_r | reflexivity].
Qed.

Lemma lstrip_slice_concat (comps : list string) :
  Forall is_seg comps →
  ∀ n, ∃ comps', Forall is_seg comps'
                 ∧ lstrip posixpath.sep_chr (slice_from n (String.concat posixpath.sep comps))
                   = String.concat posixpath.sep comps'.
Proof.
  induction 1 as [|c rest Hc Hrest IH]; intros n.
  - exists []. split; [constructor|]. simpl. rewrite slice_from_empty. reflexivity.
  - rewrite concat_joined_tail.
    destruct (slice_from_append_cases n c (joined_tail rest)) as [[Hlt ->]|[Hge ->]].
    + exists (slice_from n c :: rest). split.
      * constructor; [apply slice_from_segment; assumption | exact Hrest].
      * rewrite concat_joined_tail. apply lstrip_segment_head, slice_from_segment; assumption.
    + destruct rest as [|y rest].
      * exists []. split; [constructor|]. simpl. rewrite slice_from_empty. reflexivity.
      * unfold joined_tail. change (posixpath.sep +:+ ?x) with (String posixpath.sep_chr x).
        destruct (n - String.length c)%nat as [|m].
        -- destruct (IH 0%nat) as [comps' [Hseg Heq]]. exists comps'.
           split; [exact Hseg|]. exact Heq.
        -- destruct (IH m) as [comps' [Hseg Heq]]. exists comps'.
           split; [exact Hseg|]. exact Heq.
Qed.

Lemma lstrip_slice_normpath_shape k (comps : list string) :
  Forall is_seg comps →
  ∀ n, ∃ comps', Forall is_seg comps'
                 ∧ lstrip posixpath.sep_chr
                     (slice_from n (repeat_chr posixpath.sep_chr k
                                    +:+ String.concat posixpath.sep comps))
                   = String.concat posixpath.sep comps'.
Proof.
  intros Hcomps. induction k as [|k IH]; intros n.
  - rewrite append_empty_l. apply lstrip_slice_concat, Hcomps.
  - change (repeat_chr posixpath.sep_chr (S k) +:+ ?x)
      with (String posixpath.sep_chr (repeat_chr posixpath.sep_chr k +:+ x)).
    destruct n as [|n]; [apply (IH 0%nat) | apply (IH n)].
Qed.

Lemma split_chr_absent_one (c : string) :
  contains_chr posixpath.sep_chr c = false → split_chr posixpath.sep_chr c = [c].
Proof.
  induction c as [|x c IH]; [reflexivity|]. simpl.
  intros H. apply orb_false_iff in H as [Hx Hc]. rewrite Hx, (IH Hc). reflexivity.
Qed.

Lemma split_chr_concat_segments (comps : list string) :
  Forall is_seg comps → comps ≠ [] →
  split_chr posixpath.sep_chr (String.concat posixpath.sep comps) = comps.
Proof.
  induction 1 as [|c rest Hc Hrest IH]; [congruence|]. intros _.
  apply is_segment_inv in Hc as [_ Hc].
  destruct rest as [|y rest].
  - simpl. apply split_chr_absent_one, Hc.
  - rewrite concat_cons_cons.
    change (posixpath.sep +:+ ?x) with (String posixpath.sep_chr x).
    rewrite split_chr_append_sep, (split_chr_absent_one c Hc), IH by congruence.
    reflexivity.
Qed.

Lemma segments_concat (comps : list string) :
  Forall is_seg comps → segments (String.concat posixpath.sep comps) = comps.
Proof.
  intros Hcomps. destruct comps as [|c rest]; [reflexivity|].
  unfold segments.
  destruct (rstrip_concat_segments (c :: rest) Hcomps) as [_ Hne]; [congruence|].
  assert (Ht : truthy (String.concat posixpath.sep (c :: rest)) = true)
    by (destruct (String.concat posixpath.sep (c :: rest)); [congruence | reflexivity]).
  rewrite Ht. apply split_chr_concat_segments; [exact Hcomps | congruence].
Qed.

Lemma normalized_concat (comps : list string) :
  Forall is_seg comps → normalized (String.concat posixpath.sep comps) = true.
Proof.
  intros Hcomps. unfold normalized. rewrite segments_concat by exact Hcomps.
  apply forallb_forall. intros s Hs.
  rewrite Forall_forall in Hcomps. apply list_elem_of_In, Hcomps in Hs.
  unfold is_segment in Hs. apply andb_true_iff in Hs as [Hs _]. exact Hs.
Qed.

Lemma rstrip_concat_any (comps : list string) :
  Forall is_seg comps →
  rstrip posixpath.sep_chr (String.concat posixpath.sep comps)
  = String.concat posixpath.sep comps.
Proof.
  intros Hcomps. destruct comps as [|c rest]; [reflexivity|].
  apply rstrip_concat_segments; [exact Hcomps | congruence].
Qed.

(** What [normalize_path] calls [path] is a join of segments. *)
Lemma normalize_path_relative_part cwd cfg path :
  ∃ comps, Forall is_seg comps
           ∧ strip posixpath.sep_chr
               (slice_from (String.length (basedir cfg)) (resolved_name cwd cfg path))
             = String.concat posixpath.sep comps.
Proof.
  unfold resolved_name, posixpath.abspath.
  destruct (normpath_shape (if posixpath.isabs (posixpath.join (basedir cfg) path)
                            then posixpath.join (basedir cfg) path
                            else posixpath.join cwd (posixpath.join (basedir cfg) path)))
    as [k [comps [-> Hcomps]]].
  destruct (lstrip_slice_normpath_shape k comps Hcomps (String.length (basedir cfg)))
    as [comps' [Hseg Heq]].
  exists comps'. split; [exact Hseg|].
  unfold strip. rewrite Heq. apply rstrip_concat_any, Hseg.
Qed.

End normpath_shape.

(** X4. The directory name that [normalize_path] returns is normalized:
    it is the root [""] or is made of non-empty segments with single
    separators between them, both for a directory and for the
    directory of a regular file. *)
Theorem normalize_path_dirname_normalized cwd stat cfg path name dirname fname :
  normalize_path cwd stat cfg path = Return (name, dirname, fname) →
  normalized dirname = true.
Proof.
  unfold normalize_path. fold (resolved_name cwd cfg path).
  destruct (normalize_path_relative_part cwd cfg path) as [comps [Hcomps ->]].
  destruct (_ && _); [discriminate|].
  destruct (stat _) as [sr| |]; try discriminate.
  destruct (S_ISDIR (st_mode sr)).
  - intros [= _ <- _]. apply normalized_concat, Hcomps.
  - destruct (S_ISREG (st_mode sr)); [|discriminate].
    destruct comps as [|s comps _] using rev_ind.
    + intros [= _ <- _]. reflexivity.
    + apply Forall_app in Hcomps as [Hinit Hlast].
      inversion Hlast as [|? ? Hs _]; subst.
      rewrite split_concat_snoc by assumption.
      intros [= _ <- _]. apply normalized_concat, Hinit.
Qed.

Lemma normalize_path_dirname_normalized_demo : normalized "pub" = true.
Proof.
  apply (normalize_path_dirname_normalized "/" stat_demo cfg_demo "pub/.//x.bin"
           "/data/a/pub/x.bin" "pub" (Some "x.bin")).
  reflexivity.
Defined.

(** X5. Path resolution and the access decision fit together: for
    every path that [normalize_path] resolves, and a known user and
    action, [has_access] on the resolved directory returns, with fuel
    for its ancestors, whether the user is granted the action at the
    nearest registered ancestor of that directory, and false when there
    is none. *)
Theorem resolved_directory_access cwd stat cfg path name dirname fname
    user action perms dirs fuel :
  normalize_path cwd stat cfg path = Return (name, dirname, fname) →
  user_perms cfg !! user = Some perms →
  action_dirs perms !! action = Some dirs →
  (length (ancestors dirname) ≤ fuel)%nat →
  has_access cfg fuel user dirname action
  = Return
      match nearest_registered_ancestor cfg dirname with
      | Some D => granted cfg user D action
      | None => false
      end.
Proof.
  intros Hpath Huser Haction Hfuel.
  assert (Hnorm : normalized dirname = true).
  { revert Hpath. unfold normalize_path. fold (resolved_name cwd cfg path).
    destruct (normalize_path_relative_part cwd cfg path) as [comps [Hcomps ->]].
    destruct (_ && _); [discriminate|].
    destruct (stat _) as [sr| |]; try discriminate.
    destruct (S_ISDIR (st_mode sr)).
    - intros [= _ <- _]. apply normalized_concat, Hcomps.
    - destruct (S_ISREG (st_mode sr)); [|discriminate].
      destruct comps as [|s comps _] using rev_ind.
      + intros [= _ <- _]. reflexivity.
      + apply Forall_app in Hcomps as [Hinit Hlast].
        inversion Hlast as [|? ? Hs _]; subst.
        rewrite split_concat_snoc by assumption.
        intros [= _ <- _]. apply normalized_concat, Hinit. }
  unfold has_access. rewrite Huser, Haction.
  rewrite has_access_loop_normalized by assumption.
  destruct (nearest_registered_ancestor cfg dirname) as [D|]; [|reflexivity].
  unfold granted. rewrite Huser, Haction. reflexivity.
Qed.

Lemma resolved_directory_access_demo :
  has_access cfg_demo 2 "alice" "pub" FETCH
  = Return
      match nearest_registered_ancestor cfg_demo "pub" with
      | Some D => granted cfg_demo "alice" D FETCH
      | None => false
      end.
Proof.
  apply (resolved_directory_access "/" stat_demo cfg_demo "pub/x.bin"
           "/data/a/pub/x.bin" "pub" (Some "x.bin") "alice" FETCH alice_perm ["pub"] 2);
    [reflexivity | reflexivity | reflexivity | vm_compute; lia].
Defined.

(** ** The FTP adapter's checks *)

Lemma slice_from_length n (s : string) :
  (String.length (PyStr.slice_from n s) ≤ String.length s)%nat.
Proof.
  revert n. induction s as [|a s IH]; intros [|n]; simpl; try lia.
  specialize (IH n). lia.
Qed.

Lemma lstrip_length c (s : string) :
  (String.length (PyStr.lstrip c s) ≤ String.length s)%nat.
Proof.
  induction s as [|a s IH]; [reflexivity|]. cbn [PyStr.lstrip].
  destruct (PyStr.chr_eqb a c); simpl; lia.
Qed.

Lemma strip_path_length cfg (path : string) :
  (String.length (strip_path cfg path) ≤ String.length path)%nat.
Proof.
  unfold strip_path. destruct (PyStr.startswith path (basedir cfg)).
  - pose proof (lstrip_length posixpath.sep_chr
                  (PyStr.slice_from (String.length (basedir cfg)) path)).
    pose proof (slice_from_length (String.length (basedir cfg)) path). lia.
  - apply lstrip_length.
Qed.

(** X6. [strip_path] never leaves a leading separator, and it takes the
    root off as a plain string prefix: whatever follows the text of the
    root is kept, minus its leading separators, so a path under the root
    gives its relative name and the path of a sibling such as the root
    with [b/x] appended gives [b/x]. *)
Theorem strip_path_prefix cfg (path s : string) :
  PyStr.startswith (strip_path cfg path) posixpath.sep = false
  ∧ strip_path cfg (basedir cfg +:+ s) = PyStr.lstrip posixpath.sep_chr s.
Proof.
  split.
  - unfold strip_path. apply lstrip_relative.
  - unfold strip_path.
    assert (Hpre : PyStr.startswith (basedir cfg +:+ s) (basedir cfg) = true)
      by (apply startswith_spec; exists s; reflexivity).
    rewrite Hpre, slice_from_append. reflexivity.
Qed.

Example strip_path_under_root : strip_path cfg_demo "/data/a/pub/docs" = "pub/docs".
Proof. reflexivity. Qed.

Example strip_path_sibling : strip_path cfg_demo "/data/ab/x" = "b/x".
Proof. reflexivity. Qed.

Lemma has_access_raises_forbidden cfg fuel user (d : string) action e :
  has_access cfg fuel user d action = Raise e → e = AccessError 403 "forbidden".
Proof.
  unfold has_access, forbidden.
  destruct (user_perms cfg !! user) as [perms|]; [|congruence].
  destruct (action_dirs perms !! action) as [dirs|]; [|congruence].
  intros H. exfalso. exact (has_access_loop_no_raise _ _ _ _ _ H).
Qed.

Lemma ftp_has_access_exists cfg fuel user (path : string) (l : list Access) :
  (∀ A, A ∈ l → has_access cfg fuel user path A ≠ OutOfFuel) →
  ftp_has_access cfg fuel user path l
  = Return (existsb (fun A => returns_true (has_access cfg fuel user path A)) l).
Proof.
  induction l as [|A l IH]; intros Hfuel; [reflexivity|].
  assert (IH' := IH (fun B HB => Hfuel B (list_elem_of_further _ _ _ HB))).
  pose proof (Hfuel A (list_elem_of_here _ _)) as HA.
  simpl. destruct (has_access cfg fuel user path A) as [[|]|e|] eqn:E.
  - reflexivity.
  - exact IH'.
  - apply has_access_raises_forbidden in E as ->. exact IH'.
  - congruence.
Qed.

(** X7. The FTP wrapper [MyFilesystem.has_access] always answers with a
    boolean once the fuel exceeds the length of the path: it is true
    exactly when [has_access] returns true for one of the accesses asked
    for on the stripped path; an unknown user, for whom [has_access]
    raises, is answered false. *)
Theorem MyFilesystem_has_access_decides cfg fuel user (path : string) (l : list Access) :
  (String.length path < fuel)%nat →
  MyFilesystem_has_access cfg fuel user path l
  = Return (existsb (fun A => returns_true
                                (has_access cfg fuel user (strip_path cfg path) A)) l)
  ∧ (user_perms cfg !! user = None →
     MyFilesystem_has_access cfg fuel user path l = Return false).
Proof.
  intros Hfuel.
  assert (Hmain : MyFilesystem_has_access cfg fuel user path l
                  = Return (existsb (fun A => returns_true
                              (has_access cfg fuel user (strip_path cfg path) A)) l)).
  { unfold MyFilesystem_has_access. apply ftp_has_access_exists.
    intros A _. unfold has_access, forbidden.
    destruct (user_perms cfg !! user) as [perms|]; [|discriminate].
    destruct (action_dirs perms !! A) as [dirs|]; [|discriminate].
    destruct (has_access_loop_terminates cfg dirs fuel (strip_path cfg path)) as [b ->].
    - unfold strip_path. apply lstrip_relative.
    - pose proof (strip_path_length cfg path). lia.
    - discriminate. }
  split; [exact Hmain|].
  intros Hunknown. rewrite Hmain. f_equal. clear Hmain.
  induction l as [|A l IH]; [reflexivity|].
  simpl. unfold has_access at 1. rewrite Hunknown. exact IH.
Qed.

Lemma MyFilesystem_has_access_demo :
  MyFilesystem_has_access cfg_demo 20 "alice" "/data/a/pub/docs" [LIST; MKDIR; UPLOAD]
  = Return true.
Proof.
  refine (proj1 (MyFilesystem_has_access_decides cfg_demo 20 "alice" "/data/a/pub/docs"
                   [LIST; MKDIR; UPLOAD] _)).
  vm_compute. lia.
Defined.

(** ** Who [get_user] lets in *)








(** The other side of the coin: a colon in the user name makes the
    cookie split at the wrong place. *)
Example split_colon_once_in_name :
  split_colon_once "a:b:pw" = UserPassword "a" (Some "b:pw").
Proof. reflexivity. Qed.

(** ** What the mutating handlers change *)

(** X10. [upload_file] touches one path at most, the sanitized base name
    under the directory: every other path is as before; and when that
    path holds something readable, or a directory, or a file that is
    not writable, nothing is written at all. *)
Theorem upload_file_frame gvf cfg req (fs fs' : filesystem) user directory
    filename data resp :
  upload req = Some (filename, data) →
  upload_file gvf cfg req fs user directory = Return (resp, fs') →
  (∀ p, p ≠ upload_target gvf cfg directory filename → fs' !! p = fs !! p)
  ∧ (∀ n, fs !! upload_target gvf cfg directory filename = Some n →
          n_readable n = true ∨ n_isdir n = true ∨ n_writable n = false →
          fs' = fs)
  ∧ (fs' ≠ fs →
     n_data <$> fs' !! upload_target gvf cfg directory filename = Some data
     ∧ resp = redirect_handle directory
                (PyStr.str_of_int (Z.of_nat (length data)) +:+ " bytes saved as "
                 +:+ gvf (basename filename))).
Proof.
  intros Hup. unfold upload_file. rewrite Hup.
  fold (upload_target gvf cfg directory filename).
  set (target := upload_target gvf cfg directory filename).
  destruct (negb _); [intros [= <- <-]; repeat split; congruence|].
  unfold os_access_R_OK, file_save, os_getsize.
  destruct (fs !! target) as [n|] eqn:Hn.
  - destruct (n_readable n) eqn:Hr; [intros [= <- <-]; repeat split; congruence|].
    destruct (n_isdir n) eqn:Hd; [discriminate|].
    destruct (n_writable n) eqn:Hw; [|discriminate].
    simpl. rewrite lookup_insert_eq. simpl. intros [= <- <-].
    split; [intros p Hp; apply lookup_insert_ne; congruence|].
    split.
    + intros n' [= <-] [H|[H|H]]; congruence.
    + intros _. rewrite lookup_insert_eq. split; reflexivity.
  - simpl. rewrite lookup_insert_eq. simpl. intros [= <- <-].
    split; [intros p Hp; apply lookup_insert_ne; congruence|].
    split; [discriminate|].
    intros _. rewrite lookup_insert_eq. split; reflexivity.
Qed.

Lemma upload_file_frame_fresh :
  ∃ fs',
    upload_file keep_name cfg_demo upload_fresh fs_demo "alice" "pub"
    = Return (redirect_handle "pub" "3 bytes saved as report.txt", fs')
    ∧ (∀ p, p ≠ "/data/a/pub/report.txt" → fs' !! p = fs_demo !! p)
    ∧ n_data <$> fs' !! "/data/a/pub/report.txt" = Some [Byte.x61; Byte.x62; Byte.x63].
Proof.
  eexists. split; [vm_compute; reflexivity|].
  destruct (upload_file_frame keep_name cfg_demo upload_fresh fs_demo _ "alice" "pub"
              "C:/docs/report.txt" [Byte.x61; Byte.x62; Byte.x63] _
              eq_refl eq_refl) as [Hframe [_ Hsaved]].
  split; [exact Hframe|].
  apply Hsaved. intros E.
  apply (f_equal (fun m : filesystem => m !! "/data/a/pub/report.txt")) in E.
  vm_compute in E. discriminate E.
Defined.

(** X11. [delete_file] always answers, and with one of two outcomes.
    Either it removed the one file under the directory, which was there
    and was no directory, and answers with the redirect; or it answers
    403 "permission denied" and the file system is as before. No other
    path changes, and a directory is never removed. *)
Theorem delete_file_outcome cfg (fs : filesystem) user dirname filename :
  ∃ resp fs',
    delete_file cfg fs user dirname filename = Return (resp, fs')
    ∧ (∀ p, p ≠ target_under cfg dirname filename → fs' !! p = fs !! p)
    ∧ ((resp = redirect_handle dirname
                 ("File " +:+ posixpath.join dirname filename +:+ " deleted")
        ∧ (∃ n, fs !! target_under cfg dirname filename = Some n ∧ n_isdir n = false)
        ∧ fs' !! target_under cfg dirname filename = None)
       ∨ (resp = Response "permission denied" 403 ∧ fs' = fs)).
Proof.
  unfold delete_file, os_remove. fold (target_under cfg dirname filename).
  set (target := target_under cfg dirname filename).
  destruct (fs !! target) as [n|] eqn:Hn.
  - destruct (n_isdir n) eqn:Hd.
    + eexists. eexists. split; [reflexivity|]. split; [reflexivity|].
      right. split; reflexivity.
    + eexists. eexists. split; [reflexivity|].
      split; [intros p Hp; apply lookup_delete_ne; congruence|].
      left. split; [reflexivity|]. split; [exists n; split; [reflexivity | exact Hd]|].
      apply lookup_delete_eq.
  - eexists. eexists. split; [reflexivity|]. split; [reflexivity|].
    right. split; reflexivity.
Qed.



(** ** What [handle] does, and for whom *)

Lemma bind_return_inv {A B : Type} (m : result A) (k : A → result B) (b : B) :
  m ≫= k = Return b → ∃ a, m = Return a ∧ k a = Return b.
Proof. destruct m as [a|e|]; [|discriminate..]. intros H. exists a. split; [reflexivity | exact H]. Qed.

Ltac inv_bind H :=
  let a := fresh "a" in
  let Ha := fresh "Ha" in
  apply bind_return_inv in H as [a [Ha H]];
  repeat match type of H with
         | context [let '(_, _) := ?p in _] => destruct p
         | context [if negb ?b then _ else _] =>
             destruct b; cbn [negb] in H; try discriminate H
         end.

Ltac case_if H C :=
  match type of H with
  | (if ?c then _ else _) = _ => destruct c eqn:C
  end.

(** X13. [handle] changes the file system only through an action that
    the signed-in user is granted on the resolved directory: when the
    file system after a request differs from the one before, the
    action was an upload, a deletion or a directory creation, and
    [has_access] returned true for that very action, for the user that
    [get_user] settled on and the directory that [normalize_path]
    resolved. *)
Theorem handle_changes_need_grant enc dec gvf guess os cfg req fuel
    (fs fs' : filesystem) path resp :
  handle enc dec gvf guess os cfg req fuel fs path = Return (resp, fs') →
  fs' ≠ fs →
  ∃ user password cred fullname dirname fname,
    get_user enc dec cfg req = Return (user, password, cred)
    ∧ normalize_path (os_getcwd os) (os_stat os) cfg path = Return (fullname, dirname, fname)
    ∧ ((form_action req = Some "upload" ∧ fname = None
        ∧ has_access cfg fuel user dirname UPLOAD = Return true)
       ∨ (form_action req = Some "delete" ∧ fname ≠ None
          ∧ has_access cfg fuel user dirname DELETE = Return true)
       ∨ (form_action req = Some "mkdir" ∧ fname = None
          ∧ has_access cfg fuel user dirname MKDIR = Return true)).
Proof.
  intros H Hne. unfold handle in H.
  apply bind_return_inv in H as [[[user password] cred] [Huser H]].
  apply bind_return_inv in H as [[[fullname dirname] fname] [Hpath H]].
  apply bind_return_inv in H as [[resp0 fs0] [Ha1 H]].
  injection H as <- <-.
  exists user, password, cred, fullname, dirname, fname.
  split; [exact Huser|]. split; [exact Hpath|].
  case_if Ha1 C1.
  { repeat inv_bind Ha1; injection Ha1 as _ E; congruence. }
  case_if Ha1 C2.
  { apply andb_true_iff in C2 as [Hf Hact].
    apply bool_decide_eq_true_1 in Hf, Hact.
    inv_bind Ha1. destruct a; [|discriminate Ha1].
    left. auto. }
  case_if Ha1 C3.
  { apply andb_true_iff in C3 as [Hf Hact].
    apply bool_decide_eq_true_1 in Hact.
    inv_bind Ha1. destruct a; [|discriminate Ha1].
    right. left. split; [exact Hact|]. split; [|assumption].
    destruct fname; [discriminate | discriminate Hf]. }
  case_if Ha1 C4.
  { apply andb_true_iff in C4 as [Hf Hact].
    apply bool_decide_eq_true_1 in Hf, Hact.
    inv_bind Ha1. destruct a; [|discriminate Ha1].
    right. right. auto. }
  case_if Ha1 C5; [|discriminate Ha1].
  inv_bind Ha1. destruct a; [|discriminate Ha1].
  inv_bind Ha1. injection Ha1 as _ E. congruence.
Qed.

Lemma handle_changes_need_grant_upload :
  ∃ user password cred fullname dirname fname,
    get_user plain_encode plain_decode cfg_demo upload_fresh
    = Return (user, password, cred)
    ∧ normalize_path (os_getcwd os_demo) (os_stat os_demo) cfg_demo "pub"
      = Return (fullname, dirname, fname)
    ∧ ((form_action upload_fresh = Some "upload" ∧ fname = None
        ∧ has_access cfg_demo 4 user dirname UPLOAD = Return true)
       ∨ (form_action upload_fresh = Some "delete" ∧ fname ≠ None
          ∧ has_access cfg_demo 4 user dirname DELETE = Return true)
       ∨ (form_action upload_fresh = Some "mkdir" ∧ fname = None
          ∧ has_access cfg_demo 4 user dirname MKDIR = Return true)).
Proof.
  eassert (E : handle plain_encode plain_decode keep_name no_guess os_demo cfg_demo
                 upload_fresh 4 fs_demo "pub" = Return (_, _))
    by (vm_compute; reflexivity).
  apply (handle_changes_need_grant _ _ _ _ _ _ _ _ _ _ _ _ E).
  intros Heq.
  apply (f_equal (fun m : filesystem => m !! "/data/a/pub/report.txt")) in Heq.
  vm_compute in Heq. discriminate Heq.
Defined.

Lemma upload_file_body gvf cfg req (fs fs' : filesystem) user directory resp :
  upload_file gvf cfg req fs user directory = Return (resp, fs') →
  (∃ t, r_body resp = RedirectTo t) ∨ (∃ s, r_body resp = Text s).
Proof.
  unfold upload_file. destruct (upload req) as [[filename data]|]; [|discriminate].
  destruct (negb _); [intros [= <- _]; left; eexists; reflexivity|].
  destruct (os_access_R_OK _ _); [intros [= <- _]; right; eexists; reflexivity|].
  intros H. inv_bind H. inv_bind H. injection H as <- _. left. eexists. reflexivity.
Qed.

Lemma delete_file_body cfg (fs fs' : filesystem) user dirname filename resp :
  delete_file cfg fs user dirname filename = Return (resp, fs') →
  (∃ t, r_body resp = RedirectTo t) ∨ (∃ s, r_body resp = Text s).
Proof.
  unfold delete_file. destruct (os_remove _ _); intros [= <- _];
    [left | right | right]; eexists; reflexivity.
Qed.

Lemma make_dir_body gvf cfg req (fs fs' : filesystem) user dirname resp :
  make_dir gvf cfg req fs user dirname = Return (resp, fs') →
  (∃ t, r_body resp = RedirectTo t) ∨ (∃ s, r_body resp = Text s).
Proof.
  unfold make_dir. destruct (form_dirname req); [|discriminate].
  destruct (os_makedirs _ _); intros [= <- _];
    [left | right | right]; eexists; reflexivity.
Qed.

Lemma streamfile_body guess req (fs : filesystem) fullname resp :
  streamfile guess req fs fullname = Return resp →
  r_body resp = WholeFile fullname
  ∨ ∃ start len, r_body resp = Chunks {| it_filename := fullname;
                                          it_start := start; it_length := len |}.
Proof.
  unfold streamfile.
  destruct (range_header req) as [h|]; [|intros [= <-]; left; reflexivity].
  destruct (negb _); [intros [= <-]; left; reflexivity|].
  intros H. inv_bind H.
  destruct (re_search_range h) as [[g0 g1]|]; [|discriminate].
  injection H as <-. right. eexists. eexists. reflexivity.
Qed.

(** X14. [handle] hands out the bytes of a file only to a user who may
    fetch them: when the body of its response is a file, whole or in
    chunks, that file is the regular file that [normalize_path]
    resolved, and [has_access] returned true for [FETCH] for the user
    of [get_user] on the directory of that file. *)
Theorem handle_serves_files_with_fetch enc dec gvf guess os cfg req fuel
    (fs fs' : filesystem) path resp :
  handle enc dec gvf guess os cfg req fuel fs path = Return (resp, fs') →
  (∃ f, r_body resp = WholeFile f) ∨ (∃ it, r_body resp = Chunks it) →
  ∃ user password cred fullname dirname f,
    get_user enc dec cfg req = Return (user, password, cred)
    ∧ normalize_path (os_getcwd os) (os_stat os) cfg path
      = Return (fullname, dirname, Some f)
    ∧ has_access cfg fuel user dirname FETCH = Return true
    ∧ (r_body resp = WholeFile fullname
       ∨ ∃ start len, r_body resp = Chunks {| it_filename := fullname;
                                               it_start := start; it_length := len |}).
Proof.
  intros H Hbody. unfold handle in H.
  apply bind_return_inv in H as [[[user password] cred] [Huser H]].
  apply bind_return_inv in H as [[[fullname dirname] fname] [Hpath H]].
  apply bind_return_inv in H as [[resp0 fs0] [Ha1 H]].
  injection H as <- <-.
  assert (Hbody0 : (∃ f, r_body resp0 = WholeFile f) ∨ (∃ it, r_body resp0 = Chunks it))
    by exact Hbody.
  clear Hbody.
  assert (Hother : ∀ r : response,
            (∃ t, r_body r = RedirectTo t) ∨ (∃ s, r_body r = Text s) →
            (∃ f, r_body r = WholeFile f) ∨ (∃ it, r_body r = Chunks it) → False).
  { intros r [[t Ht]|[s Hs]] [[f Hf]|[it Hit]]; congruence. }
  case_if Ha1 C1.
  { repeat inv_bind Ha1; injection Ha1 as <- _;
      destruct Hbody0 as [[f Hf]|[it Hit]]; discriminate. }
  case_if Ha1 C2.
  { inv_bind Ha1. destruct a; [|discriminate Ha1].
    exfalso. exact (Hother _ (upload_file_body _ _ _ _ _ _ _ _ Ha1) Hbody0). }
  case_if Ha1 C3.
  { inv_bind Ha1. destruct a; [|discriminate Ha1].
    exfalso. exact (Hother _ (delete_file_body _ _ _ _ _ _ _ Ha1) Hbody0). }
  case_if Ha1 C4.
  { inv_bind Ha1. destruct a; [|discriminate Ha1].
    exfalso. exact (Hother _ (make_dir_body _ _ _ _ _ _ _ _ Ha1) Hbody0). }
  case_if Ha1 C5; [|discriminate Ha1].
  inv_bind Ha1. destruct a; [|discriminate Ha1].
  inv_bind Ha1. injection Ha1 as <- _.
  apply andb_true_iff in C5 as [Hf _].
  destruct fname as [f|]; [|discriminate Hf].
  exists user, password, cred, fullname, dirname, f.
  split; [exact Huser|]. split; [exact Hpath|]. split; [exact Ha|].
  apply (streamfile_body _ _ _ _ _ Ha0).
Qed.

Lemma handle_serves_files_with_fetch_alice :
  ∃ user password cred fullname dirname f,
    get_user plain_encode plain_decode cfg_demo (alice_range_request "bytes=0-99")
    = Return (user, password, cred)
    ∧ normalize_path (os_getcwd os_demo) (os_stat os_demo) cfg_demo "pub/x.bin"
      = Return (fullname, dirname, Some f)
    ∧ has_access cfg_demo 4 user dirname FETCH = Return true
    ∧ (r_body (add_header "Set-Cookie" "cred=alice:secret"
                 (add_header "Content-Range" "bytes 0-99/1000"
                    {| r_status := 206; r_headers := [];
                       r_mimetype := Some "application/octet-stream";
                       r_body := Chunks {| it_filename := "/data/a/pub/x.bin";
                                           it_start := 0; it_length := 100 |} |}))
       = WholeFile fullname
       ∨ ∃ start len,
           r_body (add_header "Set-Cookie" "cred=alice:secret"
                     (add_header "Content-Range" "bytes 0-99/1000"
                        {| r_status := 206; r_headers := [];
                           r_mimetype := Some "application/octet-stream";
                           r_body := Chunks {| it_filename := "/data/a/pub/x.bin";
                                               it_start := 0; it_length := 100 |} |}))
           = Chunks {| it_filename := fullname; it_start := start; it_length := len |}).
Proof.
  apply (handle_serves_files_with_fetch plain_encode plain_decode keep_name no_guess
           os_demo cfg_demo (alice_range_request "bytes=0-99") 4 fs_demo fs_demo
           "pub/x.bin").
  - vm_compute. reflexivity.
  - right. eexists. reflexivity.
Defined.

Lemma bind_raise_inv {A B : Type} (m : result A) (k : A → result B) (e : exn) :
  m ≫= k = Raise e → m = Raise e ∨ ∃ a, m = Return a ∧ k a = Raise e.
Proof.
  destruct m as [a|e'|]; [|intros [= ->]; left; reflexivity | discriminate].
  intros H. right. exists a. split; [reflexivity | exact H].
Qed.

Lemma may_enter_raises cfg fuel user (d : string) e :
  may_enter cfg fuel user d = Raise e → e = AccessError 403 "forbidden".
Proof.
  unfold may_enter. intros H.
  apply bind_raise_inv in H as [H | [[|] [_ H]]];
    [exact (has_access_raises_forbidden _ _ _ _ _ _ H) | discriminate |].
  apply bind_raise_inv in H as [H | [[|] [_ H]]];
    [exact (has_access_raises_forbidden _ _ _ _ _ _ H) | discriminate |].
  exact (has_access_raises_forbidden _ _ _ _ _ _ H).
Qed.

Lemma filter_subdirs_raises cfg fuel user (d : string) (copy subdirs : list string) e :
  filter_subdirs cfg fuel user d copy subdirs = Raise e → e = AccessError 403 "forbidden".
Proof.
  revert subdirs. induction copy as [|x copy IH]; intros subdirs; [discriminate|].
  simpl. intros H. apply bind_raise_inv in H as [H | [ok [_ H]]].
  - exact (may_enter_raises _ _ _ _ _ H).
  - exact (IH _ H).
Qed.

Lemma filter_file_list_raises cfg fuel user (d : string) (subdirs files : list string) e :
  filter_file_list cfg fuel user d subdirs files = Raise e →
  e = AccessError 403 "forbidden".
Proof.
  unfold filter_file_list. intros H.
  apply bind_raise_inv in H as [H | [l [_ H]]];
    [exact (has_access_raises_forbidden _ _ _ _ _ _ H)|].
  apply bind_raise_inv in H as [H | [l' [_ H]]]; [|discriminate].
  exact (filter_subdirs_raises _ _ _ _ _ _ _ H).
Qed.

Lemma get_user_raises enc dec cfg req e :
  get_user enc dec cfg req = Raise e → e = ValueError ∨ e = UnicodeEncodeError.
Proof.
  unfold get_user. destruct (get_user_from_request dec req) as [u pw|item].
  - destruct (bool_decide _); [|discriminate].
    destruct (is_ascii _); [discriminate|]. intros [= <-]. right. reflexivity.
  - intros [= <-]. left. reflexivity.
Qed.

Lemma upload_file_raises gvf cfg req (fs : filesystem) user directory e :
  upload_file gvf cfg req fs user directory = Raise e → e = KeyError ∨ e = OSError.
Proof.
  unfold upload_file. destruct (upload req) as [[filename data]|];
    [|intros [= <-]; left; reflexivity].
  destruct (negb _); [discriminate|].
  destruct (os_access_R_OK _ _); [discriminate|].
  intros H. right.
  apply bind_raise_inv in H as [H | [fs1 [_ H]]].
  - unfold file_save in H. destruct (fs !! _) as [n|]; [|discriminate].
    destruct (_ || _); [congruence | discriminate].
  - apply bind_raise_inv in H as [H | [size [_ H]]]; [|discriminate].
    unfold os_getsize in H. destruct (fs1 !! _); [discriminate | congruence].
Qed.

Lemma delete_file_no_raise cfg (fs : filesystem) user dirname filename e :
  delete_file cfg fs user dirname filename ≠ Raise e.
Proof. unfold delete_file. destruct (os_remove _ _); discriminate. Qed.

Lemma make_dir_raises gvf cfg req (fs : filesystem) user dirname e :
  make_dir gvf cfg req fs user dirname = Raise e → e = KeyError.
Proof.
  unfold make_dir. destruct (form_dirname req); [|congruence].
  destruct (os_makedirs _ _); discriminate.
Qed.

Lemma streamfile_raises guess req (fs : filesystem) fullname e :
  streamfile guess req fs fullname = Raise e → e = OSError ∨ e = AttributeError.
Proof.
  unfold streamfile. destruct (range_header req) as [h|]; [|discriminate].
  destruct (negb _); [discriminate|]. intros H.
  apply bind_raise_inv in H as [H | [size [_ H]]].
  - unfold os_getsize in H. destruct (fs !! _); [discriminate|]. left. congruence.
  - destruct (re_search_range h) as [[g0 g1]|]; [discriminate|]. right. congruence.
Qed.

Lemma list_dir_raises os dirname e :
  list_dir os dirname = Raise e → os_listdir os dirname = Raise e.
Proof.
  unfold list_dir. intros H.
  apply bind_raise_inv in H as [H | [names [_ H]]]; [exact H | discriminate].
Qed.

(** X15. The denials of [handle] are of two kinds only. Provided that
    [os.listdir] raises no [AccessError] of its own, every [AccessError]
    that [handle] raises carries the message "forbidden" and the code
    403, except the code 401, which is raised for one reason: the path
    resolved to a directory, the action was a listing, and the user had
    none of [LIST], [UPLOAD] and [MKDIR] on that directory. *)
Theorem handle_denials enc dec gvf guess os cfg req fuel (fs : filesystem) path
    code message :
  (∀ d c m, os_listdir os d ≠ Raise (AccessError c m)) →
  handle enc dec gvf guess os cfg req fuel fs path = Raise (AccessError code message) →
  message = "forbidden"
  ∧ (code = 403
     ∨ (code = 401
        ∧ (form_action req = None ∨ form_action req = Some "list")
        ∧ ∃ user password cred fullname dirname,
            get_user enc dec cfg req = Return (user, password, cred)
            ∧ normalize_path (os_getcwd os) (os_stat os) cfg path
              = Return (fullname, dirname, None)
            ∧ may_enter cfg fuel user dirname = Return false)).
Proof.
  intros Hlistdir H. unfold handle in H.
  assert (Hforbidden : ∀ (Q : Prop) e, e = AccessError 403 "forbidden" →
                       e = AccessError code message →
                       message = "forbidden" ∧ (code = 403 ∨ Q)).
  { intros Q e -> [= <- <-]. split; [reflexivity | left; reflexivity]. }
  apply bind_raise_inv in H as [H | [[[user password] cred] [Huser H]]].
  { apply get_user_raises in H as [H|H]; discriminate H. }
  apply bind_raise_inv in H as [H | [[[fullname dirname] fname] [Hpath H]]].
  { exact (Hforbidden _ _ (normalize_path_raises_forbidden _ _ _ _ _ H) eq_refl). }
  apply bind_raise_inv in H as [H | [[resp0 fs0] [_ H]]]; [|discriminate H].
  case_if H C1.
  { apply andb_true_iff in C1 as [Hf Hact]. apply bool_decide_eq_true_1 in Hf.
    apply orb_true_iff in Hact.
    apply bind_raise_inv in H as [H | [ok [Hok H]]].
    { exact (Hforbidden _ _ (may_enter_raises _ _ _ _ _ H) eq_refl). }
    destruct ok; cbn [negb] in H.
    - apply bind_raise_inv in H as [H | [[subdirs files] [_ H]]].
      { apply list_dir_raises in H. exfalso. exact (Hlistdir _ _ _ H). }
      apply bind_raise_inv in H as [H | [[subdirs' files'] [_ H]]].
      { exact (Hforbidden _ _ (filter_file_list_raises _ _ _ _ _ _ _ H) eq_refl). }
      repeat (apply bind_raise_inv in H as [H | [? [_ H]]];
              [exact (Hforbidden _ _ (has_access_raises_forbidden _ _ _ _ _ _ H) eq_refl)|]).
      discriminate H.
    - injection H as <- <-. split; [reflexivity|]. right.
      split; [reflexivity|]. split.
      + destruct Hact as [Hact|Hact]; apply bool_decide_eq_true_1 in Hact; auto.
      + subst fname. exists user, password, cred, fullname, dirname. auto. }
  case_if H C2.
  { apply bind_raise_inv in H as [H | [ok [_ H]]].
    { exact (Hforbidden _ _ (has_access_raises_forbidden _ _ _ _ _ _ H) eq_refl). }
    destruct ok;
      [|injection H as <- <-; split; [reflexivity | left; reflexivity]].
    apply upload_file_raises in H as [H|H]; discriminate H. }
  case_if H C3.
  { apply bind_raise_inv in H as [H | [ok [_ H]]].
    { exact (Hforbidden _ _ (has_access_raises_forbidden _ _ _ _ _ _ H) eq_refl). }
    destruct ok;
      [|injection H as <- <-; split; [reflexivity | left; reflexivity]].
    exfalso. exact (delete_file_no_raise _ _ _ _ _ _ H). }
  case_if H C4.
  { apply bind_raise_inv in H as [H | [ok [_ H]]].
    { exact (Hforbidden _ _ (has_access_raises_forbidden _ _ _ _ _ _ H) eq_refl). }
    destruct ok;
      [|injection H as <- <-; split; [reflexivity | left; reflexivity]].
    apply make_dir_raises in H. discriminate H. }
  case_if H C5; [|discriminate H].
  apply bind_raise_inv in H as [H | [ok [_ H]]].
  { exact (Hforbidden _ _ (has_access_raises_forbidden _ _ _ _ _ _ H) eq_refl). }
  destruct ok;
      [|injection H as <- <-; split; [reflexivity | left; reflexivity]].
  apply bind_raise_inv in H as [H | [r [_ H]]]; [|discriminate H].
  apply streamfile_raises in H as [H|H]; discriminate H.
Qed.

Lemma handle_denials_root_listing :
  "forbidden" = "forbidden"
  ∧ (401 = 403
     ∨ (401 = 401
        ∧ (form_action no_credentials = None ∨ form_action no_credentials = Some "list")
        ∧ ∃ user password cred fullname dirname,
            get_user plain_encode plain_decode cfg_demo no_credentials
            = Return (user, password, cred)
            ∧ normalize_path (os_getcwd os_demo) (os_stat os_demo) cfg_demo ""
              = Return (fullname, dirname, None)
            ∧ may_enter cfg_demo 4 user dirname = Return false)).
Proof.
  apply (handle_denials plain_encode plain_decode keep_name no_guess os_demo cfg_demo
           no_credentials 4 fs_demo "" 401 "forbidden").
  - intros d c m. discriminate.
  - vm_compute. reflexivity.
Defined.

(** ** Listings *)

Lemma list_dir_fold os dirname (names dirs files : list string) :
  fold_left
    (fun '(dirs, files) n =>
       if PyStr.startswith n "." then (dirs, files)
       else
         match os_stat os (posixpath.join dirname n) with
         | StatOk sr =>
             if negb (st_uid sr =? os_geteuid os) then (dirs, files)
             else
               let dirs := if S_ISDIR (st_mode sr) then dirs ++ [n] else dirs in
               let files := if S_ISREG (st_mode sr) then files ++ [n] else files in
               (dirs, files)
         | _ => (dirs, files)
         end)
    names (dirs, files)
  = (dirs ++ List.filter (listed os dirname true) names,
     files ++ List.filter (listed os dirname false) names).
Proof.
  revert dirs files. induction names as [|n names IH]; intros dirs files.
  - simpl. rewrite !app_nil_r. reflexivity.
  - cbn [fold_left List.filter].
    assert (Hlisted : ∀ as_dir, listed os dirname as_dir n
              = negb (PyStr.startswith n ".")
                && match os_stat os (posixpath.join dirname n) with
                   | StatOk sr =>
                       (st_uid sr =? os_geteuid os)
                       && (if as_dir then S_ISDIR (st_mode sr) else S_ISREG (st_mode sr))
                   | _ => false
                   end) by reflexivity.
    rewrite !Hlisted. clear Hlisted.
    destruct (PyStr.startswith n "."); cbn [negb andb]; [apply IH|].
    destruct (os_stat os (posixpath.join dirname n)) as [sr| |]; try apply IH.
    destruct (st_uid sr =? os_geteuid os); cbn [negb andb]; [|apply IH].
    rewrite IH.
    destruct (S_ISDIR (st_mode sr)), (S_ISREG (st_mode sr));
      rewrite <- ?app_assoc; reflexivity.
Qed.

(** X16. [list_dir] returns the names of [os.listdir] in their order,
    without the names that begin with a dot, the names on which
    [os.stat] fails and the names that the server's effective user does
    not own; the directories among the rest come first, the regular
    files second, and a name of any other type is in neither list. *)
Theorem list_dir_filters os dirname (names : list string) :
  os_listdir os dirname = Return names →
  list_dir os dirname
  = Return (List.filter (listed os dirname true) names,
            List.filter (listed os dirname false) names).
Proof.
  intros Hnames. unfold list_dir. rewrite Hnames. cbn [mbind result_bind].
  rewrite list_dir_fold. reflexivity.
Qed.

Lemma list_dir_filters_demo :
  list_dir os_listing "/data/a/pub" = Return (["sub"], ["x.bin"]).
Proof.
  apply (list_dir_filters os_listing "/data/a/pub"
           ["x.bin"; ".hidden"; "gone"; "sub"; "foreign"]).
  reflexivity.
Defined.

Lemma list_remove_skip (x : string) (kept rest : list string) :
  x ∉ kept → list_remove x (kept ++ x :: rest) = kept ++ rest.
Proof.
  induction kept as [|y kept IH]; intros Hx.
  - simpl. rewrite String.eqb_refl. reflexivity.
  - simpl. destruct (String.eqb_spec x y) as [->|Hne].
    + exfalso. apply Hx. left.
    + rewrite IH; [reflexivity|]. intros Hin. apply Hx. right. exact Hin.
Qed.

Lemma filter_subdirs_filter cfg fuel user dirname (ok : string → bool)
    (rest kept : list string) :
  (∀ d, d ∈ rest → may_enter cfg fuel user (posixpath.join dirname d) = Return (ok d)) →
  (∀ d, d ∈ kept → ok d = true) →
  filter_subdirs cfg fuel user dirname rest (kept ++ rest)
  = Return (kept ++ List.filter ok rest).
Proof.
  revert kept. induction rest as [|x rest IH]; intros kept Hrest Hkept.
  - reflexivity.
  - cbn [filter_subdirs List.filter].
    rewrite (Hrest x) by left. cbn [mbind result_bind].
    destruct (ok x) eqn:Hx.
    + replace (kept ++ x :: rest) with ((kept ++ [x]) ++ rest)
        by (rewrite <- app_assoc; reflexivity).
      rewrite IH.
      * rewrite <- app_assoc. reflexivity.
      * intros d Hd. apply Hrest. right. exact Hd.
      * intros d Hd. apply elem_of_app in Hd as [Hd|Hd]; [apply Hkept, Hd|].
        apply list_elem_of_singleton in Hd as ->. exact Hx.
    + rewrite list_remove_skip.
      * apply IH; [|exact Hkept]. intros d Hd. apply Hrest. right. exact Hd.
      * intros Hin. apply Hkept in Hin. congruence.
Qed.

(** X17. [filter_file_list] shows what the user may see and nothing
    else: the files, sorted, when the user has [LIST] on the directory
    and none otherwise; and of the subdirectories, sorted, exactly those
    on which the user has [LIST], [UPLOAD] or [MKDIR]. *)
Theorem filter_file_list_shows cfg fuel user dirname (ok : string → bool) (l : bool)
    (subdirs files : list string) :
  has_access cfg fuel user dirname LIST = Return l →
  (∀ d, d ∈ subdirs →
        may_enter cfg fuel user (posixpath.join dirname d) = Return (ok d)) →
  filter_file_list cfg fuel user dirname subdirs files
  = Return (List.filter ok (merge_sort String.le subdirs),
            if l then merge_sort String.le files else []).
Proof.
  intros Hlist Hsub. unfold filter_file_list. rewrite Hlist. cbn [mbind result_bind].
  change (merge_sort String.le subdirs) with ([] ++ merge_sort String.le subdirs) at 2.
  rewrite (filter_subdirs_filter cfg fuel user dirname ok
             (merge_sort String.le subdirs) []).
  - reflexivity.
  - intros d Hd. apply Hsub. rewrite <- (merge_sort_Permutation String.le subdirs).
    exact Hd.
  - intros d Hd. inversion Hd.
Qed.

Lemma filter_file_list_shows_root :
  filter_file_list cfg_demo 12 "alice" "" ["secret"; "pub"] ["b.txt"; "a.txt"]
  = Return (List.filter (String.eqb "pub") (merge_sort String.le ["secret"; "pub"]),
            if false then merge_sort String.le ["b.txt"; "a.txt"] else []).
Proof.
  apply (filter_file_list_shows cfg_demo 12 "alice" "" (String.eqb "pub") false).
  - reflexivity.
  - intros d Hd.
    apply list_elem_of_In in Hd. simpl in Hd.
    destruct Hd as [<- | [<- | []]]; reflexivity.
Defined.

Example filter_file_list_root :
  filter_file_list cfg_demo 12 "alice" "" ["secret"; "pub"] ["b.txt"; "a.txt"]
  = Return (["pub"], []).
Proof. vm_compute. reflexivity. Qed.
(** *** The policy of [compute_permissions] *)

Lemma section_name (p s u : string) :
  PyStr.startswith s p = true ∧ PyStr.slice_from (String.length p) s = u ↔ s = p +:+ u.
Proof.
  split.
  - intros [H <-]. apply startswith_spec in H as [rest ->].
    rewrite slice_from_append. reflexivity.
  - intros ->. split; [apply startswith_spec; eauto | apply slice_from_append].
Qed.

Lemma add_users_lookup dec conf sections up0 up u :
  add_users dec conf sections up0 = Some up →
  ("user:" +:+ u ∈ sections →
     ∃ c, mk_creds dec conf ("user:" +:+ u) = Some c
          ∧ up !! u = Some {| creds := Some c; action_dirs := init_actions |})
  ∧ ("user:" +:+ u ∉ sections → up !! u = up0 !! u).
Proof.
  revert up0. induction sections as [|section rest IH]; intros up0 H.
  - injection H as <-. split; [intros Hin; inversion Hin | reflexivity].
  - cbn [add_users] in H.
    destruct (PyStr.startswith section "user:") eqn:Hs.
    + destruct (mk_creds dec conf section) as [c|] eqn:Hc; [|discriminate].
      cbn [mbind option_bind] in H. destruct (IH _ H) as [IH1 IH2].
      destruct (decide ("user:" +:+ u ∈ rest)) as [Hin|Hnin].
      * split; [intros _; exact (IH1 Hin)|]. intros Hn. exfalso. apply Hn. right. exact Hin.
      * destruct (decide (section = "user:" +:+ u)) as [->|Hne].
        -- split; [|intros Hn; exfalso; apply Hn; left].
           intros _. exists c. split; [exact Hc|]. rewrite (IH2 Hnin).
           change 5%nat with (String.length "user:"). rewrite slice_from_append.
           apply lookup_insert_eq.
        -- split.
           ++ intros Hin. apply elem_of_cons in Hin as [Heq|Hin]; [congruence|contradiction].
           ++ intros _. rewrite (IH2 Hnin). apply lookup_insert_ne.
              intros Heq. apply Hne. apply section_name. split; [exact Hs|exact Heq].
    + destruct (IH _ H) as [IH1 IH2]. split.
      * intros Hin. apply elem_of_cons in Hin as [Heq|Hin]; [|exact (IH1 Hin)].
        subst section. exfalso.
        assert (PyStr.startswith ("user:" +:+ u) "user:" = true)
          by (apply startswith_spec; eauto). congruence.
      * intros Hn. apply IH2. intros Hin. apply Hn. right. exact Hin.
Qed.

Lemma perm_extends_iff G G' p0 p :
  (∀ A D, G A D ↔ G' A D) → perm_extends G p0 p → perm_extends G' p0 p.
Proof.
  intros HG [Hc Hd]. split; [exact Hc|]. intros A l0 Hl0.
  destruct (Hd A l0 Hl0) as [l [Hl Hiff]]. exists l. split; [exact Hl|].
  intros D. rewrite Hiff, HG. reflexivity.
Qed.

Lemma perm_extends_refl p : perm_extends (λ _ _, False) p p.
Proof.
  split; [reflexivity|]. intros A l0 Hl0. exists l0. split; [exact Hl0|]. tauto.
Qed.

Lemma perm_extends_trans G1 G2 p0 p1 p2 :
  perm_extends G1 p0 p1 → perm_extends G2 p1 p2 →
  perm_extends (λ A D, G1 A D ∨ G2 A D) p0 p2.
Proof.
  intros [Hc1 Hd1] [Hc2 Hd2]. split; [congruence|]. intros A l0 Hl0.
  destruct (Hd1 A l0 Hl0) as [l1 [Hl1 Hiff1]].
  destruct (Hd2 A l1 Hl1) as [l2 [Hl2 Hiff2]].
  exists l2. split; [exact Hl2|]. intros D. rewrite Hiff2, Hiff1. tauto.
Qed.

Lemma perm_extends_append_dir access dir_name p :
  perm_extends (λ A D, A = access ∧ D = dir_name) p (append_dir access dir_name p).
Proof.
  split; [reflexivity|]. intros A l0 Hl0. unfold append_dir. cbn [action_dirs].
  destruct (decide (access = A)) as [->|Hne].
  - rewrite lookup_alter_eq, Hl0. eexists. split; [reflexivity|].
    intros D. rewrite elem_of_app, list_elem_of_singleton. tauto.
  - rewrite lookup_alter_ne by exact Hne. exists l0. split; [exact Hl0|].
    intros D. split; [tauto|]. intros [H|[H _]]; [exact H|congruence].
Qed.

Lemma perms_extend_iff G G' up0 up :
  (∀ u A D, G u A D ↔ G' u A D) → perms_extend G up0 up → perms_extend G' up0 up.
Proof.
  intros HG H u. specialize (H u). destruct (up0 !! u); [|exact H].
  destruct H as [p [Hp He]]. exists p. split; [exact Hp|].
  eapply perm_extends_iff; [|exact He]. intros A D. apply HG.
Qed.

Lemma perms_extend_refl up : perms_extend (λ _ _ _, False) up up.
Proof.
  intros u. destruct (up !! u) as [p|] eqn:Hp; [|reflexivity].
  exists p. split; [reflexivity|apply perm_extends_refl].
Qed.

Lemma perms_extend_trans G1 G2 up0 up1 up2 :
  perms_extend G1 up0 up1 → perms_extend G2 up1 up2 →
  perms_extend (λ u A D, G1 u A D ∨ G2 u A D) up0 up2.
Proof.
  intros H1 H2 u. specialize (H1 u). specialize (H2 u).
  destruct (up0 !! u) as [p0|].
  - destruct H1 as [p1 [Hp1 He1]]. rewrite Hp1 in H2.
    destruct H2 as [p2 [Hp2 He2]]. exists p2. split; [exact Hp2|].
    exact (perm_extends_trans _ _ _ _ _ He1 He2).
  - rewrite H1 in H2. exact H2.
Qed.

Lemma grant_lookup dir_name access up user u :
  grant dir_name access up user !! u
  = if decide (user = u) then append_dir access dir_name <$> up !! u else up !! u.
Proof.
  unfold grant. destruct (up !! user) as [p|] eqn:Hp.
  - rewrite lookup_insert. destruct (decide (user = u)) as [<-|]; [|reflexivity].
    rewrite Hp. reflexivity.
  - destruct (decide (user = u)) as [<-|]; [|reflexivity]. rewrite Hp. reflexivity.
Qed.

Lemma foldl_grant_lookup dir_name access users up u :
  NoDup users →
  foldl (grant dir_name access) up users !! u
  = if decide (u ∈ users) then append_dir access dir_name <$> up !! u else up !! u.
Proof.
  intros Hnd. revert up. induction Hnd as [|x l Hx Hnd IH]; intros up.
  - cbn [foldl]. destruct (decide (u ∈ [])) as [H|]; [inversion H|reflexivity].
  - cbn [foldl]. rewrite IH, grant_lookup.
    destruct (decide (x = u)) as [->|Hne].
    + rewrite (decide_False (P := u ∈ l)) by exact Hx.
      rewrite (decide_True (P := u ∈ u :: l)) by left. reflexivity.
    + destruct (decide (u ∈ l)) as [Hin|Hnin].
      * rewrite (decide_True (P := u ∈ x :: l)) by (right; exact Hin). reflexivity.
      * rewrite (decide_False (P := u ∈ x :: l)); [reflexivity|].
        intros Hin. apply elem_of_cons in Hin as [?|?]; [congruence|contradiction].
Qed.

Lemma foldl_grant_extends dir_name access (all_user : gset string) up :
  perms_extend (λ u A D, u ∈ all_user ∧ A = access ∧ D = dir_name)
    up (foldl (grant dir_name access) up (elements all_user)).
Proof.
  intros u. rewrite foldl_grant_lookup by apply NoDup_elements.
  destruct (up !! u) as [p|] eqn:Hp.
  - destruct (decide (u ∈ elements all_user)) as [Hin|Hnin].
    + eexists. split; [reflexivity|]. apply elem_of_elements in Hin.
      eapply perm_extends_iff; [|apply perm_extends_append_dir].
      intros A D. cbv beta. tauto.
    + exists p. split; [reflexivity|].
      eapply perm_extends_iff; [|apply perm_extends_refl].
      intros A D. cbv beta. rewrite <- elem_of_elements. tauto.
  - destruct (decide (u ∈ elements all_user)); reflexivity.
Qed.

Lemma grant_accesses_extends conf section dir_name accesses up0 up :
  grant_accesses conf section dir_name accesses up0 = Some up →
  (∀ A, A ∈ accesses → is_Some (get_all_user conf section A))
  ∧ perms_extend (λ u A D, D = dir_name ∧ A ∈ accesses
                           ∧ ∃ U, get_all_user conf section A = Some U ∧ u ∈ U) up0 up.
Proof.
  revert up0. induction accesses as [|access rest IH]; intros up0 H.
  - injection H as <-. split; [intros A HA; inversion HA|].
    eapply perms_extend_iff; [|apply perms_extend_refl].
    intros u A D. cbv beta. split; [tauto|]. intros (_ & HA & _). inversion HA.
  - cbn [grant_accesses] in H.
    destruct (get_all_user conf section access) as [all_user|] eqn:HU; [|discriminate].
    cbn [mbind option_bind] in H. destruct (IH _ H) as [IHs IHe]. split.
    + intros A HA. apply elem_of_cons in HA as [->|HA]; [rewrite HU; eauto|auto].
    + eapply perms_extend_iff;
        [|exact (perms_extend_trans _ _ _ _ _
                   (foldl_grant_extends dir_name access all_user up0) IHe)].
      intros u A D. cbv beta. rewrite elem_of_cons. split.
      * intros [(Hu & -> & ->)|(-> & HA & U & HU' & Hu)].
        -- split; [reflexivity|]. split; [left; reflexivity|]. eauto.
        -- split; [reflexivity|]. split; [right; exact HA|]. eauto.
      * intros (-> & [->|HA] & U & HU' & Hu).
        -- left. rewrite HU in HU'. injection HU' as <-. auto.
        -- right. eauto.
Qed.

Lemma all_Access_complete (A : Access) : A ∈ all_Access.
Proof. destruct A; unfold all_Access; set_solver. Qed.

Lemma add_dirs_extends conf sections up0 dirs0 up dirs :
  add_dirs conf sections up0 dirs0 = Some (up, dirs) →
  (∀ D, D ∈ dirs ↔ D ∈ dirs0 ∨ "dir:" +:+ D ∈ sections)
  ∧ (∀ D A, "dir:" +:+ D ∈ sections → is_Some (get_all_user conf ("dir:" +:+ D) A))
  ∧ perms_extend (λ u A D, "dir:" +:+ D ∈ sections
                           ∧ ∃ U, get_all_user conf ("dir:" +:+ D) A = Some U ∧ u ∈ U)
      up0 up.
Proof.
  revert up0 dirs0. induction sections as [|section rest IH]; intros up0 dirs0 H.
  - injection H as <- <-. split; [|split].
    + intros D. split; [tauto|]. intros [H|H]; [exact H|inversion H].
    + intros D A H. inversion H.
    + eapply perms_extend_iff; [|apply perms_extend_refl].
      intros u A D. cbv beta. split; [tauto|]. intros [H _]. inversion H.
  - cbn [add_dirs] in H. destruct (PyStr.startswith section "dir:") eqn:Hs.
    + destruct (grant_accesses conf section (PyStr.slice_from 4 section) all_Access up0)
        as [up1|] eqn:Hg; [|discriminate].
      cbn [mbind option_bind] in H.
      destruct (IH _ _ H) as (IHd & IHs & IHe).
      destruct (grant_accesses_extends _ _ _ _ _ _ Hg) as [Hgs Hge].
      assert (Hname : ∀ D, section = "dir:" +:+ D ↔ D = PyStr.slice_from 4 section).
      { intros D. rewrite <- (section_name "dir:" section D). cbn [String.length].
        split; [intros [_ <-]; reflexivity | intros ->; split; [exact Hs|reflexivity]]. }
      split; [|split].
      * intros D. rewrite IHd, elem_of_union, elem_of_singleton, elem_of_cons.
        rewrite <- Hname. split; [intros [[?|?]|?]|intros [?|[?|?]]]; auto.
      * intros D A HD. apply elem_of_cons in HD as [<-|HD]; [|auto].
        apply Hgs, all_Access_complete.
      * eapply perms_extend_iff; [|exact (perms_extend_trans _ _ _ _ _ Hge IHe)].
        intros u A D. cbv beta. rewrite elem_of_cons, <- Hname. split.
        -- intros [(-> & _ & HU)|[HD HU]]; [split; [left; reflexivity|exact HU]|].
           split; [right; exact HD|exact HU].
        -- intros [[<-|HD] HU]; [left|right; split; assumption].
           split; [reflexivity|]. split; [apply all_Access_complete|exact HU].
    + destruct (IH _ _ H) as (IHd & IHs & IHe).
      assert (Hne : ∀ D, section ≠ "dir:" +:+ D).
      { intros D ->.
        assert (PyStr.startswith ("dir:" +:+ D) "dir:" = true)
          by (apply startswith_spec; eauto). congruence. }
      split; [|split].
      * intros D. rewrite IHd, elem_of_cons. split; [tauto|].
        intros [?|[Heq|?]]; auto. symmetry in Heq. destruct (Hne _ Heq).
      * intros D A HD. apply elem_of_cons in HD as [Heq|HD]; [|auto].
        symmetry in Heq. destruct (Hne _ Heq).
      * eapply perms_extend_iff; [|exact IHe].
        intros u A D. cbv beta. rewrite elem_of_cons. split; [tauto|].
        intros [[Heq|HD] HU]; [symmetry in Heq; destruct (Hne _ Heq)|auto].
Qed.

Lemma initial_user_perms_lookup u :
  initial_user_perms !! u
  = if decide (u = UNAUTH) then Some {| creds := None; action_dirs := init_actions |}
    else None.
Proof.
  unfold initial_user_perms. destruct (decide (u = UNAUTH)) as [->|Hne].
  - apply lookup_singleton_eq.
  - apply lookup_singleton_ne. congruence.
Qed.

Lemma init_actions_lookup (A : Access) : init_actions !! A = Some [].
Proof. destruct A; reflexivity. Qed.

Lemma compute_permissions_inv dec conf up dirs :
  compute_permissions dec conf = Some (up, dirs) →
  ∃ up1 dirset,
    add_users dec conf (ini_sections conf) initial_user_perms = Some up1
    ∧ add_dirs conf (ini_sections conf) up1 ∅ = Some (up, dirset)
    ∧ dirs = merge_sort String.le (elements dirset).
Proof.
  unfold compute_permissions. intros H.
  destruct (add_users dec conf (ini_sections conf) initial_user_perms) as [up1|] eqn:Hu;
    [|discriminate].
  cbn [mbind option_bind] in H.
  destruct (add_dirs conf (ini_sections conf) up1 ∅) as [[up2 dirset]|] eqn:Hd;
    [|discriminate].
  cbn [mbind option_bind] in H. injection H as <- <-.
  exists up1, dirset. split; [reflexivity|]. split; [exact Hd|reflexivity].
Qed.

(** X18. The users of the policy that [compute_permissions] builds are
    [anonymous] and the users with a [user:] section, and no others. A
    user with a section has the password of that section ([password], or
    else [b64_password] decoded); [anonymous] without a section has
    none. *)
Theorem compute_permissions_users dec conf up dirs (u : string) :
  compute_permissions dec conf = Some (up, dirs) →
  (is_Some (up !! u) ↔ u = UNAUTH ∨ "user:" +:+ u ∈ ini_sections conf)
  ∧ ∀ perms, up !! u = Some perms →
      creds perms = if decide ("user:" +:+ u ∈ ini_sections conf)
                    then mk_creds dec conf ("user:" +:+ u) else None.
Proof.
  intros H. apply compute_permissions_inv in H as (up1 & dirset & Hu & Hd & _).
  destruct (add_users_lookup _ _ _ _ _ u Hu) as [Hin Hnin].
  destruct (add_dirs_extends _ _ _ _ _ _ Hd) as (_ & _ & He). specialize (He u).
  destruct (decide ("user:" +:+ u ∈ ini_sections conf)) as [Hs|Hs].
  - destruct (Hin Hs) as (c & Hc & Hup1). rewrite Hup1 in He.
    destruct He as (p & Hp & Hcreds & _). rewrite Hp. split.
    + split; [intros _; right; exact Hs | eauto].
    + intros perms [= <-]. rewrite Hcreds, Hc. reflexivity.
  - rewrite (Hnin Hs), initial_user_perms_lookup in He.
    destruct (decide (u = UNAUTH)) as [->|Hne].
    + destruct He as (p & Hp & Hcreds & _). rewrite Hp. split.
      * split; [intros _; left; reflexivity | eauto].
      * intros perms [= <-]. exact Hcreds.
    + rewrite He. split.
      * split; [intros [? ?]; discriminate | intros [?|?]; contradiction].
      * intros perms; discriminate.
Qed.


Lemma compute_permissions_users_bob :
  (is_Some (user_perms cfg_demo !! "bob")
   ↔ "bob" = UNAUTH ∨ "user:" +:+ "bob" ∈ ini_sections conf_demo).
Proof.
  refine (proj1 (compute_permissions_users plain_decode conf_demo
                   (user_perms cfg_demo) (all_dirs cfg_demo) "bob" _)).
  vm_compute. reflexivity.
Defined.


Lemma policy_entry dec conf up dirs (u : string) :
  compute_permissions dec conf = Some (up, dirs) →
  match up !! u with
  | Some perms =>
      creds perms = (if decide ("user:" +:+ u ∈ ini_sections conf)
                     then mk_creds dec conf ("user:" +:+ u) else None)
      ∧ ∀ A, ∃ l, action_dirs perms !! A = Some l
                  ∧ ∀ D, D ∈ l ↔ "dir:" +:+ D ∈ ini_sections conf
                                  ∧ ∃ U, get_all_user conf ("dir:" +:+ D) A = Some U
                                         ∧ u ∈ U
  | None => u ≠ UNAUTH ∧ "user:" +:+ u ∉ ini_sections conf
  end.
Proof.
  intros H. apply compute_permissions_inv in H as (up1 & dirset & Hu & Hd & _).
  destruct (add_users_lookup _ _ _ _ _ u Hu) as [Hin Hnin].
  destruct (add_dirs_extends _ _ _ _ _ _ Hd) as (_ & _ & He). specialize (He u).
  assert (Hup1 : (∃ p1, up1 !! u = Some p1 ∧ action_dirs p1 = init_actions
                        ∧ creds p1 = if decide ("user:" +:+ u ∈ ini_sections conf)
                                     then mk_creds dec conf ("user:" +:+ u) else None)
                 ∨ (up1 !! u = None ∧ u ≠ UNAUTH ∧ "user:" +:+ u ∉ ini_sections conf)).
  { destruct (decide ("user:" +:+ u ∈ ini_sections conf)) as [Hs|Hs].
    - destruct (Hin Hs) as (c & Hc & Hup1). left. eexists. split; [exact Hup1|].
      split; [reflexivity|]. symmetry. exact Hc.
    - rewrite (Hnin Hs), initial_user_perms_lookup.
      destruct (decide (u = UNAUTH)); [left; eauto | right; auto]. }
  destruct Hup1 as [(p1 & Hp1 & Hinit & Hcreds)|(Hp1 & Hne & Hs)]; rewrite Hp1 in He.
  - destruct He as (p & Hp & Hc & Hdirs). rewrite Hp. split; [congruence|]. intros A.
    destruct (Hdirs A []) as [l [Hl Hiff]]; [rewrite Hinit; apply init_actions_lookup|].
    exists l. split; [exact Hl|]. intros D. rewrite Hiff. split; [|tauto].
    intros [H|H]; [inversion H|exact H].
  - rewrite He. auto.
Qed.

(** X19. In the policy that [compute_permissions] builds every user has
    a list for each of the five actions, and the list of action [A]
    holds the directory [D] exactly when the file has a section [dir:D]
    for which [get_all_user] names the user for [A]. *)
Theorem compute_permissions_grants dec conf up dirs (u : string) perms (A : Access) :
  compute_permissions dec conf = Some (up, dirs) →
  up !! u = Some perms →
  ∃ l, action_dirs perms !! A = Some l
       ∧ ∀ D, D ∈ l ↔ "dir:" +:+ D ∈ ini_sections conf
                       ∧ ∃ U, get_all_user conf ("dir:" +:+ D) A = Some U ∧ u ∈ U.
Proof.
  intros H Hperms. pose proof (policy_entry _ _ _ _ u H) as He.
  rewrite Hperms in He. apply He.
Qed.

Lemma compute_permissions_grants_alice :
  ∃ l, action_dirs alice_perm !! FETCH = Some l
       ∧ ∀ D, D ∈ l ↔ "dir:" +:+ D ∈ ini_sections conf_demo
                       ∧ ∃ U, get_all_user conf_demo ("dir:" +:+ D) FETCH = Some U
                              ∧ "alice" ∈ U.
Proof.
  apply (compute_permissions_grants plain_decode conf_demo
           (user_perms cfg_demo) (all_dirs cfg_demo) "alice" alice_perm FETCH).
  - vm_compute. reflexivity.
  - reflexivity.
Defined.

(** X20. [config.all_dirs] is the sorted list, without repetition, of
    the names [D] of the sections [dir:D] of the file. *)
Theorem compute_permissions_all_dirs dec conf up dirs :
  compute_permissions dec conf = Some (up, dirs) →
  (∀ D, D ∈ dirs ↔ "dir:" +:+ D ∈ ini_sections conf)
  ∧ NoDup dirs ∧ Sorted String.le dirs.
Proof.
  intros H. apply compute_permissions_inv in H as (up1 & dirset & _ & Hd & ->).
  destruct (add_dirs_extends _ _ _ _ _ _ Hd) as (Hdirs & _ & _).
  split; [|split].
  - intros D. rewrite merge_sort_Permutation, elem_of_elements, Hdirs.
    split; [intros [H|H]; [set_solver|exact H] | tauto].
  - rewrite merge_sort_Permutation. apply NoDup_elements.
  - apply (Sorted_merge_sort _).
Qed.

Lemma compute_permissions_all_dirs_demo :
  (∀ D, D ∈ all_dirs cfg_demo ↔ "dir:" +:+ D ∈ ini_sections conf_demo)
  ∧ NoDup (all_dirs cfg_demo) ∧ Sorted String.le (all_dirs cfg_demo).
Proof.
  apply (compute_permissions_all_dirs plain_decode conf_demo (user_perms cfg_demo)).
  vm_compute. reflexivity.
Defined.

Lemma slice_to_prefix n (s : string) : ∃ rest, s = PyStr.slice_to n s +:+ rest.
Proof.
  revert s. induction n as [|n IH]; intros s; [exists s; reflexivity|].
  destruct s as [|a s]; [exists ""; reflexivity|].
  destruct (IH s) as [rest Hrest]. exists rest. cbn [PyStr.slice_to].
  rewrite append_cons. congruence.
Qed.

Lemma rstrip_prefix c (s : string) : ∃ rest, s = PyStr.rstrip c s +:+ rest.
Proof.
  induction s as [|a s [rest IH]]; [exists ""; reflexivity|].
  cbn [PyStr.rstrip]. destruct (PyStr.rstrip c s) as [|b r] eqn:Hr.
  - destruct (PyStr.chr_eqb a c).
    + exists (String a s). reflexivity.
    + exists s. reflexivity.
  - exists rest. rewrite append_cons. congruence.
Qed.

Lemma split_prefix (d : string) : PyStr.startswith d (posixpath.split d).1 = true.
Proof.
  apply startswith_spec. unfold posixpath.split.
  set (i := Z.to_nat (PyStr.rfind posixpath.sep_chr d + 1)).
  destruct (slice_to_prefix i d) as [rest Hrest].
  destruct (_ && _); cbn [fst]; [|eauto].
  destruct (rstrip_prefix posixpath.sep_chr (PyStr.slice_to i d)) as [rest' Hrest'].
  exists (rest' +:+ rest). rewrite <- append_assoc, <- Hrest', <- Hrest. reflexivity.
Qed.

Lemma startswith_trans (s t u : string) :
  PyStr.startswith s t = true → PyStr.startswith t u = true → PyStr.startswith s u = true.
Proof.
  rewrite !startswith_spec. intros [r ->] [r' ->]. exists (r' +:+ r).
  apply append_assoc.
Qed.

Lemma has_access_loop_true cfg fuel dirs (d : string) :
  has_access_loop cfg fuel dirs d = Return true →
  ∃ D, D ∈ all_dirs cfg ∧ D ∈ dirs ∧ PyStr.startswith d D = true.
Proof.
  revert d. induction fuel as [|fuel IH]; intros d H; [discriminate|].
  cbn [has_access_loop] in H.
  destruct (bool_decide (d ∈ all_dirs cfg)) eqn:Hreg.
  - injection H as H. apply bool_decide_eq_true in Hreg, H.
    exists d. split; [exact Hreg|]. split; [exact H|]. apply startswith_spec.
    exists "". symmetry. apply append_empty_r.
  - destruct (_ || _); [discriminate|].
    pose proof (split_prefix d) as Hpre.
    destruct (posixpath.split d) as [parent name]. cbn [fst] in Hpre.
    destruct (IH _ H) as (D & HD & Hdirs & Hs). exists D.
    split; [exact HD|]. split; [exact Hdirs|]. exact (startswith_trans _ _ _ Hpre Hs).
Qed.

(** X21. Under the policy of a configuration file [has_access] answers
    [True] only for a name that begins with the name [D] of a section
    [dir:D] for which [get_all_user] names the user for the action. *)
Theorem has_access_needs_section dec conf cfg fuel (u d : string) (A : Access) :
  compute_permissions dec conf = Some (user_perms cfg, all_dirs cfg) →
  has_access cfg fuel u d A = Return true →
  ∃ D U, PyStr.startswith d D = true
         ∧ "dir:" +:+ D ∈ ini_sections conf
         ∧ get_all_user conf ("dir:" +:+ D) A = Some U ∧ u ∈ U.
Proof.
  intros Hc H. unfold has_access in H.
  pose proof (policy_entry _ _ _ _ u Hc) as He.
  destruct (user_perms cfg !! u) as [perms|]; [|discriminate].
  destruct He as [_ He]. destruct (He A) as [l [Hl Hiff]]. rewrite Hl in H.
  apply has_access_loop_true in H as (D & _ & HD & Hs).
  apply Hiff in HD as (Hsec & U & HU & HuU). exists D, U. auto.
Qed.

Lemma has_access_needs_section_alice :
  ∃ D U, PyStr.startswith "pub/docs" D = true
         ∧ "dir:" +:+ D ∈ ini_sections conf_demo
         ∧ get_all_user conf_demo ("dir:" +:+ D) FETCH = Some U ∧ "alice" ∈ U.
Proof.
  apply (has_access_needs_section plain_decode conf_demo cfg_demo 9 "alice" "pub/docs" FETCH).
  - vm_compute. reflexivity.
  - reflexivity.
Defined.

(** X22. Under the policy of a configuration file [has_access] raises
    for no user of the file: when it raises, the error is 403 and the
    user is neither [anonymous] nor the user of a [user:] section. *)
Theorem has_access_raises_unknown_user dec conf cfg fuel (u d : string) (A : Access) e :
  compute_permissions dec conf = Some (user_perms cfg, all_dirs cfg) →
  has_access cfg fuel u d A = Raise e →
  e = AccessError 403 "forbidden"
  ∧ u ≠ UNAUTH ∧ "user:" +:+ u ∉ ini_sections conf.
Proof.
  intros Hc H. unfold has_access in H.
  pose proof (policy_entry _ _ _ _ u Hc) as He.
  destruct (user_perms cfg !! u) as [perms|].
  - exfalso. destruct He as [_ He]. destruct (He A) as [l [Hl _]]. rewrite Hl in H.
    exact (has_access_loop_no_raise _ _ _ _ _ H).
  - injection H as <-. split; [reflexivity|exact He].
Qed.

Lemma has_access_raises_unknown_user_mallory :
  AccessError 403 "forbidden" = AccessError 403 "forbidden"
  ∧ "mallory" ≠ UNAUTH ∧ "user:" +:+ "mallory" ∉ ini_sections conf_demo.
Proof.
  apply (has_access_raises_unknown_user plain_decode conf_demo cfg_demo 9
           "mallory" "pub" LIST).
  - vm_compute. reflexivity.
  - reflexivity.
Defined.

Lemma elem_of_map {A B : Type} (f : A → B) (l : list A) (y : B) :
  y ∈ map f l ↔ ∃ x, y = f x ∧ x ∈ l.
Proof.
  induction l as [|a l IH]; cbn [map].
  - split; [intros H; inversion H | intros (x & _ & H); inversion H].
  - rewrite elem_of_cons, IH. split.
    + intros [->|(x & -> & Hx)]; [exists a; split; [reflexivity|left] | ].
      exists x. split; [reflexivity|right; exact Hx].
    + intros (x & -> & Hx). apply elem_of_cons in Hx as [->|Hx]; [left; reflexivity|].
      right. eauto.
Qed.

Lemma has_option_getlist conf (section opt : string) :
  has_option conf section opt = true ↔ is_Some (getlist conf section opt).
Proof.
  unfold has_option, getlist. destruct (ini_get conf section opt); cbn.
  - split; eauto.
  - split; [discriminate | intros [? ?]; discriminate].
Qed.

Lemma has_section_getlist conf (section opt : string) :
  has_section conf section = false → getlist conf section opt = None.
Proof.
  unfold has_section, getlist, ini_get.
  destruct (ini_section conf section); [discriminate | reflexivity].
Qed.

Lemma group_users_members conf group_sections (result R : gset string) (u : string) :
  group_users conf group_sections result = Some R →
  u ∈ R ↔ u ∈ result
          ∨ ∃ gs l, gs ∈ group_sections ∧ getlist conf gs "user" = Some l ∧ u ∈ l.
Proof.
  revert result. induction group_sections as [|gs rest IH]; intros result H.
  - injection H as <-. split; [tauto|].
    intros [H|(gs & l & Hgs & _)]; [exact H|inversion Hgs].
  - cbn [group_users] in H. destruct (has_section conf gs) eqn:Hsec; cbn [negb] in H.
    + destruct (getlist conf gs "user") as [users|] eqn:Hl; [|discriminate].
      cbn [mbind option_bind] in H. rewrite (IH _ H), elem_of_union, elem_of_list_to_set.
      split.
      * intros [[Hr|Hu]|(gs' & l & Hgs & Hl' & Hu)]; [tauto| |].
        -- right. exists gs, users. split; [left|]; auto.
        -- right. exists gs', l. split; [right|]; auto.
      * intros [Hr|(gs' & l & Hgs & Hl' & Hu)]; [tauto|].
        apply elem_of_cons in Hgs as [->|Hgs].
        -- rewrite Hl in Hl'. injection Hl' as <-. tauto.
        -- right. eauto.
    + rewrite (IH _ H). split.
      * intros [Hr|(gs' & l & Hgs & Hl' & Hu)]; [tauto|].
        right. exists gs', l. split; [right|]; auto.
      * intros [Hr|(gs' & l & Hgs & Hl' & Hu)]; [tauto|].
        apply elem_of_cons in Hgs as [->|Hgs].
        -- rewrite (has_section_getlist _ _ _ Hsec) in Hl'. discriminate.
        -- right. eauto.
Qed.

(** X23. [get_all_user] names a user for an action of a directory
    section exactly when the user is an item of the section's
    [<action>_user] option, or an item of the [user] option of a section
    [group:g] for an item [g] of the section's [<action>_groups] option. *)
Theorem get_all_user_members conf (section : string) (access : Access) U (u : string) :
  get_all_user conf section access = Some U →
  u ∈ U ↔
    (∃ l, getlist conf section (Access_value access +:+ "_user") = Some l ∧ u ∈ l)
    ∨ (∃ groups g l,
         getlist conf section (Access_value access +:+ "_groups") = Some groups
         ∧ g ∈ groups
         ∧ getlist conf ("group:" +:+ g) "user" = Some l ∧ u ∈ l).
Proof.
  unfold get_all_user. intros H.
  set (g_access := Access_value access +:+ "_groups") in *.
  set (u_access := Access_value access +:+ "_user") in *.
  assert (Hg : ∃ groups,
             (if has_option conf section g_access then getlist conf section g_access
              else Some []) = Some groups
             ∧ ∀ g, g ∈ groups ↔ ∃ gl, getlist conf section g_access = Some gl ∧ g ∈ gl).
  { destruct (has_option conf section g_access) eqn:Ho.
    - apply has_option_getlist in Ho as [gl Hgl]. exists gl. split; [exact Hgl|].
      intros g. rewrite Hgl. split; [eauto|]. intros (gl' & [= <-] & Hin). exact Hin.
    - exists []. split; [reflexivity|]. intros g. split; [intros Hin; inversion Hin|].
      intros (gl & Hgl & _).
      assert (has_option conf section g_access = true)
        by (apply has_option_getlist; eauto). congruence. }
  destruct Hg as (groups & Hgroups & Hgiff). rewrite Hgroups in H.
  cbn [mbind option_bind] in H.
  destruct (group_users conf (map (λ s, "group:" +:+ s) groups) ∅) as [R|] eqn:HR;
    [|discriminate].
  cbn [mbind option_bind] in H.
  pose proof (group_users_members _ _ _ _ u HR) as HRiff.
  assert (HG : u ∈ R ↔ ∃ gl g l, getlist conf section g_access = Some gl ∧ g ∈ gl
                           ∧ getlist conf ("group:" +:+ g) "user" = Some l ∧ u ∈ l).
  { rewrite HRiff. split.
    - intros [Hin|(gs & l & Hgs & Hl & Hu)]; [set_solver|].
      apply elem_of_map in Hgs as (g & -> & Hg).
      apply Hgiff in Hg as (gl & Hgl & Hg). exists gl, g, l. auto.
    - intros (gl & g & l & Hgl & Hg & Hl & Hu). right.
      exists ("group:" +:+ g), l. split; [|auto].
      apply elem_of_map. exists g. split; [reflexivity|].
      apply Hgiff. eauto. }
  destruct (has_option conf section u_access) eqn:Ho.
  - destruct (getlist conf section u_access) as [users|] eqn:Hl; [|discriminate].
    cbn [mbind option_bind] in H. injection H as <-.
    rewrite elem_of_union, elem_of_list_to_set, HG. split.
    + intros [H|H]; [right; exact H | left; eauto].
    + intros [(l & [= <-] & Hu)|H]; [right; exact Hu | left; exact H].
  - injection H as <-. rewrite HG. split; [tauto|].
    intros [(l & Hl & _)|H]; [|exact H].
    assert (has_option conf section u_access = true)
      by (apply has_option_getlist; eauto). congruence.
Qed.

Lemma get_all_user_members_alice :
  "alice" ∈ ({[ "alice" ]} : gset string) ↔
    (∃ l, getlist conf_demo "dir:pub" (Access_value FETCH +:+ "_user") = Some l
          ∧ "alice" ∈ l)
    ∨ (∃ groups g l,
         getlist conf_demo "dir:pub" (Access_value FETCH +:+ "_groups") = Some groups
         ∧ g ∈ groups
         ∧ getlist conf_demo ("group:" +:+ g) "user" = Some l ∧ "alice" ∈ l).
Proof.
  apply (get_all_user_members conf_demo "dir:pub" FETCH {[ "alice" ]} "alice").
  vm_compute. reflexivity.
Defined.







Lemma lstrip_space_head (s : string) :
  lstrip_space s = "" ∨ ∃ a t, lstrip_space s = String a t ∧ py_isspace a = false.
Proof.
  induction s as [|a s IH]; [left; reflexivity|]. cbn [lstrip_space].
  destruct (py_isspace a) eqn:Ha; [exact IH|]. right. eauto.
Qed.

Lemma lstrip_space_absent c (s : string) :
  contains_chr c s = false → contains_chr c (lstrip_space s) = false.
Proof.
  induction s as [|a s IH]; [reflexivity|]. intros H. cbn [lstrip_space].
  destruct (py_isspace a); [|exact H].
  cbn [contains_chr] in H. apply orb_false_iff in H as [_ H]. exact (IH H).
Qed.

Lemma rstrip_space_absent c (s : string) :
  contains_chr c s = false → contains_chr c (rstrip_space s) = false.
Proof.
  induction s as [|a s IH]; [reflexivity|]. intros H.
  cbn [contains_chr] in H. apply orb_false_iff in H as [Ha H]. specialize (IH H).
  cbn [rstrip_space]. destruct (rstrip_space s) as [|b r].
  - destruct (py_isspace a); [reflexivity|]. cbn [contains_chr]. rewrite Ha. reflexivity.
  - cbn [contains_chr] in IH |- *. rewrite Ha. exact IH.
Qed.

Lemma rstrip_space_idem (s : string) : rstrip_space (rstrip_space s) = rstrip_space s.
Proof.
  induction s as [|a s IH]; [reflexivity|]. cbn [rstrip_space].
  destruct (rstrip_space s) as [|b r] eqn:Hr.
  - destruct (py_isspace a) eqn:Ha; [reflexivity|]. cbn [rstrip_space]. rewrite Ha.
    reflexivity.
  - change (rstrip_space (String a (String b r)))
      with (match rstrip_space (String b r) with
            | EmptyString => if py_isspace a then EmptyString else String a EmptyString
            | r0 => String a r0
            end).
    rewrite IH. reflexivity.
Qed.

Lemma strip_space_idem (s : string) : strip_space (strip_space s) = strip_space s.
Proof.
  unfold strip_space.
  destruct (lstrip_space_head s) as [->|(a & t & -> & Ha)]; [reflexivity|].
  assert (Hhead : ∃ r, rstrip_space (String a t) = String a r).
  { cbn [rstrip_space]. destruct (rstrip_space t); [rewrite Ha|]; eauto. }
  destruct Hhead as [r Hr].
  assert (Hl : lstrip_space (rstrip_space (String a t)) = rstrip_space (String a t)).
  { rewrite Hr. cbn [lstrip_space]. rewrite Ha. reflexivity. }
  rewrite Hl. apply rstrip_space_idem.
Qed.

(** X25. [getlist] gives the empty list for a value that is blank, and
    otherwise the items between the commas, each without white space
    around it; an item holds no comma. *)
Theorem get_list_items (value : string) :
  (get_list_value value = [] ↔ strip_space value = "")
  ∧ ∀ x, x ∈ get_list_value value →
         strip_space x = x ∧ contains_chr ","%char x = false.
Proof.
  unfold get_list_value. split.
  - destruct (strip_space value) as [|a v] eqn:Hv; [split; reflexivity|].
    cbn [PyStr.truthy]. destruct (split_chr_cons ","%char (String a v)) as (h & t & ->).
    split; discriminate.
  - intros x Hx. destruct (PyStr.truthy (strip_space value)); [|inversion Hx].
    apply elem_of_map in Hx as (y & -> & Hy). split; [apply strip_space_idem|].
    unfold strip_space. apply rstrip_space_absent, lstrip_space_absent.
    pose proof (split_chr_absent ","%char (strip_space value)) as Hall.
    rewrite Forall_forall in Hall. apply Hall. exact Hy.
Qed.

Example get_list_value_spaces :
  get_list_value " alice , bob,,carol " = ["alice"; "bob"; ""; "carol"].
Proof. reflexivity. Qed.

Example get_list_value_blank : get_list_value "   " = [].
Proof. reflexivity. Qed.

(** X26. Under the policy of a configuration file the FTP login accepts
    a password for a user exactly when the file has a section for that
    user whose password ([password], or else [b64_password] decoded) is
    the one given. *)
Theorem validate_authentication_policy dec conf cfg (u pw : string) :
  compute_permissions dec conf = Some (user_perms cfg, all_dirs cfg) →
  validate_authentication cfg u (Some pw) = Return tt
  ↔ "user:" +:+ u ∈ ini_sections conf ∧ mk_creds dec conf ("user:" +:+ u) = Some pw.
Proof.
  intros Hc. pose proof (policy_entry _ _ _ _ u Hc) as He.
  unfold validate_authentication, stored_creds.
  destruct (user_perms cfg !! u) as [perms|].
  - destruct He as [Hcreds _]. rewrite Hcreds.
    destruct (decide ("user:" +:+ u ∈ ini_sections conf)) as [Hs|Hs].
    + destruct (decide (mk_creds dec conf ("user:" +:+ u) = Some pw)) as [Heq|Hne].
      * rewrite bool_decide_eq_true_2 by exact Heq. cbn [negb]. tauto.
      * rewrite bool_decide_eq_false_2 by exact Hne. cbn [negb].
        split; [discriminate | intros [_ ?]; contradiction].
    + rewrite bool_decide_eq_false_2 by discriminate. cbn [negb].
      split; [discriminate | intros [? _]; contradiction].
  - rewrite bool_decide_eq_false_2 by discriminate. cbn [negb].
    split; [discriminate|]. intros [Hs _]. destruct He as [_ He]. contradiction.
Qed.

Lemma validate_authentication_policy_bob :
  validate_authentication cfg_demo "bob" (Some "pw") = Return tt
  ↔ "user:" +:+ "bob" ∈ ini_sections conf_demo
    ∧ mk_creds plain_decode conf_demo ("user:" +:+ "bob") = Some "pw".
Proof.
  apply (validate_authentication_policy plain_decode conf_demo cfg_demo "bob" "pw").
  vm_compute. reflexivity.
Defined.

(** X27. The challenge store keeps the last upload of each token: after
    any sequence of upload requests, [serve_letsencrypt] answers 200
    with [token.thumb] of the last request for the token, and answers
    for a token that no request named as it did before them. *)
Theorem letsencrypt_last_upload (data : gmap string string)
    (requests : list (string * string)) (token : string) :
  (∀ before thumb after,
     requests = before ++ (token, thumb) :: after → token ∉ map fst after →
     serve_letsencrypt (letsencrypt_uploads data requests) token
     = plain_response (token +:+ "." +:+ thumb) 200)
  ∧ (token ∉ map fst requests →
     serve_letsencrypt (letsencrypt_uploads data requests) token
     = serve_letsencrypt data token).
Proof.
  assert (Hskip : ∀ reqs d, token ∉ map fst reqs →
            letsencrypt_uploads d reqs !! token = d !! token).
  { induction reqs as [|[t th] reqs IH]; intros d Hn; [reflexivity|].
    unfold letsencrypt_uploads in *. cbn [fold_left map fst] in *.
    rewrite IH by (intros H; apply Hn; right; exact H).
    cbn [upload_letsencrypt snd]. apply lookup_insert_ne.
    intros ->. apply Hn. left. }
  split.
  - intros before thumb after -> Hafter. unfold serve_letsencrypt.
    unfold letsencrypt_uploads. rewrite fold_left_app. cbn [fold_left].
    fold (letsencrypt_uploads data before).
    match goal with
    | |- context [fold_left ?f after ?d] =>
        change (fold_left f after d) with (letsencrypt_uploads d after)
    end.
    rewrite (Hskip _ _ Hafter). cbn [upload_letsencrypt snd].
    rewrite lookup_insert_eq. reflexivity.
  - intros Hn. unfold serve_letsencrypt. rewrite (Hskip _ _ Hn). reflexivity.
Qed.

Example letsencrypt_unknown_token :
  serve_letsencrypt (letsencrypt_uploads ∅ [("t1", "a"); ("t2", "b"); ("t1", "c")]) "t3"
  = plain_response "permission denied" 403.
Proof. reflexivity. Qed.

Example letsencrypt_second_upload :
  serve_letsencrypt (letsencrypt_uploads ∅ [("t1", "a"); ("t2", "b"); ("t1", "c")]) "t1"
  = plain_response "t1.c" 200.
Proof. reflexivity. Qed.

Lemma send_chunks_run_zero (data : list Byte.byte) s L fuel :
  0 ≤ s → 0 < L →
  ∃ ys, send_chunks_run fuel 0 data s L 0 = (ys, OutOfFuel)
        ∧ length ys = fuel
        ∧ Forall (λ y, y_pos y = s ∧ y_size y = 0 ∧ y_bytes y = []) ys.
Proof.
  intros Hs HL. induction fuel as [|fuel (ys & Hrun & Hlen & Hall)].
  - exists []. repeat split. constructor.
  - cbn [send_chunks_run]. unfold send_chunks_next, seek_read.
    destruct (Z.ltb_spec 0 L) as [_|?]; [|lia].
    destruct (Z.gtb_spec (0 + 0) L) as [?|_]; [lia|].
    destruct (Z.ltb_spec (s + 0) 0) as [?|_]; [lia|].
    cbn [Z.ltb Z.eqb Z.compare mbind result_bind Z.to_nat take].
    change (0 + 0) with 0. rewrite Hrun.
    eexists. split; [reflexivity|]. split; [cbn [length]; congruence|].
    constructor; [|exact Hall]. cbn. split; [lia|]. split; reflexivity.
Qed.

(** X28. With a chunk size of zero the generator of a range that is not
    empty never ends: however often it is resumed it yields one more
    chunk, read at the start of the range and empty. *)
Theorem send_chunks_iter_zero_chunk cfg (fs : filesystem) filename node s L fuel :
  fs !! filename = Some node → n_isdir node = false → n_readable node = true →
  chunksize cfg = 0 → 0 ≤ s → 0 < L →
  ∃ ys, send_chunks_iter fuel cfg fs
          {| it_filename := filename; it_start := s; it_length := L |}
        = (ys, OutOfFuel)
        ∧ length ys = fuel
        ∧ Forall (λ y, y_pos y = s ∧ y_size y = 0 ∧ y_bytes y = []) ys.
Proof.
  intros Hnode Hdir Hread Hc Hs HL. unfold send_chunks_iter.
  cbn [it_filename it_start it_length]. rewrite Hnode, Hdir, Hread, Hc. cbn [orb negb].
  apply send_chunks_run_zero; assumption.
Qed.

Lemma send_chunks_iter_zero_chunk_demo :
  ∃ ys, send_chunks_iter 5 cfg_zero_chunk fs_demo
          {| it_filename := "/data/a/pub/x.bin"; it_start := 10; it_length := 1 |}
        = (ys, OutOfFuel)
        ∧ length ys = 5%nat
        ∧ Forall (λ y, y_pos y = 10 ∧ y_size y = 0 ∧ y_bytes y = []) ys.
Proof.
  eapply (send_chunks_iter_zero_chunk cfg_zero_chunk fs_demo "/data/a/pub/x.bin" _ 10 1 5);
    [reflexivity | reflexivity | reflexivity | reflexivity | lia | lia].
Defined.

(** X29. What was uploaded is served back: after [upload_file] has
    saved a file under a name that was free, [streamfile] for that name
    and the range [bytes=0-] answers 206 with a generator that, for a
    chunk size of at least one, runs to its end and delivers the
    uploaded bytes. *)
Theorem upload_then_stream gvf guess cfg req req' (fs fs' : filesystem) user directory
    filename data resp fuel :
  upload req = Some (filename, data) →
  PyStr.truthy (gvf (basename filename)) = true →
  fs !! upload_target gvf cfg directory filename = None →
  upload_file gvf cfg req fs user directory = Return (resp, fs') →
  range_header req' = Some "bytes=0-" →
  1 ≤ chunksize cfg →
  (Z.to_nat (ceil_div (Z.of_nat (length data)) (chunksize cfg)) < fuel)%nat →
  ∃ resp' it ys,
    streamfile guess req' fs' (upload_target gvf cfg directory filename) = Return resp'
    ∧ r_status resp' = 206
    ∧ r_body resp' = Chunks it
    ∧ send_chunks_iter fuel cfg fs' it = (ys, Return tt)
    ∧ body_bytes ys = data.
Proof.
  intros Hup Hname Hfree Hsave Hrange Hc Hfuel.
  set (target := upload_target gvf cfg directory filename) in *.
  assert (Hfs' : fs' = <[target := {| n_isdir := false; n_data := data;
                                      n_readable := true; n_writable := true |}]> fs).
  { unfold upload_file in Hsave. rewrite Hup in Hsave.
    fold (upload_target gvf cfg directory filename) in Hsave. fold target in Hsave.
    rewrite Hname in Hsave. cbn [negb] in Hsave.
    unfold os_access_R_OK, file_save, os_getsize in Hsave. rewrite Hfree in Hsave.
    cbn [mbind result_bind] in Hsave. rewrite lookup_insert_eq in Hsave.
    cbn [mbind result_bind] in Hsave. injection Hsave as _ <-. reflexivity. }
  unfold streamfile. rewrite Hrange. cbn [PyStr.truthy negb].
  unfold os_getsize. rewrite Hfs', lookup_insert_eq. cbn [mbind result_bind n_data].
  change (re_search_range "bytes=0-") with (Some ("0", "")).
  cbn [PyStr.truthy]. change (PyStr.int_of_digits "0") with 0.
  destruct (send_chunks_run_from (chunksize cfg) data 0 (Z.of_nat (length data))
              Hc ltac:(lia) fuel 0) as (ys & Hrun & _ & _ & _ & Hbytes).
  { lia. }
  { replace (Z.of_nat (length data) - 0) with (Z.of_nat (length data)) by lia.
    exact Hfuel. }
  eexists _, _, ys. split; [reflexivity|]. split; [reflexivity|].
  split; [reflexivity|]. split.
  - unfold send_chunks_iter. cbn [it_filename it_start it_length].
    rewrite lookup_insert_eq. cbn [n_isdir n_readable n_data orb negb].
    replace (Z.of_nat (length data) - 0) with (Z.of_nat (length data)) by lia.
    exact Hrun.
  - rewrite Hbytes. replace (Z.to_nat (Z.of_nat (length data) - 0)) with (length data) by lia.
    cbn [Z.add Z.to_nat drop]. apply firstn_all.
Qed.

Lemma upload_then_stream_fresh :
  ∃ resp' it ys,
    streamfile no_guess (range_request "bytes=0-")
      (<["/data/a/pub/report.txt" :=
           {| n_isdir := false; n_data := [Byte.x61; Byte.x62; Byte.x63];
              n_readable := true; n_writable := true |}]> fs_demo)
      (upload_target keep_name cfg_demo "pub" "C:/docs/report.txt") = Return resp'
    ∧ r_status resp' = 206
    ∧ r_body resp' = Chunks it
    ∧ send_chunks_iter 2 cfg_demo
        (<["/data/a/pub/report.txt" :=
             {| n_isdir := false; n_data := [Byte.x61; Byte.x62; Byte.x63];
                n_readable := true; n_writable := true |}]> fs_demo) it
      = (ys, Return tt)
    ∧ body_bytes ys = [Byte.x61; Byte.x62; Byte.x63].
Proof.
  eapply (upload_then_stream keep_name no_guess cfg_demo upload_fresh (range_request "bytes=0-")
            fs_demo _ "alice" "pub" "C:/docs/report.txt" [Byte.x61; Byte.x62; Byte.x63]
            _ 2);
    [reflexivity | reflexivity | reflexivity | vm_compute; reflexivity | reflexivity
    | vm_compute; discriminate | vm_compute; lia].
Defined.
